(** * VoxFile: a shallow embedding of the MagicaVoxel [.vox] loader

    The development follows [vox_file.h] and [vox_file.cpp]: the little-endian
    readers over an [ifstream], the chunk reader with its four handlers, the
    dense and sparse models, hidden-voxel removal and [VoxFile::Load].

    Conventions.
    - [uint8_t] and [char] are Stdlib's [byte]; [uint32_t] is a [Z] with the
      wrap-around modulo 2^32 written out ([u32]); a stream position
      ([std::streamoff]) is a [Z].
    - An [ifstream] never throws: the source leaves its exception mask empty.
      A read past the end of the data sets the fail bit and leaves the rest of
      the destination buffer as it was; on a failed stream a read extracts
      nothing, a seek does nothing and [tellg] answers -1.  Nothing in the
      source clears the state again.
    - The bytes of a buffer that was never written are taken from an oracle
      [stale : nat -> byte], one entry per indeterminate byte consumed.
    - [std::vector::at] throws [std::out_of_range]; the pure model functions
      return [None] where it does.  Allocation never fails.
    - The recursion of [ReadChunk] and the loop of [ReadMainChunk] are driven
      by fuel; running out of it is an outcome of its own, [OutOfFuel]. *)

From Stdlib Require Import ZArith List Lia Bool.
From Stdlib Require Import Strings.Byte.
From Stdlib Require Strings.String.
Import String.StringSyntax.
Delimit Scope string_scope with string.
From stdpp Require Import base list.
Import ListNotations.
Local Open Scope Z_scope.

(** ** Machine integers *)

Definition u32 (n : Z) : Z := n mod 2 ^ 32.

Definition u8 (b : byte) : Z := Z.of_N (Byte.to_N b).

(** [static_cast<uint8_t>] of an integer. *)
Definition to_u8 (n : Z) : byte :=
  match Byte.of_N (Z.to_N (n mod 256)) with
  | Some b => b
  | None => x00
  end.

(** ** Data model ([vox_file.h]) *)

Module Vec3i.
Record t : Type := mk { x : Z; y : Z; z : Z }.
End Vec3i.

Abbreviation Size := Vec3i.t.

Module Color.
Record t : Type := mk { r : byte; g : byte; b : byte; a : byte }.

(** [constexpr Color(uint32_t val)]. *)
Definition of_u32 (val : Z) : t :=
  mk (to_u8 (Z.land val 0xff))
     (to_u8 (Z.land (Z.shiftr val 8) 0xff))
     (to_u8 (Z.land (Z.shiftr val 16) 0xff))
     (to_u8 (Z.land (Z.shiftr val 24) 0xff)).
End Color.

(** [std::array<Color, 256>]. *)
Definition Palette : Type := list Color.t.

Definition kDefaultPalette : Palette :=
  Eval vm_compute in map Color.of_u32
  [
   0xffffffff; 0xffffffcc; 0xffffff99; 0xffffff66; 0xffffff33; 0xffffff00; 
   0xffffccff; 0xffffcccc; 0xffffcc99; 0xffffcc66; 0xffffcc33; 0xffffcc00; 
   0xffff99ff; 0xffff99cc; 0xffff9999; 0xffff9966; 0xffff9933; 0xffff9900; 
   0xffff66ff; 0xffff66cc; 0xffff6699; 0xffff6666; 0xffff6633; 0xffff6600; 
   0xffff33ff; 0xffff33cc; 0xffff3399; 0xffff3366; 0xffff3333; 0xffff3300; 
   0xffff00ff; 0xffff00cc; 0xffff0099; 0xffff0066; 0xffff0033; 0xffff0000; 
   0xffccffff; 0xffccffcc; 0xffccff99; 0xffccff66; 0xffccff33; 0xffccff00; 
   0xffccccff; 0xffcccccc; 0xffcccc99; 0xffcccc66; 0xffcccc33; 0xffcccc00; 
   0xffcc99ff; 0xffcc99cc; 0xffcc9999; 0xffcc9966; 0xffcc9933; 0xffcc9900; 
   0xffcc66ff; 0xffcc66cc; 0xffcc6699; 0xffcc6666; 0xffcc6633; 0xffcc6600; 
   0xffcc33ff; 0xffcc33cc; 0xffcc3399; 0xffcc3366; 0xffcc3333; 0xffcc3300; 
   0xffcc00ff; 0xffcc00cc; 0xffcc0099; 0xffcc0066; 0xffcc0033; 0xffcc0000; 
   0xff99ffff; 0xff99ffcc; 0xff99ff99; 0xff99ff66; 0xff99ff33; 0xff99ff00; 
   0xff99ccff; 0xff99cccc; 0xff99cc99; 0xff99cc66; 0xff99cc33; 0xff99cc00; 
   0xff9999ff; 0xff9999cc; 0xff999999; 0xff999966; 0xff999933; 0xff999900; 
   0xff9966ff; 0xff9966cc; 0xff996699; 0xff996666; 0xff996633; 0xff996600; 
   0xff9933ff; 0xff9933cc; 0xff993399; 0xff993366; 0xff993333; 0xff993300; 
   0xff9900ff; 0xff9900cc; 0xff990099; 0xff990066; 0xff990033; 0xff990000; 
   0xff66ffff; 0xff66ffcc; 0xff66ff99; 0xff66ff66; 0xff66ff33; 0xff66ff00; 
   0xff66ccff; 0xff66cccc; 0xff66cc99; 0xff66cc66; 0xff66cc33; 0xff66cc00; 
   0xff6699ff; 0xff6699cc; 0xff669999; 0xff669966; 0xff669933; 0xff669900; 
   0xff6666ff; 0xff6666cc; 0xff666699; 0xff666666; 0xff666633; 0xff666600; 
   0xff6633ff; 0xff6633cc; 0xff663399; 0xff663366; 0xff663333; 0xff663300; 
   0xff6600ff; 0xff6600cc; 0xff660099; 0xff660066; 0xff660033; 0xff660000; 
   0xff33ffff; 0xff33ffcc; 0xff33ff99; 0xff33ff66; 0xff33ff33; 0xff33ff00; 
   0xff33ccff; 0xff33cccc; 0xff33cc99; 0xff33cc66; 0xff33cc33; 0xff33cc00; 
   0xff3399ff; 0xff3399cc; 0xff339999; 0xff339966; 0xff339933; 0xff339900; 
   0xff3366ff; 0xff3366cc; 0xff336699; 0xff336666; 0xff336633; 0xff336600; 
   0xff3333ff; 0xff3333cc; 0xff333399; 0xff333366; 0xff333333; 0xff333300; 
   0xff3300ff; 0xff3300cc; 0xff330099; 0xff330066; 0xff330033; 0xff330000; 
   0xff00ffff; 0xff00ffcc; 0xff00ff99; 0xff00ff66; 0xff00ff33; 0xff00ff00; 
   0xff00ccff; 0xff00cccc; 0xff00cc99; 0xff00cc66; 0xff00cc33; 0xff00cc00; 
   0xff0099ff; 0xff0099cc; 0xff009999; 0xff009966; 0xff009933; 0xff009900; 
   0xff0066ff; 0xff0066cc; 0xff006699; 0xff006666; 0xff006633; 0xff006600; 
   0xff0033ff; 0xff0033cc; 0xff003399; 0xff003366; 0xff003333; 0xff003300; 
   0xff0000ff; 0xff0000cc; 0xff000099; 0xff000066; 0xff000033; 0xffee0000; 
   0xffdd0000; 0xffbb0000; 0xffaa0000; 0xff880000; 0xff770000; 0xff550000; 
   0xff440000; 0xff220000; 0xff110000; 0xff00ee00; 0xff00dd00; 0xff00bb00; 
   0xff00aa00; 0xff008800; 0xff007700; 0xff005500; 0xff004400; 0xff002200; 
   0xff001100; 0xff0000ee; 0xff0000dd; 0xff0000bb; 0xff0000aa; 0xff000088; 
   0xff000077; 0xff000055; 0xff000044; 0xff000022; 0xff000011; 0xffeeeeee; 
   0xffdddddd; 0xffbbbbbb; 0xffaaaaaa; 0xff888888; 0xff777777; 0xff555555; 
   0xff444444; 0xff222222; 0xff111111; 0xff000000
  ].

Module Voxel.
Record t : Type := mk { x : byte; y : byte; z : byte; color : byte }.
End Voxel.

(** Dense model.  [palette_] is [None] while it holds what the constructor
    left there: the two-argument constructor initialises [size_] and resizes
    [voxels_] but never copies its [palette] argument. *)
Module VoxDenseModel.
Record t : Type := mk {
  size_ : Size;
  voxels_ : list byte;
  palette_ : option Palette
}.

(** [x + (y * size_.x) + (z * size_.x * size_.y)], evaluated in [uint32_t]. *)
Definition index (s : Size) (x y z : Z) : Z :=
  u32 (x + y * Vec3i.x s + z * Vec3i.x s * Vec3i.y s).

(** [explicit VoxDenseModel(const Size& size, const Palette& palette)]:
    [voxels_.resize(size.x * size.y * size.z)], the product in [uint32_t]. *)
Definition new (size : Size) : t :=
  mk size
     (replicate (Z.to_nat (u32 (Vec3i.x size * Vec3i.y size * Vec3i.z size))) x00)
     None.

(** [uint8_t voxel(int x, int y, int z) const]: [voxels_.at(...)]. *)
Definition voxel (d : t) (x y z : Z) : option byte :=
  let i := index (size_ d) x y z in
  if i <? Z.of_nat (length (voxels_ d)) then voxels_ d !! Z.to_nat i else None.

(** [voxel(x, y, z) = c] through [uint8_t& voxel(int x, int y, int z)]. *)
Definition set_voxel (d : t) (x y z : Z) (c : byte) : option t :=
  let i := index (size_ d) x y z in
  if i <? Z.of_nat (length (voxels_ d))
  then Some (mk (size_ d) (<[Z.to_nat i := c]> (voxels_ d)) (palette_ d))
  else None.

(** [model.palette() = p]. *)
Definition set_palette (p : Palette) (d : t) : t :=
  mk (size_ d) (voxels_ d) (Some p).
End VoxDenseModel.

Module VoxSparseModel.
Record t : Type := mk {
  size_ : Size;
  voxels_ : list Voxel.t;
  palette_ : Palette
}.

(** [explicit VoxSparseModel(const Size& size, const Palette& palette =
    kDefaultPalette)]. *)
Definition new (size : Size) : t := mk size [] kDefaultPalette.

(** [voxels().push_back(v)]. *)
Definition push_back (v : Voxel.t) (s : t) : t :=
  mk (size_ s) (voxels_ s ++ [v]) (palette_ s).

(** [voxels().assign(first, last)]. *)
Definition assign (vs : list Voxel.t) (s : t) : t :=
  mk (size_ s) vs (palette_ s).
End VoxSparseModel.

(** ** Hidden-voxel removal ([VoxFile::RemoveHiddenVoxels]) *)

(** [a && b] where either operand may throw: [b] is evaluated only when [a]
    is true. *)
Definition and_then (a b : option bool) : option bool :=
  match a with
  | Some true => b
  | _ => a
  end.

Infix "&&&" := and_then (at level 40, left associativity).

(** A cell read used as a condition: non-zero is true. *)
Definition nonzero (c : option byte) : option bool :=
  match c with
  | Some b => Some (negb (Byte.eqb b x00))
  | None => None
  end.

(** The condition of the [if] in the loop body, operand by operand. *)
Definition hidden (dense : VoxDenseModel.t) (voxel : Voxel.t) : option bool :=
  let x := u8 (Voxel.x voxel) in
  let y := u8 (Voxel.y voxel) in
  let z := u8 (Voxel.z voxel) in
  let size := VoxDenseModel.size_ dense in
  Some (0 <? x) &&& nonzero (VoxDenseModel.voxel dense (x - 1) y z) &&&
  Some (x <? u32 (Vec3i.x size - 1)) &&&
  nonzero (VoxDenseModel.voxel dense (x + 1) y z) &&& Some (0 <? y) &&&
  nonzero (VoxDenseModel.voxel dense x (y - 1) z) &&&
  Some (y <? u32 (Vec3i.y size - 1)) &&&
  nonzero (VoxDenseModel.voxel dense x (y + 1) z) &&& Some (0 <? z) &&&
  nonzero (VoxDenseModel.voxel dense x y (z - 1)) &&&
  Some (z <? u32 (Vec3i.z size - 1)) &&&
  nonzero (VoxDenseModel.voxel dense x y (z + 1)).

(** The loop over [voxels]; [None] when a cell access throws. *)
Fixpoint RemoveHiddenVoxels (dense : VoxDenseModel.t) (sparse : VoxSparseModel.t)
    (voxels : list Voxel.t) : option (VoxDenseModel.t * VoxSparseModel.t) :=
  match voxels with
  | [] => Some (dense, sparse)
  | voxel :: rest =>
      match hidden dense voxel with
      | None => None
      | Some true =>
          match VoxDenseModel.set_voxel dense (u8 (Voxel.x voxel))
                  (u8 (Voxel.y voxel)) (u8 (Voxel.z voxel)) x00 with
          | None => None
          | Some dense' => RemoveHiddenVoxels dense' sparse rest
          end
      | Some false =>
          RemoveHiddenVoxels dense (VoxSparseModel.push_back voxel sparse) rest
      end
  end.

(** ** The input stream ([std::ifstream]) *)

Record ifstream : Type := mk_ifstream {
  contents : list byte;   (* the bytes of the file *)
  gpos : Z;               (* the get position *)
  failbit : bool;         (* [fail()]: set by a short read or a failed open *)
  nstale : nat            (* indeterminate buffer bytes handed out so far *)
}.

(** [ifstream file(path, ios::in | ios::binary)]: [None] is a path that
    cannot be opened, which leaves the stream failed. *)
Definition open (f : option (list byte)) : ifstream :=
  match f with
  | Some bytes => mk_ifstream bytes 0 false 0
  | None => mk_ifstream [] 0 true 0
  end.

(** [file.tellg()]: [pos_type(-1)] on a failed stream. *)
Definition tellg (s : ifstream) : Z :=
  if failbit s then -1 else gpos s.

(** [file.seekg(pos)]: no effect on a failed stream; a good stream takes any
    position, also one past the end of the file. *)
Definition seekg (pos : Z) (s : ifstream) : ifstream :=
  if failbit s then s
  else mk_ifstream (contents s) pos false (nstale s).

(** [file.seekg(off, ios_base::cur)]. *)
Definition seekg_cur (off : Z) (s : ifstream) : ifstream :=
  if failbit s then s
  else mk_ifstream (contents s) (gpos s + off) false (nstale s).

(** The bytes a read of [n] can still extract. *)
Definition available (n : nat) (s : ifstream) : list byte :=
  if failbit s then []
  else if Z.of_nat (length (contents s)) <=? gpos s then []
  else take n (drop (Z.to_nat (gpos s)) (contents s)).

(** Exceptions that leave the loader. *)
Inductive exn : Type :=
  | VoxException (message : String.string)
  | logic_error (message : String.string)
  | out_of_range.

(** Outcome of a computation over a state [S]: normal return, an exception
    together with the state it leaves behind, or fuel exhausted. *)
Inductive result (S : Type) : Type :=
  | Ret (s : S)
  | Throws (e : exn) (s : S)
  | OutOfFuel.

Arguments Ret {S} s.
Arguments Throws {S} e s.
Arguments OutOfFuel {S}.

Definition bind {S : Type} (m : result S) (k : S -> result S) : result S :=
  match m with
  | Ret s => k s
  | Throws e s => Throws e s
  | OutOfFuel => OutOfFuel
  end.

Notation "m >>= k" := (bind m k) (at level 50, left associativity).

(** [string s(chars)] from a NUL-terminated buffer: the bytes before the
    first NUL. *)
Fixpoint c_str (chars : list byte) : list byte :=
  match chars with
  | [] => []
  | c :: rest => if Byte.eqb c x00 then [] else c :: c_str rest
  end.

(** ** The loader object ([class VoxFile]) *)

Module VoxFile.
Record t : Type := mk {
  load_dense_ : bool;
  load_sparse_ : bool;
  remove_hidden_voxels_ : bool;
  cur_size_ : Size;
  dense_models_ : list VoxDenseModel.t;
  sparse_models_ : list VoxSparseModel.t;
  palette_ : Palette
}.

(** [VoxFile(bool load_dense, bool load_sparse, bool remove_hidden_voxels)]. *)
Definition new (load_dense load_sparse remove_hidden_voxels : bool) : t :=
  mk load_dense load_sparse remove_hidden_voxels (Vec3i.mk 0 0 0) [] []
     kDefaultPalette.

Definition set_cur_size (s : Size) (v : t) : t :=
  mk (load_dense_ v) (load_sparse_ v) (remove_hidden_voxels_ v) s
     (dense_models_ v) (sparse_models_ v) (palette_ v).

Definition set_dense_models (ds : list VoxDenseModel.t) (v : t) : t :=
  mk (load_dense_ v) (load_sparse_ v) (remove_hidden_voxels_ v) (cur_size_ v)
     ds (sparse_models_ v) (palette_ v).

Definition set_sparse_models (ss : list VoxSparseModel.t) (v : t) : t :=
  mk (load_dense_ v) (load_sparse_ v) (remove_hidden_voxels_ v) (cur_size_ v)
     (dense_models_ v) ss (palette_ v).

Definition set_palette (p : Palette) (v : t) : t :=
  mk (load_dense_ v) (load_sparse_ v) (remove_hidden_voxels_ v) (cur_size_ v)
     (dense_models_ v) (sparse_models_ v) p.
End VoxFile.

(** The loader together with the stream it is decoding. *)
Record world : Type := mk_world { this : VoxFile.t; file : ifstream }.

Definition with_file (w : world) (s : ifstream) : world :=
  mk_world (this w) s.

Definition with_this (w : world) (v : VoxFile.t) : world :=
  mk_world v (file w).

(** The text [ReadId] puts in its [VoxException]. *)
Definition chunk_id_mismatch (id : String.string) (fid : list byte)
    : String.string :=
  String.append "Chunk ID Mismatch. Expected '"%string
  (String.append id
  (String.append "' but found '"%string
  (String.append (String.string_of_list_byte fid) "'"%string))).

Section Decoder.

(** [stale k] is the value found in the [k]-th buffer byte that is read
    without ever having been written. *)
Variable stale : nat -> byte.

(** ** Primitive readers *)

(** [file.read(buf, n)], returning the [n] bytes of [buf] afterwards: the
    extracted bytes, then whatever the buffer held.  A short read sets the
    fail bit; on a failed stream nothing is extracted. *)
Definition read (n : nat) (s : ifstream) : list byte * ifstream :=
  let got := available n s in
  let missing := (n - length got)%nat in
  (got ++ map stale (seq (nstale s) missing),
   mk_ifstream (contents s) (gpos s + Z.of_nat (length got))
     (failbit s || negb (missing =? 0)%nat) (nstale s + missing)).

(** [le_u32read]: the four bytes, least significant first. *)
Definition le_u32read (s : ifstream) : Z * ifstream :=
  let '(data, s') := read 4 s in
  (u32 (Z.lor (Z.lor (Z.lor (u8 (nth 0 data x00))
                            (Z.shiftl (u8 (nth 1 data x00)) 8))
                     (Z.shiftl (u8 (nth 2 data x00)) 16))
              (Z.shiftl (u8 (nth 3 data x00)) 24)),
   s').

(** [le_i32read]: the same value as [int32_t]. *)
Definition le_i32read (s : ifstream) : Z * ifstream :=
  let '(v, s') := le_u32read s in
  ((if v <? 2 ^ 31 then v else v - 2 ^ 32), s').

(** [read_byte] followed by the conversion to [uint8_t] that every caller
    applies ([read_uint8], or the assignment to a [uint8_t] channel). *)
Definition read_uint8 (s : ifstream) : byte * ifstream :=
  let '(data, s') := read 1 s in (nth 0 data x00, s').

(** ** [VoxFile::ReadId] *)

Definition ReadId (id : String.string) (w : world) : result world :=
  if negb (String.length id =? 4)%nat
  then Throws (logic_error "ID must be 4 characters"%string) w
  else
    let '(fid, s') := read 4 (file w) in
    let w' := with_file w s' in
    let expected := String.list_byte_of_string id in
    let differ (i : nat) :=
      negb (Byte.eqb (nth i fid x00) (nth i expected x00)) in
    if differ 0%nat || differ 1%nat || differ 2%nat || differ 3%nat
    then Throws (VoxException (chunk_id_mismatch id fid)) w'
    else Ret w'.

(** ** [VoxFile::ReadSizeChunk] *)

Definition ReadSizeChunk (w : world) : result world :=
  let '(x, s1) := le_u32read (file w) in
  let '(y, s2) := le_u32read s1 in
  let '(z, s3) := le_u32read s2 in
  Ret (mk_world (VoxFile.set_cur_size (Vec3i.mk x y z) (this w)) s3).

(** ** [VoxFile::ReadRgbaChunk] *)

(** [n] iterations of the loop body starting at index [i]. *)
Fixpoint rgba_loop (n i : nat) (palette : Palette) (s : ifstream)
    : Palette * ifstream :=
  match n with
  | O => (palette, s)
  | S n' =>
      let '(r, s1) := read_uint8 s in
      let '(g, s2) := read_uint8 s1 in
      let '(b, s3) := read_uint8 s2 in
      let '(a, s4) := read_uint8 s3 in
      rgba_loop n' (S i) (<[i := Color.mk r g b a]> palette) s4
  end.

Definition ReadRgbaChunk (w : world) : result world :=
  let '(palette, s) := rgba_loop 255 1 (VoxFile.palette_ (this w)) (file w) in
  Ret (mk_world (VoxFile.set_palette palette (this w)) s).

(** ** [VoxFile::ReadXyziChunk] *)

(** One voxel record: [Voxel voxel{read_uint8(file), ...}]. *)
Definition read_voxel (s : ifstream) : Voxel.t * ifstream :=
  let '(x, s1) := read_uint8 s in
  let '(y, s2) := read_uint8 s1 in
  let '(z, s3) := read_uint8 s2 in
  let '(color, s4) := read_uint8 s3 in
  (Voxel.mk x y z color, s4).

(** [n] iterations of the record loop: read, [voxels.push_back], write the
    dense cell.  The first component is [None] when the write throws. *)
Fixpoint xyzi_loop (n : nat) (s : ifstream) (dense : VoxDenseModel.t)
    (voxels : list Voxel.t)
    : option (VoxDenseModel.t * list Voxel.t) * ifstream :=
  match n with
  | O => (Some (dense, voxels), s)
  | S n' =>
      let '(voxel, s') := read_voxel s in
      match VoxDenseModel.set_voxel dense (u8 (Voxel.x voxel))
              (u8 (Voxel.y voxel)) (u8 (Voxel.z voxel)) (Voxel.color voxel) with
      | None => (None, s')
      | Some dense' => xyzi_loop n' s' dense' (voxels ++ [voxel])
      end
  end.

(** The models pushed at the end of the chunk. *)
Definition push_models (dense : VoxDenseModel.t) (sparse : VoxSparseModel.t)
    (v : VoxFile.t) : VoxFile.t :=
  let v1 :=
    if VoxFile.load_dense_ v
    then VoxFile.set_dense_models (VoxFile.dense_models_ v ++ [dense]) v
    else v in
  if VoxFile.load_sparse_ v1
  then VoxFile.set_sparse_models (VoxFile.sparse_models_ v1 ++ [sparse]) v1
  else v1.

Definition ReadXyziChunk (w : world) : result world :=
  let dense := VoxDenseModel.new (VoxFile.cur_size_ (this w)) in
  let sparse := VoxSparseModel.new (VoxFile.cur_size_ (this w)) in
  let '(n_voxels, s1) := le_u32read (file w) in
  match xyzi_loop (Z.to_nat n_voxels) s1 dense [] with
  | (None, s2) => Throws out_of_range (with_file w s2)
  | (Some (dense1, voxels), s2) =>
      let culled :=
        if VoxFile.remove_hidden_voxels_ (this w)
        then RemoveHiddenVoxels dense1 sparse voxels
        else Some (dense1, VoxSparseModel.assign voxels sparse) in
      match culled with
      | None => Throws out_of_range (with_file w s2)
      | Some (dense2, sparse2) =>
          Ret (mk_world (push_models dense2 sparse2 (this w)) s2)
      end
  end.

(** ** [VoxFile::ReadChunk] and [VoxFile::ReadMainChunk] *)

(** [ReadChunk] and the [while] loop of [ReadMainChunk], by recursion on
    fuel: one unit per call of [ReadChunk] and per loop test. *)
Fixpoint ReadChunk (fuel : nat) (w : world) : result world :=
  match fuel with
  | O => OutOfFuel
  | S fuel' =>
      let '(chunk_id_chars, s1) := read 4 (file w) in
      let chunk_id := String.string_of_list_byte (c_str chunk_id_chars) in
      let '(contents_size, s2) := le_u32read s1 in
      let '(children_size, s3) := le_u32read s2 in
      let contents_start := u32 (tellg s3) in
      let w3 := with_file w s3 in
      (if String.eqb chunk_id "MAIN"%string then
         (* ReadMainChunk *)
         let s4 := seekg_cur contents_size s3 in
         let end_pos := u32 (u32 (tellg s4) + children_size) in
         ReadMainLoop fuel' end_pos (with_file w s4)
       else if String.eqb chunk_id "SIZE"%string then ReadSizeChunk w3
       else if String.eqb chunk_id "XYZI"%string then ReadXyziChunk w3
       else if String.eqb chunk_id "RGBA"%string then ReadRgbaChunk w3
       else Ret w3) >>= fun w' =>
      let next_chunk_pos := u32 (contents_start + contents_size + children_size) in
      Ret (with_file w' (seekg next_chunk_pos (file w')))
  end
with ReadMainLoop (fuel : nat) (end_pos : Z) (w : world) : result world :=
  match fuel with
  | O => OutOfFuel
  | S fuel' =>
      if tellg (file w) <? end_pos
      then ReadChunk fuel' w >>= ReadMainLoop fuel' end_pos
      else Ret w
  end.

(** ** [VoxFile::Load] *)

Definition Load (fuel : nat) (v : VoxFile.t) (path : option (list byte))
    : result VoxFile.t :=
  let w0 := mk_world (VoxFile.set_dense_models [] v) (open path) in
  let outcome :=
    ReadId "VOX "%string w0 >>= fun w1 =>
    let '(version, s) := le_i32read (file w1) in
    ReadChunk fuel (with_file w1 s) in
  match outcome with
  | Ret w =>
      Ret (VoxFile.set_dense_models
             (map (VoxDenseModel.set_palette (VoxFile.palette_ (this w)))
                  (VoxFile.dense_models_ (this w)))
             (this w))
  | Throws e w => Throws e (this w)
  | OutOfFuel => OutOfFuel
  end.

End Decoder.

(** ** Vocabulary of the statements *)

(** The flat cell a voxel record addresses in a grid of size [size]. *)
Definition cell (size : Size) (v : Voxel.t) : Z :=
  VoxDenseModel.index size (u8 (Voxel.x v)) (u8 (Voxel.y v)) (u8 (Voxel.z v)).

(** Number of cells of a grid of size [size]: the argument of [resize]. *)
Definition cells (size : Size) : Z :=
  u32 (Vec3i.x size * Vec3i.y size * Vec3i.z size).

(** The cell of a model read at a record's coordinates. *)
Definition voxel_at (d : VoxDenseModel.t) (v : Voxel.t) : option byte :=
  VoxDenseModel.voxel d (u8 (Voxel.x v)) (u8 (Voxel.y v)) (u8 (Voxel.z v)).

(** A grid with the cell of [v] cleared, and with the cells of a list of
    records cleared. *)
Definition zero_cell (d : VoxDenseModel.t) (v : Voxel.t) : VoxDenseModel.t :=
  VoxDenseModel.mk (VoxDenseModel.size_ d)
    (<[Z.to_nat (cell (VoxDenseModel.size_ d) v) := x00]> (VoxDenseModel.voxels_ d))
    (VoxDenseModel.palette_ d).

Definition zero_cells (vs : list Voxel.t) (d : VoxDenseModel.t)
    : VoxDenseModel.t :=
  fold_left zero_cell vs d.

(** The records of [vs] whose flag in [flags] is [b], in order. *)
Fixpoint pick (b : bool) (flags : list bool) (vs : list Voxel.t)
    : list Voxel.t :=
  match flags, vs with
  | f :: flags', v :: vs' =>
      if Bool.eqb f b then v :: pick b flags' vs' else pick b flags' vs'
  | _, _ => []
  end.

(** Writing one entry's colour at its cell of a flat grid (nothing happens
    when the grid has no such cell). *)
Definition paint (size : Size) (grid : list byte) (v : Voxel.t) : list byte :=
  <[Z.to_nat (cell size v) := Voxel.color v]> grid.

(** Replaying a voxel list into an all-zero grid of size [size]: each entry's
    colour is written at its cell, in order. *)
Definition replay (size : Size) (vs : list Voxel.t) : list byte :=
  fold_left (paint size) vs (replicate (Z.to_nat (cells size)) x00).

(** Two records address the same flat cell / carry the same coordinates. *)
Definition same_cell (size : Size) (v u : Voxel.t) : bool :=
  cell size v =? cell size u.

Definition same_coord (v u : Voxel.t) : bool :=
  Byte.eqb (Voxel.x v) (Voxel.x u) && Byte.eqb (Voxel.y v) (Voxel.y u) &&
  Byte.eqb (Voxel.z v) (Voxel.z u).

(** Colour of the last record of [vs] that satisfies [p]. *)
Definition last_color (p : Voxel.t -> bool) (vs : list Voxel.t) : option byte :=
  option_map Voxel.color (last (List.filter p vs)).

(** The coordinates of a record lie inside [size]. *)
Definition in_size (size : Size) (v : Voxel.t) : Prop :=
  u8 (Voxel.x v) < Vec3i.x size /\ u8 (Voxel.y v) < Vec3i.y size /\
  u8 (Voxel.z v) < Vec3i.z size.

(** Strictly interior on the three axes, with the six face neighbours
    non-empty in [d]: the classification of the culler, as a proposition. *)
Definition enclosed (d : VoxDenseModel.t) (v : Voxel.t) : Prop :=
  let x := u8 (Voxel.x v) in
  let y := u8 (Voxel.y v) in
  let z := u8 (Voxel.z v) in
  let size := VoxDenseModel.size_ d in
  let filled (c : option byte) := exists b, c = Some b /\ b <> x00 in
  (0 < x < u32 (Vec3i.x size - 1) /\ 0 < y < u32 (Vec3i.y size - 1) /\
   0 < z < u32 (Vec3i.z size - 1)) /\
  filled (VoxDenseModel.voxel d (x - 1) y z) /\
  filled (VoxDenseModel.voxel d (x + 1) y z) /\
  filled (VoxDenseModel.voxel d x (y - 1) z) /\
  filled (VoxDenseModel.voxel d x (y + 1) z) /\
  filled (VoxDenseModel.voxel d x y (z - 1)) /\
  filled (VoxDenseModel.voxel d x y (z + 1)).

(** Writing the colours of a list of records into a model, in order, the way
    the record loop does; [None] when a write throws. *)
Fixpoint write_voxels (d : VoxDenseModel.t) (vs : list Voxel.t)
    : option VoxDenseModel.t :=
  match vs with
  | [] => Some d
  | v :: vs' =>
      match VoxDenseModel.set_voxel d (u8 (Voxel.x v)) (u8 (Voxel.y v))
              (u8 (Voxel.z v)) (Voxel.color v) with
      | None => None
      | Some d' => write_voxels d' vs'
      end
  end.

(** The dense model an XYZI chunk decodes from its records, before any
    culling: the replayed grid, the palette still unassigned. *)
Definition decoded (size : Size) (vs : list Voxel.t) : VoxDenseModel.t :=
  VoxDenseModel.mk size (replay size vs) None.

Section Records.

Variable stale : nat -> byte.

(** The [n] voxel records found at [s], as [read_voxel] decodes them. *)
Fixpoint read_voxels (n : nat) (s : ifstream) : list Voxel.t * ifstream :=
  match n with
  | O => ([], s)
  | S n' =>
      let '(v, s1) := read_voxel stale s in
      let '(vs, s2) := read_voxels n' s1 in
      (v :: vs, s2)
  end.

(** The records of the XYZI chunk whose contents start at the cursor. *)
Definition records (s : ifstream) : list Voxel.t :=
  let '(n_voxels, s1) := le_u32read stale s in
  fst (read_voxels (Z.to_nat n_voxels) s1).

(** The three fields of a chunk header, and the stream after them. *)
Definition read_header (s : ifstream) : list byte * Z * Z * ifstream :=
  let '(chunk_id_chars, s1) := read stale 4 s in
  let '(contents_size, s2) := le_u32read stale s1 in
  let '(children_size, s3) := le_u32read stale s2 in
  (chunk_id_chars, contents_size, children_size, s3).

(** The dispatch of [ReadChunk] on the chunk id, after the header. *)
Definition handle_chunk (fuel : nat) (chunk_id_chars : list byte)
    (contents_size children_size : Z) (w3 : world) : result world :=
  let chunk_id := String.string_of_list_byte (c_str chunk_id_chars) in
  if String.eqb chunk_id "MAIN"%string then
    let s4 := seekg_cur contents_size (file w3) in
    ReadMainLoop stale fuel (u32 (u32 (tellg s4) + children_size))
      (with_file w3 s4)
  else if String.eqb chunk_id "SIZE"%string then ReadSizeChunk stale w3
  else if String.eqb chunk_id "XYZI"%string then ReadXyziChunk stale w3
  else if String.eqb chunk_id "RGBA"%string then ReadRgbaChunk stale w3
  else Ret w3.

End Records.

(** ** Relations between the world before and after a step *)

(** What an outcome says about a relation [R] between the world before and
    the world it leaves: a normal return and an exception both leave a world
    related to the initial one, and the only exception is [out_of_range]. *)
Definition outcome_rel (R : world -> world -> Prop) (w : world)
    (r : result world) : Prop :=
  match r with
  | Ret w' => R w w'
  | Throws e w' => R w w' /\ e = out_of_range
  | OutOfFuel => True
  end.

(** The fail bit of a stream is never cleared. *)
Definition sticky (w w' : world) : Prop :=
  failbit (file w) = true -> failbit (file w') = true.

(** A dense and a sparse model pushed by the same XYZI chunk: same size and,
    without culling, the dense grid is the replay of the sparse list. *)
Definition paired (cull : bool) (d : VoxDenseModel.t) (s : VoxSparseModel.t)
    : Prop :=
  VoxDenseModel.size_ d = VoxSparseModel.size_ s /\
  (cull = false ->
   VoxDenseModel.voxels_ d =
     replay (VoxSparseModel.size_ s) (VoxSparseModel.voxels_ s)).

(** The loader [v'] is [v] with models appended at the end of its
    collections, the configuration untouched. *)
Definition extends (v v' : VoxFile.t) : Prop :=
  VoxFile.load_dense_ v' = VoxFile.load_dense_ v /\
  VoxFile.load_sparse_ v' = VoxFile.load_sparse_ v /\
  VoxFile.remove_hidden_voxels_ v' = VoxFile.remove_hidden_voxels_ v /\
  exists (ds : list VoxDenseModel.t) (ss : list VoxSparseModel.t),
    VoxFile.dense_models_ v' = VoxFile.dense_models_ v ++ ds /\
    VoxFile.sparse_models_ v' = VoxFile.sparse_models_ v ++ ss /\
    Forall (fun d => VoxDenseModel.palette_ d = None) ds /\
    (VoxFile.load_dense_ v = true -> VoxFile.load_sparse_ v = true ->
     Forall2 (paired (VoxFile.remove_hidden_voxels_ v)) ds ss).

(** ** Files for the examples *)

Definition le32 (n : Z) : list byte :=
  [to_u8 n; to_u8 (n / 2 ^ 8); to_u8 (n / 2 ^ 16); to_u8 (n / 2 ^ 24)].

Definition chunk (id : String.string) (body children : list byte) : list byte :=
  String.list_byte_of_string id ++ le32 (Z.of_nat (length body)) ++
  le32 (Z.of_nat (length children)) ++ body ++ children.

(** Signature and version 150. *)
Definition vox_header : list byte :=
  String.list_byte_of_string "VOX "%string ++ le32 150.

Definition main_chunk (children : list byte) : list byte :=
  chunk "MAIN"%string [] children.

Definition size_chunk (x y z : Z) : list byte :=
  chunk "SIZE"%string (le32 x ++ le32 y ++ le32 z) [].

Definition voxel_of (v : Z * Z * Z * Z) : Voxel.t :=
  let '(x, y, z, c) := v in Voxel.mk (to_u8 x) (to_u8 y) (to_u8 z) (to_u8 c).

Definition record (v : Z * Z * Z * Z) : list byte :=
  let v := voxel_of v in [Voxel.x v; Voxel.y v; Voxel.z v; Voxel.color v].

(** Contents of an XYZI chunk: the count, then the records. *)
Definition xyzi_body (vs : list (Z * Z * Z * Z)) : list byte :=
  le32 (Z.of_nat (length vs)) ++ flat_map record vs.

Definition xyzi_chunk (vs : list (Z * Z * Z * Z)) : list byte :=
  chunk "XYZI"%string (xyzi_body vs) [].

(** An RGBA chunk of 256 grey levels: record [i] is [(i, i, i, 255)]. *)
Definition rgba_chunk : list byte :=
  chunk "RGBA"%string
    (flat_map (fun i => [to_u8 (Z.of_nat i); to_u8 (Z.of_nat i);
                         to_u8 (Z.of_nat i); xff]) (seq 0 256)) [].

(** A full [nx] x [ny] x [nz] box of colour [c], x varying fastest. *)
Definition box (nx ny nz : nat) (c : Z) : list (Z * Z * Z * Z) :=
  flat_map (fun z =>
    flat_map (fun y =>
      map (fun x => (Z.of_nat x, Z.of_nat y, Z.of_nat z, c)) (seq 0 nx))
      (seq 0 ny))
    (seq 0 nz).

(** An oracle for the buffers: every unwritten byte reads as zero. *)
Definition zeros : nat -> byte := fun _ => x00.

(** The loader a [Load] returned, and the loader it left behind when it
    threw. *)
Definition returned (r : result VoxFile.t) : option VoxFile.t :=
  match r with
  | Ret v => Some v
  | _ => None
  end.

Definition thrown (r : result VoxFile.t) : option (exn * VoxFile.t) :=
  match r with
  | Throws e v => Some (e, v)
  | _ => None
  end.

(** One model: a single voxel of colour 5 in a 1 x 1 x 1 grid. *)
Definition file_one_voxel : list byte :=
  vox_header ++ main_chunk (size_chunk 1 1 1 ++ xyzi_chunk [(0, 0, 0, 5)]).

(** A full 4 x 3 x 3 box of colour 7: two interior voxels, (1,1,1) and
    (2,1,1). *)
Definition file_box_4x3x3 : list byte :=
  vox_header ++ main_chunk (size_chunk 4 3 3 ++ xyzi_chunk (box 4 3 3 7)).

(** A 2 x 2 x 2 model whose only record has x = 2. *)
Definition file_x_outside : list byte :=
  vox_header ++ main_chunk (size_chunk 2 2 2 ++ xyzi_chunk [(2, 0, 0, 5)]).

(** A SIZE chunk at the top level that declares twelve bytes of contents and
    is cut after four. *)
Definition file_cut_size : list byte :=
  vox_header ++ String.list_byte_of_string "SIZE"%string ++ le32 12 ++ le32 0 ++
  le32 3.


(** A 2 x 2 x 2 model: (0,1,0) twice, then (2,0,0), which addresses the same
    flat cell. *)
Definition file_shared_cell : list byte :=
  vox_header ++
  main_chunk (size_chunk 2 2 2 ++
              xyzi_chunk [(0, 1, 0, 5); (0, 1, 0, 6); (2, 0, 0, 9)]).

(** One model followed by a palette. *)
Definition file_with_palette : list byte :=
  vox_header ++
  main_chunk (size_chunk 1 1 1 ++ xyzi_chunk [(0, 0, 0, 5)] ++ rgba_chunk).

(** One model whose only record has colour index 0. *)
Definition file_empty_voxel : list byte :=
  vox_header ++ main_chunk (size_chunk 1 1 1 ++ xyzi_chunk [(0, 0, 0, 0)]).

(** A world standing at the contents of an XYZI chunk with the given
    records, the pending size set. *)
Definition at_xyzi (v : VoxFile.t) (size : Size) (vs : list (Z * Z * Z * Z))
    : world :=
  mk_world (VoxFile.set_cur_size size v) (open (Some (xyzi_body vs))).

(** Closes a goal between closed terms by evaluation. *)
Ltac by_computation := vm_compute; reflexivity.

(** Instantiates the next existential with the loader a closed [Load]
    returns or leaves behind. *)
Ltac exists_loader r :=
  let x := eval vm_compute in r in
  lazymatch x with
  | Ret ?v => exists v
  | Throws _ ?v => exists v
  end.

(** Evaluation that keeps the integer decoding folded, for runs in which
    stale bytes are decoded. *)
Ltac run_folded :=
  with_strategy opaque [u32 Z.lor Z.shiftl u8 kDefaultPalette] lazy.
(** ** Vocabulary of the further properties *)

(** The grid of a dense model has one byte per cell of its size. *)
Definition well_sized (d : VoxDenseModel.t) : Prop :=
  Z.of_nat (length (VoxDenseModel.voxels_ d)) = cells (VoxDenseModel.size_ d).

(** The loader [v'] is [v] after some chunks: the configuration is the same,
    the palette has kept its length and its entry 0, and the collections
    have grown at the end, by well-sized dense models if dense models are
    requested and by sparse models with the default palette if sparse models
    are requested. *)
Definition advances (v v' : VoxFile.t) : Prop :=
  VoxFile.load_dense_ v' = VoxFile.load_dense_ v /\
  VoxFile.load_sparse_ v' = VoxFile.load_sparse_ v /\
  VoxFile.remove_hidden_voxels_ v' = VoxFile.remove_hidden_voxels_ v /\
  length (VoxFile.palette_ v') = length (VoxFile.palette_ v) /\
  VoxFile.palette_ v' !! 0%nat = VoxFile.palette_ v !! 0%nat /\
  exists (ds : list VoxDenseModel.t) (ss : list VoxSparseModel.t),
    VoxFile.dense_models_ v' = VoxFile.dense_models_ v ++ ds /\
    VoxFile.sparse_models_ v' = VoxFile.sparse_models_ v ++ ss /\
    (VoxFile.load_dense_ v = false -> ds = []) /\
    (VoxFile.load_sparse_ v = false -> ss = []) /\
    Forall well_sized ds /\
    Forall (fun s => VoxSparseModel.palette_ s = kDefaultPalette) ss.

(** The loader an outcome of [Load] leaves, returned or thrown. *)
Definition left_by (r : result VoxFile.t) : option VoxFile.t :=
  match r with
  | Ret v => Some v
  | Throws _ v => Some v
  | OutOfFuel => None
  end.

(** Strictly inside the grid on the three axes, as the culler tests it. *)
Definition interior (size : Size) (v : Voxel.t) : Prop :=
  0 < u8 (Voxel.x v) < u32 (Vec3i.x size - 1) /\
  0 < u8 (Voxel.y v) < u32 (Vec3i.y size - 1) /\
  0 < u8 (Voxel.z v) < u32 (Vec3i.z size - 1).

(** The colour made of the four bytes of [bytes] from offset [k]. *)
Definition color_at (bytes : list byte) (k : nat) : Color.t :=
  Color.mk (nth k bytes x00) (nth (k + 1) bytes x00) (nth (k + 2) bytes x00)
    (nth (k + 3) bytes x00).

(** The chunk id is none of the four the reader handles. *)
Definition unhandled (chunk_id_chars : list byte) : Prop :=
  let chunk_id := String.string_of_list_byte (c_str chunk_id_chars) in
  String.eqb chunk_id "MAIN"%string = false /\
  String.eqb chunk_id "SIZE"%string = false /\
  String.eqb chunk_id "XYZI"%string = false /\
  String.eqb chunk_id "RGBA"%string = false.

(** ** The console demo of the README *)

(** [rgbaToChar]: the four shades of the table are the bytes 0xB0, 0xB1,
    0xB2 and 0xDB of the single-byte code page the demo is written in;
    [None] is the [std::out_of_range] of [intensity_char.at]. *)
Definition n_intensity_levels : Z := 4.

Definition intensity_char : list byte := [xb0; xb1; xb2; xdb].

Definition rgbaToChar (color : Color.t) : option byte :=
  let intensity :=
    (77 * u8 (Color.r color) + 151 * u8 (Color.g color) +
     28 * u8 (Color.b color)) / (256 * 255 / (n_intensity_levels - 1)) + 1 in
  intensity_char !! Z.to_nat intensity.

(** The voxel record made of the four bytes of [bytes] from offset [k]. *)
Definition record_at (bytes : list byte) (k : nat) : Voxel.t :=
  Voxel.mk (nth k bytes x00) (nth (k + 1) bytes x00) (nth (k + 2) bytes x00)
    (nth (k + 3) bytes x00).

(** ** Further inputs for the examples *)

(** The header of a chunk with an id the reader does not handle and a
    contents size of 2^32 - 12. *)
Definition chunk_wrapping : list byte :=
  String.list_byte_of_string "PACK"%string ++ le32 (2 ^ 32 - 12) ++ le32 0.

(** The contents of a palette chunk whose 255 records are all (7, 8, 9, 10). *)
Definition rgba_body : list byte :=
  flat_map (fun _ => [x07; x08; x09; x0a]) (seq 0 255).

(** ** A file with one model *)

(** The bytes of a list of voxel records. *)
Definition encode_voxels (vs : list Voxel.t) : list byte :=
  flat_map (fun v => [Voxel.x v; Voxel.y v; Voxel.z v; Voxel.color v]) vs.

(** Signature, version 150, and a MAIN chunk whose children are a SIZE chunk
    and an XYZI chunk. *)
Definition vox_file (x y z : Z) (vs : list Voxel.t) : list byte :=
  vox_header ++
  main_chunk (size_chunk x y z ++
              chunk "XYZI"%string
                (le32 (Z.of_nat (length vs)) ++ encode_voxels vs) []).

(** The stream is good, its cursor is at [p], and the bytes from the cursor
    on are [rest]. *)
Definition standing (p : Z) (rest : list byte) (s : ifstream) : Prop :=
  failbit s = false /\ gpos s = p /\
  0 <= p <= Z.of_nat (length (contents s)) /\
  drop (Z.to_nat p) (contents s) = rest.

(** A good stream with the cursor moved [k] bytes on. *)
Definition advance (k : Z) (s : ifstream) : ifstream :=
  mk_ifstream (contents s) (gpos s + k) false (nstale s).

(** The one-voxel file without its last byte, the colour of its record. *)
Definition file_cut_in_main : list byte := removelast file_one_voxel.

(** * Properties *)

(** The readers and cell accessors are kept folded by [simpl]. *)
Arguments read : simpl never.
Arguments le_u32read : simpl never.
Arguments read_uint8 : simpl never.
Arguments read_voxel : simpl never.
Arguments VoxDenseModel.set_voxel : simpl never.
Arguments VoxDenseModel.voxel : simpl never.
Arguments VoxDenseModel.index : simpl never.
Arguments u32 : simpl never.

(** ** Machine integers and grid cells *)

Lemma u8_range (b : byte) : 0 <= u8 b < 256.
Proof.
  unfold u8. pose proof (Byte.to_N_bounded b). lia.
Qed.

Lemma u32_range (n : Z) : 0 <= u32 n < 2 ^ 32.
Proof. unfold u32. apply Z.mod_pos_bound. lia. Qed.

Lemma u32_small (n : Z) : 0 <= n < 2 ^ 32 -> u32 n = n.
Proof. intros H. unfold u32. apply Z.mod_small. exact H. Qed.

Lemma index_nonneg (s : Size) (x y z : Z) : 0 <= VoxDenseModel.index s x y z.
Proof. unfold VoxDenseModel.index. apply u32_range. Qed.

Lemma byte_eqb_refl (b : byte) : Byte.eqb b b = true.
Proof. apply Byte.byte_dec_lb. reflexivity. Qed.

Lemma byte_eqb_spec (b c : byte) : reflect (b = c) (Byte.eqb b c).
Proof.
  destruct (Byte.eqb b c) eqn:E; constructor.
  - apply Byte.byte_dec_bl. exact E.
  - apply Byte.eqb_false. exact E.
Qed.

(** [voxel] and [set_voxel] in terms of the flat list. *)
Lemma voxel_Some (d : VoxDenseModel.t) (x y z : Z) (b : byte) :
  VoxDenseModel.voxel d x y z = Some b <->
  VoxDenseModel.voxels_ d !! Z.to_nat (VoxDenseModel.index (VoxDenseModel.size_ d) x y z) = Some b.
Proof.
  unfold VoxDenseModel.voxel.
  destruct (Z.ltb_spec (VoxDenseModel.index (VoxDenseModel.size_ d) x y z)
              (Z.of_nat (length (VoxDenseModel.voxels_ d)))) as [Hlt | Hge].
  - reflexivity.
  - split; [discriminate |].
    intros H. apply lookup_lt_Some in H. lia.
Qed.

Lemma set_voxel_Some (d d' : VoxDenseModel.t) (x y z : Z) (c : byte) :
  VoxDenseModel.set_voxel d x y z c = Some d' <->
  VoxDenseModel.index (VoxDenseModel.size_ d) x y z < Z.of_nat (length (VoxDenseModel.voxels_ d)) /\
  d' = VoxDenseModel.mk (VoxDenseModel.size_ d)
         (<[Z.to_nat (VoxDenseModel.index (VoxDenseModel.size_ d) x y z) := c]> (VoxDenseModel.voxels_ d))
         (VoxDenseModel.palette_ d).
Proof.
  unfold VoxDenseModel.set_voxel.
  destruct (Z.ltb_spec (VoxDenseModel.index (VoxDenseModel.size_ d) x y z)
              (Z.of_nat (length (VoxDenseModel.voxels_ d)))) as [Hlt | Hge].
  - split.
    + intros [= <-]. split; [exact Hlt | reflexivity].
    + intros [_ ->]. reflexivity.
  - split; [discriminate | intros [H _]; lia].
Qed.

Lemma set_voxel_None (d : VoxDenseModel.t) (x y z : Z) (c : byte) :
  VoxDenseModel.set_voxel d x y z c = None <->
  Z.of_nat (length (VoxDenseModel.voxels_ d)) <= VoxDenseModel.index (VoxDenseModel.size_ d) x y z.
Proof.
  unfold VoxDenseModel.set_voxel.
  destruct (Z.ltb_spec (VoxDenseModel.index (VoxDenseModel.size_ d) x y z)
              (Z.of_nat (length (VoxDenseModel.voxels_ d)))) as [Hlt | Hge].
  - split; [discriminate | lia].
  - split; [intros _; exact Hge | reflexivity].
Qed.

(** ** The culler's condition *)

Lemma and_then_true (a b : option bool) :
  a &&& b = Some true <-> a = Some true /\ b = Some true.
Proof.
  destruct a as [[|]|]; simpl; intuition (auto; discriminate).
Qed.

Lemma nonzero_true (c : option byte) :
  nonzero c = Some true <-> exists b, c = Some b /\ b <> x00.
Proof.
  destruct c as [b|]; simpl.
  - destruct (byte_eqb_spec b x00) as [Heq | Hne]; simpl; split.
    + discriminate.
    + intros (b' & Hb' & Hne). congruence.
    + intros _. exists b. split; [reflexivity | exact Hne].
    + reflexivity.
  - split; [discriminate | intros (b & H & _); discriminate].
Qed.

Lemma ltb_Some_true (a b : Z) : Some (a <? b) = Some true <-> a < b.
Proof.
  destruct (Z.ltb_spec a b); split; intros; try reflexivity; try lia; discriminate.
Qed.

Lemma hidden_true (d : VoxDenseModel.t) (v : Voxel.t) :
  hidden d v = Some true <-> enclosed d v.
Proof.
  unfold hidden, enclosed.
  rewrite !and_then_true, !nonzero_true, !ltb_Some_true. tauto.
Qed.

Lemma hidden_false (d : VoxDenseModel.t) (v : Voxel.t) :
  hidden d v = Some false -> ~ enclosed d v.
Proof.
  intros H He. apply hidden_true in He. congruence.
Qed.

(** ** Clearing cells *)

Lemma zero_cell_size (d : VoxDenseModel.t) (v : Voxel.t) :
  VoxDenseModel.size_ (zero_cell d v) = VoxDenseModel.size_ d.
Proof. reflexivity. Qed.

Lemma zero_cells_size (vs : list Voxel.t) (d : VoxDenseModel.t) :
  VoxDenseModel.size_ (zero_cells vs d) = VoxDenseModel.size_ d.
Proof.
  revert d. induction vs as [|v vs IH]; intros d; simpl; [reflexivity |].
  unfold zero_cells in *. simpl. rewrite IH. apply zero_cell_size.
Qed.

Lemma set_voxel_zero (d d' : VoxDenseModel.t) (v : Voxel.t) :
  VoxDenseModel.set_voxel d (u8 (Voxel.x v)) (u8 (Voxel.y v)) (u8 (Voxel.z v)) x00 = Some d' ->
  d' = zero_cell d v /\ voxel_at d' v = Some x00.
Proof.
  intros H. apply set_voxel_Some in H. destruct H as [Hlt ->].
  split; [reflexivity |].
  unfold voxel_at. apply voxel_Some. simpl.
  pose proof (index_nonneg (VoxDenseModel.size_ d) (u8 (Voxel.x v)) (u8 (Voxel.y v)) (u8 (Voxel.z v))).
  apply list_lookup_insert_eq. lia.
Qed.

(** A cell that is non-empty after clearing was non-empty before, with the
    same colour. *)
Lemma voxel_zero_cell (d : VoxDenseModel.t) (u : Voxel.t) (x y z : Z) (b : byte) :
  VoxDenseModel.voxel (zero_cell d u) x y z = Some b -> b <> x00 ->
  VoxDenseModel.voxel d x y z = Some b.
Proof.
  intros H Hb. apply voxel_Some in H. apply voxel_Some. simpl in H.
  apply list_lookup_insert_Some in H.
  destruct H as [(_ & Heq & _) | (_ & H)]; [congruence | exact H].
Qed.

Lemma enclosed_zero_cell (d : VoxDenseModel.t) (u v : Voxel.t) :
  enclosed (zero_cell d u) v -> enclosed d v.
Proof.
  unfold enclosed. rewrite zero_cell_size.
  intros (Hin & H1 & H2 & H3 & H4 & H5 & H6).
  repeat split; try apply Hin;
    match goal with
    | H : exists b, VoxDenseModel.voxel (zero_cell d u) ?x ?y ?z = Some b /\ _
      |- exists b, VoxDenseModel.voxel d ?x ?y ?z = Some b /\ _ =>
        destruct H as (b & Hb & Hne); exists b; split;
        [apply (voxel_zero_cell d u); assumption | exact Hne]
    end.
Qed.

Lemma enclosed_zero_cells (vs : list Voxel.t) (d : VoxDenseModel.t) (v : Voxel.t) :
  enclosed (zero_cells vs d) v -> enclosed d v.
Proof.
  revert d. induction vs as [|u vs IH]; intros d H; [exact H |].
  apply (enclosed_zero_cell d u). apply IH. exact H.
Qed.

(** A cleared cell stays cleared. *)
Lemma voxel_at_zero_cell (d : VoxDenseModel.t) (u v : Voxel.t) :
  voxel_at d v = Some x00 -> voxel_at (zero_cell d u) v = Some x00.
Proof.
  unfold voxel_at. intros H. apply voxel_Some in H. apply voxel_Some. simpl.
  apply list_lookup_insert_Some.
  destruct (decide (Z.to_nat (cell (VoxDenseModel.size_ d) u) =
                    Z.to_nat (VoxDenseModel.index (VoxDenseModel.size_ d)
                      (u8 (Voxel.x v)) (u8 (Voxel.y v)) (u8 (Voxel.z v))))) as [Heq | Hne].
  - left. split; [exact Heq |]. split; [reflexivity |].
    apply lookup_lt_Some in H. exact H.
  - right. split; [exact Hne | exact H].
Qed.

Lemma voxel_at_zero_cells (vs : list Voxel.t) (d : VoxDenseModel.t) (v : Voxel.t) :
  voxel_at d v = Some x00 -> voxel_at (zero_cells vs d) v = Some x00.
Proof.
  revert d. induction vs as [|u vs IH]; intros d H; [exact H |].
  apply IH. apply voxel_at_zero_cell. exact H.
Qed.

Lemma pick_length (b : bool) (flags : list bool) (vs : list Voxel.t) :
  (length (pick b flags vs) <= length vs)%nat.
Proof.
  revert vs. induction flags as [|f flags IH]; intros [|v vs]; simpl; try lia.
  specialize (IH vs). destruct (Bool.eqb f b); simpl; lia.
Qed.

(** ** The culling loop *)

(** When the loop returns there is a flag per voxel saying whether it was
    omitted: a voxel is omitted exactly when it is enclosed in the grid as it
    stands when the voxel is examined (the initial grid with the cells of the
    voxels omitted before it cleared), and then it is enclosed in the initial
    grid too; the sparse list receives the voxels not omitted, in order; the
    final grid is the initial one with the cells of the omitted voxels
    cleared. *)
Lemma RemoveHiddenVoxels_spec (dense dense' : VoxDenseModel.t)
    (sparse sparse' : VoxSparseModel.t) (voxels : list Voxel.t) :
  RemoveHiddenVoxels dense sparse voxels = Some (dense', sparse') ->
  exists omitted : list bool,
    length omitted = length voxels /\
    (forall (i : nat) (v : Voxel.t), voxels !! i = Some v ->
       (omitted !! i = Some true <->
        enclosed (zero_cells (pick true (take i omitted) (take i voxels)) dense) v)) /\
    (forall (i : nat) (v : Voxel.t), voxels !! i = Some v ->
       omitted !! i = Some true -> enclosed dense v) /\
    VoxSparseModel.voxels_ sparse' =
      VoxSparseModel.voxels_ sparse ++ pick false omitted voxels /\
    VoxSparseModel.size_ sparse' = VoxSparseModel.size_ sparse /\
    dense' = zero_cells (pick true omitted voxels) dense /\
    (forall (i : nat) (v : Voxel.t), voxels !! i = Some v ->
       omitted !! i = Some true -> voxel_at dense' v = Some x00).
Proof.
  revert dense sparse. induction voxels as [|v voxels IH]; intros dense sparse H.
  - simpl in H. injection H as <- <-. exists [].
    split; [reflexivity |]. split; [intros i v Hv; discriminate |].
    split; [intros i v Hv; discriminate |].
    split; [simpl; rewrite app_nil_r; reflexivity |].
    split; [reflexivity |]. split; [reflexivity | intros i v Hv; discriminate].
  - simpl in H. destruct (hidden dense v) as [[|]|] eqn:Hh; [| | discriminate].
    + (* omitted *)
      destruct (VoxDenseModel.set_voxel dense (u8 (Voxel.x v)) (u8 (Voxel.y v))
                  (u8 (Voxel.z v)) x00) as [dense1|] eqn:Hset; [| discriminate].
      apply set_voxel_zero in Hset. destruct Hset as [-> Hzero].
      apply hidden_true in Hh.
      destruct (IH _ _ H) as (om & Hlen & Hiff & Hdec & Hsp & Hsz & Hd & Hz).
      exists (true :: om).
      split; [simpl; congruence |].
      split.
      { intros [|i] u Hu; simpl in Hu.
        - injection Hu as <-. simpl. split; [intros _; exact Hh | reflexivity].
        - simpl. apply Hiff. exact Hu. }
      split.
      { intros [|i] u Hu Ho; simpl in Hu, Ho.
        - injection Hu as <-. exact Hh.
        - apply (enclosed_zero_cell dense v). apply (Hdec i); assumption. }
      split; [exact Hsp |]. split; [exact Hsz |]. split; [exact Hd |].
      intros [|i] u Hu Ho; simpl in Hu, Ho.
      * injection Hu as <-. rewrite Hd. apply voxel_at_zero_cells. exact Hzero.
      * apply (Hz i); assumption.
    + (* kept *)
      apply hidden_false in Hh.
      destruct (IH _ _ H) as (om & Hlen & Hiff & Hdec & Hsp & Hsz & Hd & Hz).
      exists (false :: om).
      split; [simpl; congruence |].
      split.
      { intros [|i] u Hu; simpl in Hu.
        - injection Hu as <-. simpl. split; [discriminate | intros He; contradiction].
        - simpl. apply Hiff. exact Hu. }
      split.
      { intros [|i] u Hu Ho; simpl in Hu, Ho; [discriminate |].
        apply (Hdec i); assumption. }
      split.
      { rewrite Hsp. simpl. rewrite <- app_assoc. reflexivity. }
      split; [exact Hsz |]. split; [exact Hd |].
      intros [|i] u Hu Ho; simpl in Hu, Ho; [discriminate |].
      apply (Hz i); assumption.
Qed.

(** ** The record loop *)

Lemma cell_nonneg (size : Size) (v : Voxel.t) : 0 <= cell size v.
Proof. apply index_nonneg. Qed.

Lemma cells_nonneg (size : Size) : 0 <= cells size.
Proof. apply u32_range. Qed.

Lemma paint_all_length (size : Size) (vs : list Voxel.t) (grid : list byte) :
  length (fold_left (paint size) vs grid) = length grid.
Proof.
  revert grid. induction vs as [|v vs IH]; intros grid; simpl; [reflexivity |].
  rewrite IH. apply length_insert.
Qed.

Lemma replay_length (size : Size) (vs : list Voxel.t) :
  Z.of_nat (length (replay size vs)) = cells size.
Proof.
  unfold replay.
  rewrite paint_all_length, length_replicate.
  pose proof (cells_nonneg size). lia.
Qed.

(** [write_voxels] succeeds exactly when every record addresses a cell of the
    grid, and then paints the cells in order. *)
Lemma write_voxels_Some (d : VoxDenseModel.t) (vs : list Voxel.t) :
  Forall (fun v => cell (VoxDenseModel.size_ d) v < Z.of_nat (length (VoxDenseModel.voxels_ d))) vs ->
  write_voxels d vs =
    Some (VoxDenseModel.mk (VoxDenseModel.size_ d)
            (fold_left (paint (VoxDenseModel.size_ d)) vs (VoxDenseModel.voxels_ d))
            (VoxDenseModel.palette_ d)).
Proof.
  revert d. induction vs as [|v vs IH]; intros d H.
  - destruct d. reflexivity.
  - inversion H as [|? ? Hv Hvs]; subst. simpl.
    destruct (VoxDenseModel.set_voxel d (u8 (Voxel.x v)) (u8 (Voxel.y v))
                (u8 (Voxel.z v)) (Voxel.color v)) as [d1|] eqn:Hset.
    + apply set_voxel_Some in Hset. destruct Hset as [_ ->].
      rewrite IH; [reflexivity |]. simpl. rewrite length_insert. exact Hvs.
    + apply set_voxel_None in Hset. unfold cell in Hv. lia.
Qed.

Lemma write_voxels_None (d : VoxDenseModel.t) (vs : list Voxel.t) :
  Exists (fun v => Z.of_nat (length (VoxDenseModel.voxels_ d)) <= cell (VoxDenseModel.size_ d) v) vs ->
  write_voxels d vs = None.
Proof.
  revert d. induction vs as [|v vs IH]; intros d H.
  - inversion H.
  - simpl.
    destruct (VoxDenseModel.set_voxel d (u8 (Voxel.x v)) (u8 (Voxel.y v))
                (u8 (Voxel.z v)) (Voxel.color v)) as [d1|] eqn:Hset; [| reflexivity].
    apply set_voxel_Some in Hset. destruct Hset as [Hlt ->].
    inversion H as [? ? Hv | ? ? Hvs]; subst.
    + unfold cell in Hv. lia.
    + apply IH. simpl. rewrite length_insert. exact Hvs.
Qed.

Lemma Forall_or_Exists_cells (size : Size) (n : Z) (vs : list Voxel.t) :
  Forall (fun v => cell size v < n) vs \/ Exists (fun v => n <= cell size v) vs.
Proof.
  induction vs as [|v vs [IH | IH]].
  - left. constructor.
  - destruct (Z.lt_ge_cases (cell size v) n) as [Hlt | Hge].
    + left. constructor; assumption.
    + right. constructor. exact Hge.
  - right. constructor 2. exact IH.
Qed.

(** Writing into a fresh model of size [size]. *)
Lemma write_voxels_new_Some (size : Size) (vs : list Voxel.t) :
  Forall (fun v => cell size v < cells size) vs ->
  write_voxels (VoxDenseModel.new size) vs = Some (decoded size vs).
Proof.
  intros H. rewrite write_voxels_Some.
  - reflexivity.
  - simpl. rewrite length_replicate.
    pose proof (cells_nonneg size) as Hc. unfold cells in *.
    rewrite Z2Nat.id by exact Hc. exact H.
Qed.

Lemma write_voxels_new_None (size : Size) (vs : list Voxel.t) :
  Exists (fun v => cells size <= cell size v) vs ->
  write_voxels (VoxDenseModel.new size) vs = None.
Proof.
  intros H. apply write_voxels_None. simpl. rewrite length_replicate.
  pose proof (cells_nonneg size) as Hc. unfold cells in *.
  rewrite Z2Nat.id by exact Hc. exact H.
Qed.

Lemma write_voxels_snoc (d : VoxDenseModel.t) (vs : list Voxel.t) (v : Voxel.t) :
  write_voxels d (vs ++ [v]) =
  match write_voxels d vs with
  | Some d' => VoxDenseModel.set_voxel d' (u8 (Voxel.x v)) (u8 (Voxel.y v))
                 (u8 (Voxel.z v)) (Voxel.color v)
  | None => None
  end.
Proof.
  revert d. induction vs as [|u vs IH]; intros d; simpl.
  - destruct (VoxDenseModel.set_voxel d _ _ _ _); reflexivity.
  - destruct (VoxDenseModel.set_voxel d _ _ _ _) as [d1|]; [apply IH | reflexivity].
Qed.

Section RecordLoop.

Variable stale : nat -> byte.

(** The loop reads the records one after the other and writes each as it
    goes: its outcome is that of writing the chunk's records in order. *)
Lemma xyzi_loop_spec (n : nat) (s : ifstream) (dense : VoxDenseModel.t)
    (voxels : list Voxel.t) :
  match write_voxels dense (fst (read_voxels stale n s)) with
  | Some dense' =>
      xyzi_loop stale n s dense voxels =
        (Some (dense', voxels ++ fst (read_voxels stale n s)),
         snd (read_voxels stale n s))
  | None => fst (xyzi_loop stale n s dense voxels) = None
  end.
Proof.
  revert s dense voxels. induction n as [|n IH]; intros s dense voxels; cbn.
  - rewrite app_nil_r. reflexivity.
  - destruct (read_voxel stale s) as [v s1] eqn:Hv.
    destruct (read_voxels stale n s1) as [vs s2] eqn:Hvs. cbn.
    destruct (VoxDenseModel.set_voxel dense (u8 (Voxel.x v)) (u8 (Voxel.y v))
                (u8 (Voxel.z v)) (Voxel.color v)) as [dense1|] eqn:Hset;
      cbn; [| reflexivity].
    specialize (IH s1 dense1 (voxels ++ [v])). rewrite Hvs in IH. cbn in IH.
    destruct (write_voxels dense1 vs) as [dense'|].
    + rewrite IH, <- app_assoc. reflexivity.
    + exact IH.
Qed.

(** [ReadXyziChunk] in terms of the chunk's records: it throws when a record
    addresses no cell of the grid; otherwise it builds the decoded model,
    culls or copies, and pushes. *)
Lemma ReadXyziChunk_bad (w : world) :
  let size := VoxFile.cur_size_ (this w) in
  Exists (fun v => cells size <= cell size v) (records stale (file w)) ->
  exists s, ReadXyziChunk stale w = Throws out_of_range (with_file w s).
Proof.
  intros size H. unfold ReadXyziChunk, records in *.
  destruct (le_u32read stale (file w)) as [n s1].
  pose proof (xyzi_loop_spec (Z.to_nat n) s1 (VoxDenseModel.new size) []) as Hloop.
  rewrite (write_voxels_new_None size _ H) in Hloop.
  fold size.
  destruct (xyzi_loop stale (Z.to_nat n) s1 (VoxDenseModel.new size) []) as [[r|] s2].
  - discriminate.
  - exists s2. reflexivity.
Qed.

Lemma ReadXyziChunk_good (w : world) :
  let size := VoxFile.cur_size_ (this w) in
  let vs := records stale (file w) in
  Forall (fun v => cell size v < cells size) vs ->
  exists s,
    ReadXyziChunk stale w =
    match (if VoxFile.remove_hidden_voxels_ (this w)
           then RemoveHiddenVoxels (decoded size vs) (VoxSparseModel.new size) vs
           else Some (decoded size vs,
                      VoxSparseModel.assign vs (VoxSparseModel.new size))) with
    | None => Throws out_of_range (with_file w s)
    | Some (dense, sparse) => Ret (mk_world (push_models dense sparse (this w)) s)
    end.
Proof.
  intros size vs H. unfold ReadXyziChunk. subst vs. unfold records in *.
  destruct (le_u32read stale (file w)) as [n s1].
  pose proof (xyzi_loop_spec (Z.to_nat n) s1 (VoxDenseModel.new size) []) as Hloop.
  rewrite (write_voxels_new_Some size _ H) in Hloop.
  fold size. rewrite Hloop. cbn.
  exists (snd (read_voxels stale (Z.to_nat n) s1)). reflexivity.
Qed.

(** A chunk that returns has every record inside the grid. *)
Lemma ReadXyziChunk_Ret_in_grid (w w' : world) :
  ReadXyziChunk stale w = Ret w' ->
  Forall (fun v => cell (VoxFile.cur_size_ (this w)) v < cells (VoxFile.cur_size_ (this w)))
    (records stale (file w)).
Proof.
  intros H.
  destruct (Forall_or_Exists_cells (VoxFile.cur_size_ (this w))
              (cells (VoxFile.cur_size_ (this w))) (records stale (file w)))
    as [Hall | Hex]; [exact Hall |].
  apply ReadXyziChunk_bad in Hex. destruct Hex as [s Hs]. congruence.
Qed.

End RecordLoop.

(** ** Invariants of the chunk reader *)

Lemma outcome_rel_bind (R : world -> world -> Prop)
    (Rtrans : forall a b c, R a b -> R b c -> R a c)
    (w : world) (m : result world) (k : world -> result world) :
  outcome_rel R w m ->
  (forall w', outcome_rel R w' (k w')) ->
  outcome_rel R w (m >>= k).
Proof.
  intros Hm Hk. destruct m as [w1 | e w1 |]; simpl in *.
  - specialize (Hk w1). destruct (k w1) as [w2 | e w2 |]; simpl in *.
    + eapply Rtrans; eassumption.
    + destruct Hk as [Hk ->]. split; [eapply Rtrans; eassumption | reflexivity].
    + exact I.
  - exact Hm.
  - exact I.
Qed.

Lemma outcome_rel_after (R : world -> world -> Prop)
    (Rtrans : forall a b c, R a b -> R b c -> R a c)
    (w w1 : world) (r : result world) :
  R w w1 -> outcome_rel R w1 r -> outcome_rel R w r.
Proof.
  intros H Hr. destruct r as [w2 | e w2 |]; simpl in *.
  - eapply Rtrans; eassumption.
  - destruct Hr as [Hr ->]. split; [eapply Rtrans; eassumption | reflexivity].
  - exact I.
Qed.

Section ChunkInvariant.

Variable stale : nat -> byte.
Variable R : world -> world -> Prop.

Hypothesis R_refl : forall w, R w w.
Hypothesis R_trans : forall a b c, R a b -> R b c -> R a c.
Hypothesis R_read : forall w n, R w (with_file w (snd (read stale n (file w)))).
Hypothesis R_seekg : forall w pos, R w (with_file w (seekg pos (file w))).
Hypothesis R_seekg_cur : forall w off, R w (with_file w (seekg_cur off (file w))).
Hypothesis R_size : forall w size, R w (with_this w (VoxFile.set_cur_size size (this w))).
Hypothesis R_palette : forall w p, R w (with_this w (VoxFile.set_palette p (this w))).
Hypothesis R_xyzi : forall w, outcome_rel R w (ReadXyziChunk stale w).

Lemma R_reads (w : world) (s : ifstream) (n : nat) :
  R w (mk_world (this w) s) ->
  R w (mk_world (this w) (snd (read stale n s))).
Proof.
  intros H. eapply R_trans; [exact H |].
  apply (R_read (mk_world (this w) s) n).
Qed.

Lemma R_le_u32read (w : world) (s : ifstream) :
  R w (mk_world (this w) s) ->
  R w (mk_world (this w) (snd (le_u32read stale s))).
Proof.
  intros H. unfold le_u32read.
  pose proof (R_reads w s 4 H) as H4.
  destruct (read stale 4 s) as [data s']. exact H4.
Qed.

Lemma R_read_uint8 (w : world) (s : ifstream) :
  R w (mk_world (this w) s) ->
  R w (mk_world (this w) (snd (read_uint8 stale s))).
Proof.
  intros H. unfold read_uint8.
  pose proof (R_reads w s 1 H) as H1.
  destruct (read stale 1 s) as [data s']. exact H1.
Qed.

Lemma R_rgba_loop (n i : nat) (palette : Palette) (w : world) (s : ifstream) :
  R w (mk_world (this w) s) ->
  R w (mk_world (this w) (snd (rgba_loop stale n i palette s))).
Proof.
  revert i palette s. induction n as [|n IH]; intros i palette s H; cbn [rgba_loop].
  - exact H.
  - pose proof (R_read_uint8 w s H) as H1.
    destruct (read_uint8 stale s) as [r s1]. cbn [snd] in H1.
    pose proof (R_read_uint8 w s1 H1) as H2.
    destruct (read_uint8 stale s1) as [g s2]. cbn [snd] in H2.
    pose proof (R_read_uint8 w s2 H2) as H3.
    destruct (read_uint8 stale s2) as [b s3]. cbn [snd] in H3.
    pose proof (R_read_uint8 w s3 H3) as H4.
    destruct (read_uint8 stale s3) as [a s4]. cbn [snd] in H4.
    apply IH. exact H4.
Qed.

Lemma R_ReadSizeChunk (w : world) : outcome_rel R w (ReadSizeChunk stale w).
Proof.
  unfold ReadSizeChunk.
  assert (H0 : R w (mk_world (this w) (file w))) by (destruct w; apply R_refl).
  pose proof (R_le_u32read w _ H0) as H1.
  destruct (le_u32read stale (file w)) as [x s1]. cbn [snd] in H1.
  pose proof (R_le_u32read w _ H1) as H2.
  destruct (le_u32read stale s1) as [y s2]. cbn [snd] in H2.
  pose proof (R_le_u32read w _ H2) as H3.
  destruct (le_u32read stale s2) as [z s3]. cbn [snd] in H3.
  cbn [outcome_rel]. eapply R_trans; [exact H3 |].
  apply (R_size (mk_world (this w) s3)).
Qed.

Lemma R_ReadRgbaChunk (w : world) : outcome_rel R w (ReadRgbaChunk stale w).
Proof.
  unfold ReadRgbaChunk.
  assert (H0 : R w (mk_world (this w) (file w))) by (destruct w; apply R_refl).
  pose proof (R_rgba_loop 255 1 (VoxFile.palette_ (this w)) w _ H0) as H1.
  destruct (rgba_loop stale 255 1 (VoxFile.palette_ (this w)) (file w)) as [p s].
  cbn [snd] in H1. cbn [outcome_rel]. eapply R_trans; [exact H1 |].
  apply (R_palette (mk_world (this w) s)).
Qed.

Lemma R_header (w : world) :
  R w (with_file w (snd (read_header stale (file w)))).
Proof.
  unfold read_header, with_file.
  assert (H0 : R w (mk_world (this w) (file w))) by (destruct w; apply R_refl).
  pose proof (R_reads w _ 4 H0) as H1.
  destruct (read stale 4 (file w)) as [id s1]. cbn [snd] in H1.
  pose proof (R_le_u32read w _ H1) as H2.
  destruct (le_u32read stale s1) as [cs s2]. cbn [snd] in H2.
  pose proof (R_le_u32read w _ H2) as H3.
  destruct (le_u32read stale s2) as [ch s3]. cbn [snd] in H3.
  exact H3.
Qed.

(** [ReadChunk] as header, dispatch, reposition. *)
Lemma ReadChunk_S (fuel : nat) (w : world) :
  ReadChunk stale (S fuel) w =
  let '(chunk_id_chars, contents_size, children_size, s3) :=
    read_header stale (file w) in
  handle_chunk stale fuel chunk_id_chars contents_size children_size
    (with_file w s3) >>= fun w' =>
  Ret (with_file w' (seekg (u32 (u32 (tellg s3) + contents_size + children_size))
                       (file w'))).
Proof.
  unfold read_header, handle_chunk. cbn [ReadChunk].
  destruct (read stale 4 (file w)) as [id s1].
  destruct (le_u32read stale s1) as [cs s2].
  destruct (le_u32read stale s2) as [ch s3]. reflexivity.
Qed.

Lemma ReadMainLoop_S (fuel : nat) (end_pos : Z) (w : world) :
  ReadMainLoop stale (S fuel) end_pos w =
  if tellg (file w) <? end_pos
  then ReadChunk stale fuel w >>= ReadMainLoop stale fuel end_pos
  else Ret w.
Proof. reflexivity. Qed.

Lemma handle_chunk_invariant (fuel : nat) (id : list byte) (cs ch : Z) :
  (forall end_pos w, outcome_rel R w (ReadMainLoop stale fuel end_pos w)) ->
  forall w, outcome_rel R w (handle_chunk stale fuel id cs ch w).
Proof.
  intros IHl w. unfold handle_chunk. cbv zeta.
  destruct (String.eqb _ "MAIN"%string).
  { apply (outcome_rel_after R R_trans _ (with_file w (seekg_cur cs (file w)))).
    - apply R_seekg_cur.
    - apply IHl. }
  destruct (String.eqb _ "SIZE"%string); [apply R_ReadSizeChunk |].
  destruct (String.eqb _ "XYZI"%string); [apply R_xyzi |].
  destruct (String.eqb _ "RGBA"%string); [apply R_ReadRgbaChunk |].
  apply R_refl.
Qed.

Lemma ReadChunk_invariant (fuel : nat) :
  (forall w, outcome_rel R w (ReadChunk stale fuel w)) /\
  (forall end_pos w, outcome_rel R w (ReadMainLoop stale fuel end_pos w)).
Proof.
  induction fuel as [|fuel [IHc IHl]].
  - split; intros; exact I.
  - split.
    + intros w. rewrite ReadChunk_S.
      pose proof (R_header w) as Hh.
      destruct (read_header stale (file w)) as [[[id cs] ch] s3]. cbn [snd] in Hh.
      apply (outcome_rel_bind R R_trans).
      * apply (outcome_rel_after R R_trans w (with_file w s3) _ Hh).
        apply handle_chunk_invariant. exact IHl.
      * intros w'. apply (R_seekg w').
    + intros end_pos w. rewrite ReadMainLoop_S.
      destruct (tellg (file w) <? end_pos).
      * apply (outcome_rel_bind R R_trans); [apply IHc | intros w'; apply IHl].
      * apply R_refl.
Qed.

End ChunkInvariant.

(** ** The stream *)

Section Stream.

Variable stale : nat -> byte.

Lemma available_length (n : nat) (s : ifstream) :
  (length (available n s) <= n)%nat.
Proof.
  unfold available. destruct (failbit s); [simpl; lia |].
  destruct (Z.of_nat (length (contents s)) <=? gpos s); [simpl; lia |].
  rewrite length_take. lia.
Qed.

Lemma read_failbit (n : nat) (s : ifstream) :
  failbit (snd (read stale n s)) =
  failbit s || negb (n - length (available n s) =? 0)%nat.
Proof. reflexivity. Qed.

(** A read never clears the fail bit. *)
Lemma read_sticky (n : nat) (s : ifstream) :
  failbit s = true -> failbit (snd (read stale n s)) = true.
Proof. intros H. rewrite read_failbit, H. reflexivity. Qed.

(** A read that leaves the stream good extracted its [n] bytes from a good
    stream and advanced the cursor by [n]. *)
Lemma read_good (n : nat) (s : ifstream) :
  failbit (snd (read stale n s)) = false ->
  failbit s = false /\ gpos (snd (read stale n s)) = gpos s + Z.of_nat n.
Proof.
  rewrite read_failbit. intros H. apply orb_false_elim in H.
  destruct H as [Hs Hm]. split; [exact Hs |].
  apply negb_false_iff, Nat.eqb_eq in Hm.
  pose proof (available_length n s). unfold read. cbn [snd gpos].
  replace (length (available n s)) with n by lia. reflexivity.
Qed.

(** A read on a failed stream extracts nothing: the buffer keeps its stale
    bytes, the cursor does not move. *)
Lemma read_failed (n : nat) (s : ifstream) :
  failbit s = true ->
  read stale n s =
    (map stale (seq (nstale s) n),
     mk_ifstream (contents s) (gpos s) true (nstale s + n)).
Proof.
  intros H. unfold read, available. rewrite H. cbn [length app].
  rewrite Nat.sub_0_r, Z.add_0_r. reflexivity.
Qed.

(** A read that needs more bytes than the data holds sets the fail bit, and
    raises nothing. *)
Lemma read_short (n : nat) (s : ifstream) :
  (length (available n s) < n)%nat ->
  failbit (snd (read stale n s)) = true.
Proof.
  intros H. rewrite read_failbit.
  destruct (Nat.eqb_spec (n - length (available n s)) 0) as [He | Hne].
  - lia.
  - apply orb_true_r.
Qed.

Lemma le_u32read_good (s : ifstream) :
  failbit (snd (le_u32read stale s)) = false ->
  failbit s = false /\ gpos (snd (le_u32read stale s)) = gpos s + 4.
Proof.
  unfold le_u32read. pose proof (read_good 4 s) as H.
  destruct (read stale 4 s) as [data s']. exact H.
Qed.

(** A header read that leaves the stream good started on a good stream and
    ends twelve bytes further. *)
Lemma read_header_good (s : ifstream) :
  failbit (snd (read_header stale s)) = false ->
  failbit s = false /\ tellg (snd (read_header stale s)) = gpos s + 12.
Proof.
  unfold read_header.
  pose proof (read_good 4 s) as H1.
  destruct (read stale 4 s) as [id s1]. cbn [snd] in H1.
  pose proof (le_u32read_good s1) as H2.
  destruct (le_u32read stale s1) as [cs s2]. cbn [snd] in H2.
  pose proof (le_u32read_good s2) as H3.
  destruct (le_u32read stale s2) as [ch s3]. cbn [snd] in *.
  intros H. unfold tellg. rewrite H.
  destruct (H3 H) as [G2 E3]. destruct (H2 G2) as [G1 E2].
  destruct (H1 G1) as [G0 E1]. split; [exact G0 | lia].
Qed.

Lemma seekg_failbit (pos : Z) (s : ifstream) :
  failbit (seekg pos s) = failbit s.
Proof. unfold seekg. destruct (failbit s) eqn:E; [exact E | reflexivity]. Qed.

Lemma seekg_cur_failbit (off : Z) (s : ifstream) :
  failbit (seekg_cur off s) = failbit s.
Proof. unfold seekg_cur. destruct (failbit s) eqn:E; [exact E | reflexivity]. Qed.

Lemma tellg_seekg (pos : Z) (s : ifstream) :
  failbit s = false -> tellg (seekg pos s) = pos.
Proof. intros H. unfold seekg, tellg. rewrite H. reflexivity. Qed.

Lemma tellg_failed (s : ifstream) : failbit s = true -> tellg s = -1.
Proof. intros H. unfold tellg. rewrite H. reflexivity. Qed.

(** The record loop leaves a stream reached by reads. *)
Lemma xyzi_loop_sticky (n : nat) (s : ifstream) (d : VoxDenseModel.t)
    (acc : list Voxel.t) :
  failbit s = true -> failbit (snd (xyzi_loop stale n s d acc)) = true.
Proof.
  revert s d acc. induction n as [|n IH]; intros s d acc H; cbn [xyzi_loop].
  - exact H.
  - assert (H4 : failbit (snd (read_voxel stale s)) = true).
    { unfold read_voxel, read_uint8.
      pose proof (read_sticky 1 s H) as H1.
      destruct (read stale 1 s) as [b1 s1]. cbn [snd] in H1.
      pose proof (read_sticky 1 s1 H1) as H2.
      destruct (read stale 1 s1) as [b2 s2]. cbn [snd] in H2.
      pose proof (read_sticky 1 s2 H2) as H3.
      destruct (read stale 1 s2) as [b3 s3]. cbn [snd] in H3.
      pose proof (read_sticky 1 s3 H3) as H4.
      destruct (read stale 1 s3) as [b4 s4]. exact H4. }
    destruct (read_voxel stale s) as [v s']. cbn [snd] in H4.
    destruct (VoxDenseModel.set_voxel d _ _ _ _) as [d'|].
    + apply IH. exact H4.
    + exact H4.
Qed.

Lemma ReadXyziChunk_sticky (w : world) :
  outcome_rel sticky w (ReadXyziChunk stale w).
Proof.
  unfold ReadXyziChunk.
  pose proof (read_sticky 4 (file w)) as H1. unfold le_u32read.
  destruct (read stale 4 (file w)) as [data s1]. cbn [snd] in H1.
  pose proof (xyzi_loop_sticky (Z.to_nat (u32 (Z.lor (Z.lor (Z.lor (u8 (nth 0 data x00))
                            (Z.shiftl (u8 (nth 1 data x00)) 8))
                     (Z.shiftl (u8 (nth 2 data x00)) 16))
              (Z.shiftl (u8 (nth 3 data x00)) 24)))) s1
                (VoxDenseModel.new (VoxFile.cur_size_ (this w))) []) as H2.
  destruct (xyzi_loop stale _ s1 _ []) as [[[d vs]|] s2]; cbn [snd] in H2.
  - destruct (if VoxFile.remove_hidden_voxels_ (this w) then _ else _) as [[d2 sp2]|];
      cbn [outcome_rel].
    + intros H. apply H2, H1, H.
    + split; [| reflexivity]. intros H. apply H2, H1, H.
  - cbn [outcome_rel]. split; [| reflexivity]. intros H. apply H2, H1, H.
Qed.

(** The chunk reader never clears the fail bit. *)
Lemma sticky_refl (w : world) : sticky w w.
Proof. intros H. exact H. Qed.

Lemma sticky_trans (a b c : world) : sticky a b -> sticky b c -> sticky a c.
Proof. intros Hab Hbc H. apply Hbc, Hab, H. Qed.

Lemma sticky_read (w : world) (n : nat) :
  sticky w (with_file w (snd (read stale n (file w)))).
Proof. intros H. apply read_sticky. exact H. Qed.

Lemma sticky_seekg (w : world) (pos : Z) :
  sticky w (with_file w (seekg pos (file w))).
Proof. intros H. cbn [file with_file]. rewrite seekg_failbit. exact H. Qed.

Lemma sticky_seekg_cur (w : world) (off : Z) :
  sticky w (with_file w (seekg_cur off (file w))).
Proof. intros H. cbn [file with_file]. rewrite seekg_cur_failbit. exact H. Qed.

Lemma sticky_this (w : world) (v : VoxFile.t) : sticky w (with_this w v).
Proof. intros H. exact H. Qed.

Lemma ReadChunk_sticky (fuel : nat) :
  (forall w, outcome_rel sticky w (ReadChunk stale fuel w)) /\
  (forall end_pos w, outcome_rel sticky w (ReadMainLoop stale fuel end_pos w)).
Proof.
  apply (ReadChunk_invariant stale sticky sticky_refl sticky_trans sticky_read
           sticky_seekg sticky_seekg_cur).
  - intros w size. apply sticky_this.
  - intros w p. apply sticky_this.
  - apply ReadXyziChunk_sticky.
Qed.

Lemma handle_chunk_sticky (fuel : nat) (id : list byte) (cs ch : Z) (w : world) :
  outcome_rel sticky w (handle_chunk stale fuel id cs ch w).
Proof.
  apply (handle_chunk_invariant stale sticky sticky_refl sticky_trans sticky_read
           sticky_seekg_cur).
  - intros w0 size. apply sticky_this.
  - intros w0 p. apply sticky_this.
  - apply ReadXyziChunk_sticky.
  - apply ReadChunk_sticky.
Qed.

End Stream.

(** ** Growth of the model collections *)

Lemma extends_refl (v : VoxFile.t) : extends v v.
Proof.
  repeat split. exists [], []. rewrite !app_nil_r.
  repeat split; constructor.
Qed.

Lemma extends_trans (a b c : VoxFile.t) : extends a b -> extends b c -> extends a c.
Proof.
  intros (Hd1 & Hs1 & Hc1 & ds1 & ss1 & Ed1 & Es1 & Hp1 & Hf1)
         (Hd2 & Hs2 & Hc2 & ds2 & ss2 & Ed2 & Es2 & Hp2 & Hf2).
  split; [congruence |]. split; [congruence |]. split; [congruence |].
  exists (ds1 ++ ds2), (ss1 ++ ss2).
  split; [rewrite Ed2, Ed1, app_assoc; reflexivity |].
  split; [rewrite Es2, Es1, app_assoc; reflexivity |].
  split; [apply Forall_app; split; assumption |].
  intros Hd Hs. apply Forall2_app.
  - apply Hf1; assumption.
  - rewrite <- Hc1. apply Hf2; congruence.
Qed.

Lemma extends_set_cur_size (v : VoxFile.t) (size : Size) :
  extends v (VoxFile.set_cur_size size v).
Proof.
  repeat split. exists [], []. cbn. rewrite !app_nil_r.
  repeat split; constructor.
Qed.

Lemma extends_set_palette (v : VoxFile.t) (p : Palette) :
  extends v (VoxFile.set_palette p v).
Proof.
  repeat split. exists [], []. cbn. rewrite !app_nil_r.
  repeat split; constructor.
Qed.

Lemma extends_push_models (v : VoxFile.t) (d : VoxDenseModel.t)
    (s : VoxSparseModel.t) :
  VoxDenseModel.palette_ d = None ->
  paired (VoxFile.remove_hidden_voxels_ v) d s ->
  extends v (push_models d s v).
Proof.
  intros Hp Hpair. unfold push_models.
  destruct v as [ld ls cull size ds ss pal]. cbn in *.
  destruct ld, ls; cbn; repeat split.
  - exists [d], [s]. repeat split; try (constructor; [assumption | constructor]).
  - exists [d], []. rewrite app_nil_r.
    repeat split; try (constructor; [assumption | constructor]). discriminate.
  - exists [], [s]. rewrite app_nil_r. repeat split; try constructor. discriminate.
  - exists [], []. rewrite !app_nil_r. repeat split; constructor.
Qed.

Lemma zero_cells_palette (vs : list Voxel.t) (d : VoxDenseModel.t) :
  VoxDenseModel.palette_ (zero_cells vs d) = VoxDenseModel.palette_ d.
Proof.
  revert d. induction vs as [|v vs IH]; intros d; [reflexivity |].
  unfold zero_cells in *. cbn [fold_left]. rewrite IH. reflexivity.
Qed.

Section Models.

Variable stale : nat -> byte.

(** Every XYZI chunk that returns pushes a pair of models made from its
    records; one that throws pushes nothing. *)
Lemma ReadXyziChunk_outcome (w : world) :
  let size := VoxFile.cur_size_ (this w) in
  let vs := records stale (file w) in
  match ReadXyziChunk stale w with
  | Ret w' =>
      exists (dense : VoxDenseModel.t) (sparse : VoxSparseModel.t),
        this w' = push_models dense sparse (this w) /\
        Forall (fun v => cell size v < cells size) vs /\
        (if VoxFile.remove_hidden_voxels_ (this w)
         then RemoveHiddenVoxels (decoded size vs) (VoxSparseModel.new size) vs
         else Some (decoded size vs, VoxSparseModel.assign vs (VoxSparseModel.new size)))
        = Some (dense, sparse)
  | Throws e w' => e = out_of_range /\ this w' = this w
  | OutOfFuel => False
  end.
Proof.
  intros size vs.
  destruct (Forall_or_Exists_cells size (cells size) vs) as [Hall | Hex].
  - destruct (ReadXyziChunk_good stale w Hall) as [s ->]. fold size vs.
    destruct (if VoxFile.remove_hidden_voxels_ (this w) then _ else _)
      as [[dense sparse]|].
    + exists dense, sparse. split; [reflexivity |]. split; [exact Hall | reflexivity].
    + split; reflexivity.
  - destruct (ReadXyziChunk_bad stale w Hex) as [s ->]. split; reflexivity.
Qed.

Lemma ReadXyziChunk_extends (w : world) :
  outcome_rel (fun a b => extends (this a) (this b)) w (ReadXyziChunk stale w).
Proof.
  pose proof (ReadXyziChunk_outcome w) as H. cbv zeta in H.
  destruct (ReadXyziChunk stale w) as [w' | e w' |]; cbn [outcome_rel].
  - destruct H as (dense & sparse & -> & _ & Hc).
    destruct (VoxFile.remove_hidden_voxels_ (this w)) eqn:Hcull.
    + apply RemoveHiddenVoxels_spec in Hc.
      destruct Hc as (om & _ & _ & _ & _ & Hsz & -> & _).
      apply extends_push_models.
      * rewrite zero_cells_palette. reflexivity.
      * rewrite Hcull. split; [| discriminate].
        rewrite zero_cells_size, Hsz. reflexivity.
    + injection Hc as <- <-. apply extends_push_models.
      * reflexivity.
      * rewrite Hcull. split; reflexivity.
  - destruct H as [-> ->]. split; [apply extends_refl | reflexivity].
  - exact I.
Qed.

Lemma ReadChunk_extends (fuel : nat) (w : world) :
  outcome_rel (fun a b => extends (this a) (this b)) w (ReadChunk stale fuel w).
Proof.
  apply (ReadChunk_invariant stale (fun a b => extends (this a) (this b))).
  - intros a. apply extends_refl.
  - intros a b c. apply extends_trans.
  - intros a n. apply extends_refl.
  - intros a pos. apply extends_refl.
  - intros a off. apply extends_refl.
  - intros a size. apply extends_set_cur_size.
  - intros a p. apply extends_set_palette.
  - apply ReadXyziChunk_extends.
Qed.

(** ** [Load], case by case *)

Lemma ReadId_VOX (w : world) :
  let '(fid, s) := read stale 4 (file w) in
  ReadId stale "VOX "%string w = Ret (with_file w s) \/
  ReadId stale "VOX "%string w =
    Throws (VoxException (chunk_id_mismatch "VOX "%string fid)) (with_file w s).
Proof.
  unfold ReadId. cbn [String.length Nat.eqb negb].
  destruct (read stale 4 (file w)) as [fid s].
  destruct (_ || _); [right | left]; reflexivity.
Qed.

Lemma Load_Ret (fuel : nat) (v v' : VoxFile.t) (path : option (list byte)) :
  Load stale fuel v path = Ret v' ->
  exists w : world,
    extends (VoxFile.set_dense_models [] v) (this w) /\
    v' = VoxFile.set_dense_models
           (map (VoxDenseModel.set_palette (VoxFile.palette_ (this w)))
                (VoxFile.dense_models_ (this w)))
           (this w).
Proof.
  unfold Load. intros H.
  pose proof (ReadId_VOX (mk_world (VoxFile.set_dense_models [] v) (open path))) as Hid.
  destruct (read stale 4 _) as [fid s1].
  destruct Hid as [Hid | Hid]; rewrite Hid in H; cbn [bind] in H; [| discriminate].
  destruct (le_i32read stale _) as [version s2].
  pose proof (ReadChunk_extends fuel
    (with_file (with_file (mk_world (VoxFile.set_dense_models [] v) (open path)) s1) s2))
    as Hc.
  destruct (ReadChunk stale fuel _) as [w | e w |]; [| discriminate | discriminate].
  injection H as <-. exists w. split; [exact Hc | reflexivity].
Qed.

Lemma Load_Throws (fuel : nat) (v v' : VoxFile.t) (path : option (list byte))
    (e : exn) :
  Load stale fuel v path = Throws e v' ->
  (e = VoxException (chunk_id_mismatch "VOX "%string
                       (fst (read stale 4 (open path)))) /\
   v' = VoxFile.set_dense_models [] v) \/
  (e = out_of_range /\ extends (VoxFile.set_dense_models [] v) v').
Proof.
  unfold Load. intros H.
  pose proof (ReadId_VOX (mk_world (VoxFile.set_dense_models [] v) (open path))) as Hid.
  cbn [file] in Hid.
  destruct (read stale 4 (open path)) as [fid s1].
  destruct Hid as [Hid | Hid]; rewrite Hid in H; cbn [bind] in H.
  - destruct (le_i32read stale _) as [version s2].
    pose proof (ReadChunk_extends fuel
      (with_file (with_file (mk_world (VoxFile.set_dense_models [] v) (open path)) s1) s2))
      as Hc.
    destruct (ReadChunk stale fuel _) as [w | e' w |]; [discriminate | | discriminate].
    injection H as <- <-. destruct Hc as [Hc ->]. right. split; [reflexivity | exact Hc].
  - injection H as <- <-. left. split; reflexivity.
Qed.

End Models.

(** ** Last writer of a cell *)

Lemma paint_all_snoc (size : Size) (vs : list Voxel.t) (v : Voxel.t) (grid : list byte) :
  fold_left (paint size) (vs ++ [v]) grid = paint size (fold_left (paint size) vs grid) v.
Proof. rewrite fold_left_app. reflexivity. Qed.

(** After painting [vs] in order, a cell holds the colour of the last record
    addressing it, or what it held before when there is none. *)
Lemma paint_all_lookup (size : Size) (vs : list Voxel.t) (grid : list byte) (c : Z) :
  0 <= c < Z.of_nat (length grid) ->
  fold_left (paint size) vs grid !! Z.to_nat c =
  match last (List.filter (fun u => c =? cell size u) vs) with
  | Some u => Some (Voxel.color u)
  | None => grid !! Z.to_nat c
  end.
Proof.
  intros Hc. induction vs as [|v vs IH] using rev_ind; [reflexivity |].
  rewrite paint_all_snoc, List.filter_app. cbn [List.filter].
  unfold paint at 1.
  destruct (Z.eqb_spec c (cell size v)) as [-> | Hne].
  - rewrite last_snoc. apply list_lookup_insert_eq.
    rewrite paint_all_length. lia.
  - rewrite app_nil_r, <- IH. apply list_lookup_insert_ne.
    pose proof (cell_nonneg size v). lia.
Qed.




Section Claims.

Variable stale : nat -> byte.

(** ** What the culler omits *)

(** X6.  For an XYZI chunk decoded with hidden-voxel removal, every decoded
    voxel carries a flag saying whether it was omitted, and: a voxel is
    omitted if and only if it is strictly interior on the three axes with its
    six face neighbours non-empty in the dense grid as it stands when the
    voxel is examined, that is the decoded grid with the cells of the voxels
    omitted before it already cleared; an omitted voxel is in particular
    enclosed in the decoded grid itself; the sparse list is exactly the
    voxels not omitted, in decode order; the dense grid pushed is the decoded
    one with the cells of the omitted voxels cleared, and each of them reads
    0 there. *)
Theorem ReadXyziChunk_culls (w w' : world) :
  VoxFile.remove_hidden_voxels_ (this w) = true ->
  ReadXyziChunk stale w = Ret w' ->
  let size := VoxFile.cur_size_ (this w) in
  let voxels := records stale (file w) in
  let grid := decoded size voxels in
  exists (dense : VoxDenseModel.t) (sparse : VoxSparseModel.t)
         (omitted : list bool),
    this w' = push_models dense sparse (this w) /\
    length omitted = length voxels /\
    (forall (i : nat) (v : Voxel.t), voxels !! i = Some v ->
       (omitted !! i = Some true <->
        enclosed (zero_cells (pick true (take i omitted) (take i voxels)) grid) v)) /\
    (forall (i : nat) (v : Voxel.t), voxels !! i = Some v ->
       omitted !! i = Some true -> enclosed grid v) /\
    VoxSparseModel.voxels_ sparse = pick false omitted voxels /\
    dense = zero_cells (pick true omitted voxels) grid /\
    (forall (i : nat) (v : Voxel.t), voxels !! i = Some v ->
       omitted !! i = Some true -> voxel_at dense v = Some x00).
Proof.
  intros Hcull Hret size voxels grid.
  pose proof (ReadXyziChunk_outcome stale w) as H. cbv zeta in H.
  rewrite Hret, Hcull in H. destruct H as (dense & sparse & Hpush & _ & Hrem).
  apply RemoveHiddenVoxels_spec in Hrem.
  destruct Hrem as (om & Hlen & Hiff & Hdec & Hsp & _ & Hd & Hz).
  exists dense, sparse, om.
  split; [exact Hpush |]. split; [exact Hlen |]. split; [exact Hiff |].
  split; [exact Hdec |]. split; [exact Hsp |]. split; [exact Hd | exact Hz].
Qed.

(** ** C2: records outside the grid *)

(** C2 (amended).  If a decoded record addresses a flat cell
    [x + y * size.x + z * size.x * size.y] (in 32-bit arithmetic) that is not
    below the number of cells [size.x * size.y * size.z] of the grid, the
    chunk fails with [out_of_range] and the loader is left as it was: nothing
    is written outside the grid and no model is pushed. *)
Theorem ReadXyziChunk_out_of_range (w : world) (v : Voxel.t) :
  let size := VoxFile.cur_size_ (this w) in
  In v (records stale (file w)) ->
  cells size <= cell size v ->
  exists s : ifstream,
    ReadXyziChunk stale w = Throws out_of_range (with_file w s).
Proof.
  intros size Hin Hbad. apply ReadXyziChunk_bad.
  apply List.Exists_exists. exists v. split; [exact Hin | exact Hbad].
Qed.

(** ** C3: the cursor after a chunk *)

(** C3 (amended).  When [ReadChunk] returns with the stream still good (no
    read ran past the end of the data), the header was read in full, so that
    [contents_start] is the offset twelve bytes after the start of the
    chunk, and the cursor stands at
    [contents_start + contents_size + children_size] reduced modulo 2^32,
    whatever the tag and however much the handler consumed. *)
Theorem ReadChunk_next_chunk_pos (fuel : nat) (w w' : world) :
  ReadChunk stale fuel w = Ret w' ->
  failbit (file w') = false ->
  let '(chunk_id_chars, contents_size, children_size, s3) :=
    read_header stale (file w) in
  let contents_start := tellg s3 in
  contents_start = gpos (file w) + 12 /\
  tellg (file w') = u32 (contents_start + contents_size + children_size).
Proof.
  intros Hret Hgood. destruct fuel as [|fuel]; [discriminate |].
  rewrite ReadChunk_S in Hret.
  pose proof (read_header_good stale (file w)) as Hh.
  destruct (read_header stale (file w)) as [[[id cs] ch] s3]. cbn [snd] in Hh.
  pose proof (handle_chunk_sticky stale fuel id cs ch (with_file w s3)) as Hst.
  destruct (handle_chunk stale fuel id cs ch (with_file w s3)) as [w1 | e w1 |];
    cbn [bind] in Hret; [| discriminate | discriminate].
  injection Hret as <-. cbn [file with_file] in Hgood.
  rewrite seekg_failbit in Hgood.
  cbn [outcome_rel] in Hst. unfold sticky in Hst. cbn [file with_file] in Hst.
  assert (Hs3 : failbit s3 = false).
  { destruct (failbit s3); [| reflexivity]. rewrite Hst in Hgood by reflexivity.
    discriminate. }
  destruct (Hh Hs3) as [_ Hstart]. split; [exact Hstart |].
  cbn [file with_file]. rewrite tellg_seekg by exact Hgood.
  unfold u32. rewrite <- Z.add_assoc, Zplus_mod_idemp_l, Z.add_assoc. reflexivity.
Qed.

(** ** Replaying the sparse list *)

(** X26.  After a successful load with both outputs requested and no culling,
    the sparse models appended by the load pair up, in order, with the dense
    models, and replaying a sparse model's voxel list into an all-zero grid
    of its size gives exactly the grid of the dense model paired with it. *)
Theorem Load_roundtrip (fuel : nat) (v v' : VoxFile.t) (path : option (list byte)) :
  VoxFile.load_dense_ v = true ->
  VoxFile.load_sparse_ v = true ->
  VoxFile.remove_hidden_voxels_ v = false ->
  Load stale fuel v path = Ret v' ->
  exists loaded : list VoxSparseModel.t,
    VoxFile.sparse_models_ v' = VoxFile.sparse_models_ v ++ loaded /\
    Forall2 (fun d s =>
               VoxDenseModel.size_ d = VoxSparseModel.size_ s /\
               VoxDenseModel.voxels_ d =
                 replay (VoxSparseModel.size_ s) (VoxSparseModel.voxels_ s))
            (VoxFile.dense_models_ v') loaded.
Proof.
  intros Hd Hs Hc Hload. apply Load_Ret in Hload.
  destruct Hload as (w & Hext & ->).
  destruct Hext as (_ & _ & _ & ds & ss & Eds & Ess & _ & Hpair).
  cbn in Eds, Ess, Hpair. specialize (Hpair Hd Hs). rewrite Hc in Hpair.
  exists ss. split; [exact Ess |].
  cbn [VoxFile.dense_models_ VoxFile.set_dense_models]. rewrite Eds.
  clear -Hpair. induction Hpair as [|d s ds ss [Hsz Hv] _ IH]; cbn [map]; constructor.
  - split; [exact Hsz | apply Hv; reflexivity].
  - exact IH.
Qed.

End Claims.

Section Failures.

Variable stale : nat -> byte.


(** The loop over the children of MAIN returns only on a good stream. *)
Lemma ReadMainLoop_Ret_good (fuel : nat) (end_pos : Z) (w w' : world) :
  0 <= end_pos ->
  ReadMainLoop stale fuel end_pos w = Ret w' -> failbit (file w') = false.
Proof.
  intros Hpos. revert w. induction fuel as [|fuel IH]; intros w H; [discriminate |].
  rewrite ReadMainLoop_S in H.
  destruct (Z.ltb_spec (tellg (file w)) end_pos) as [Hlt | Hge].
  - destruct (ReadChunk stale fuel w) as [w1 | e w1 |]; cbn [bind] in H;
      [| discriminate | discriminate].
    apply (IH w1 H).
  - injection H as <-. unfold tellg in Hge.
    destruct (failbit (file w)); [lia | reflexivity].
Qed.

(** So does a chunk whose id reads MAIN. *)
Lemma ReadChunk_MAIN_Ret_good (fuel : nat) (w w' : world) :
  String.eqb (String.string_of_list_byte (c_str (fst (read stale 4 (file w)))))
    "MAIN"%string = true ->
  ReadChunk stale fuel w = Ret w' -> failbit (file w') = false.
Proof.
  intros Hid H. destruct fuel as [|fuel]; [discriminate |].
  rewrite ReadChunk_S in H. unfold read_header in H.
  destruct (read stale 4 (file w)) as [id s1]. cbn [fst] in Hid.
  destruct (le_u32read stale s1) as [cs s2].
  destruct (le_u32read stale s2) as [ch s3].
  unfold handle_chunk in H. cbv zeta in H. rewrite Hid in H.
  destruct (ReadMainLoop stale fuel _ _) as [w2 | e w2 |] eqn:Hloop;
    cbn [bind] in H; [| discriminate | discriminate].
  injection H as <-. cbn [file with_file]. rewrite seekg_failbit.
  apply (ReadMainLoop_Ret_good _ _ _ _ (proj1 (u32_range _)) Hloop).
Qed.

(** C9 (amended).  [Load] raises no I/O error: the only exceptions it throws
    are [out_of_range] and the [VoxException] of the signature check, whose
    text quotes the four bytes the signature read left in its buffer.  A
    read past the end of the data, or from a file that could not be opened,
    raises nothing by itself and is reported nowhere.  What follows depends
    on the top-level chunk: when the id read for it (behind the signature
    and the version, at [s1]) is MAIN, a load that returns normally has
    opened its file and left the stream good, so that no read of the whole
    load ran past the end of the data; after such a read a load of a MAIN
    chunk throws or does not terminate. *)
Theorem Load_raises_no_io_error (fuel : nat) (v : VoxFile.t)
    (path : option (list byte)) :
  let s1 := snd (le_i32read stale (snd (read stale 4 (open path)))) in
  (forall (e : exn) (v' : VoxFile.t),
     Load stale fuel v path = Throws e v' ->
     e = out_of_range \/
     e = VoxException (chunk_id_mismatch "VOX "%string
                         (fst (read stale 4 (open path))))) /\
  (forall v' : VoxFile.t,
     Load stale fuel v path = Ret v' ->
     String.eqb (String.string_of_list_byte (c_str (fst (read stale 4 s1))))
       "MAIN"%string = true ->
     failbit (open path) = false /\
     exists w : world,
       ReadChunk stale fuel (mk_world (VoxFile.set_dense_models [] v) s1) = Ret w /\
       failbit (file w) = false).
Proof.
  intros s1. split.
  - intros e v' H. apply Load_Throws in H.
    destruct H as [[He _] | [He _]]; [right | left]; exact He.
  - intros v' H Hid. unfold Load in H.
    pose proof (ReadId_VOX stale (mk_world (VoxFile.set_dense_models [] v) (open path)))
      as Hsig. cbn [file] in Hsig.
    subst s1. unfold le_i32read in *.
    destruct (read stale 4 (open path)) as [fid sA] eqn:EA. cbn [snd] in *.
    destruct Hsig as [Hsig | Hsig]; rewrite Hsig in H; cbn [bind] in H;
      [| discriminate].
    cbn [file with_file this] in H.
    destruct (le_u32read stale sA) as [ver sB] eqn:EB. cbn [snd] in *.
    unfold with_file in H. cbn [this] in H.
    destruct (ReadChunk stale fuel (mk_world (VoxFile.set_dense_models [] v) sB))
      as [w | e w |] eqn:Hc; [| discriminate | discriminate].
    pose proof (ReadChunk_MAIN_Ret_good fuel
                  (mk_world (VoxFile.set_dense_models [] v) sB) w Hid Hc) as Hgood.
    split; [| exists w; split; [reflexivity | exact Hgood]].
    destruct (failbit (open path)) eqn:Hopen; [| reflexivity].
    pose proof (read_sticky stale 4 (open path) Hopen) as HA.
    rewrite EA in HA. cbn [snd] in HA.
    pose proof (read_sticky stale 4 sA HA) as HB.
    unfold le_u32read in EB. destruct (read stale 4 sA) as [d sB'].
    injection EB as _ <-. cbn [snd] in HB.
    destruct (ReadChunk_sticky stale fuel) as [Hs _].
    specialize (Hs (mk_world (VoxFile.set_dense_models [] v) sB')).
    rewrite Hc in Hs. cbn [outcome_rel] in Hs. rewrite (Hs HB) in Hgood.
    discriminate.
Qed.

End Failures.


(** ** Records inside the declared size *)

Lemma index_in_size (size : Size) (x y z : Z) :
  0 <= x < Vec3i.x size -> 0 <= y < Vec3i.y size -> 0 <= z < Vec3i.z size ->
  Vec3i.x size * Vec3i.y size * Vec3i.z size < 2 ^ 32 ->
  VoxDenseModel.index size x y z = x + y * Vec3i.x size + z * Vec3i.x size * Vec3i.y size /\
  VoxDenseModel.index size x y z < cells size.
Proof.
  intros Hx Hy Hz Hsmall. destruct size as [sx sy sz]. cbn [Vec3i.x Vec3i.y Vec3i.z] in *.
  unfold VoxDenseModel.index, cells. cbn [Vec3i.x Vec3i.y Vec3i.z].
  assert (Hxy : 0 <= sx * sy) by (apply Z.mul_nonneg_nonneg; lia).
  assert (H1 : y * sx <= (sy - 1) * sx) by (apply Z.mul_le_mono_nonneg_r; lia).
  assert (H2 : z * (sx * sy) <= (sz - 1) * (sx * sy))
    by (apply Z.mul_le_mono_nonneg_r; lia).
  assert (H3 : 0 <= y * sx) by (apply Z.mul_nonneg_nonneg; lia).
  assert (H4 : 0 <= z * (sx * sy)) by (apply Z.mul_nonneg_nonneg; lia).
  rewrite <- !Z.mul_assoc.
  assert (Hlt : x + y * sx + z * (sx * sy) < sx * (sy * sz)).
  { replace (sx * (sy * sz)) with ((sz - 1) * (sx * sy) + (sy - 1) * sx + sx) by ring.
    lia. }
  rewrite !u32_small by lia. split; [reflexivity | exact Hlt].
Qed.

Lemma in_size_cell (size : Size) (v : Voxel.t) :
  Vec3i.x size * Vec3i.y size * Vec3i.z size < 2 ^ 32 ->
  in_size size v -> cell size v < cells size.
Proof.
  intros Hsmall (Hx & Hy & Hz). unfold cell.
  pose proof (u8_range (Voxel.x v)). pose proof (u8_range (Voxel.y v)).
  pose proof (u8_range (Voxel.z v)).
  apply index_in_size; lia.
Qed.

Lemma size_bounds (size : Size) :
  0 < Vec3i.x size -> 0 < Vec3i.y size -> 0 < Vec3i.z size ->
  Vec3i.x size * Vec3i.y size * Vec3i.z size < 2 ^ 32 ->
  0 < Vec3i.x size < 2 ^ 32 /\ 0 < Vec3i.y size < 2 ^ 32 /\
  0 < Vec3i.z size < 2 ^ 32.
Proof.
  destruct size as [sx sy sz]. cbn [Vec3i.x Vec3i.y Vec3i.z].
  intros Px Py Pz Hsmall.
  assert (Hxy : 0 < sx * sy) by (apply Z.mul_pos_pos; lia).
  assert (H1 : sx * sy * 1 <= sx * sy * sz) by (apply Z.mul_le_mono_nonneg_l; lia).
  assert (H2 : sx * 1 <= sx * sy) by (apply Z.mul_le_mono_nonneg_l; lia).
  assert (H3 : 1 * sy <= sx * sy) by (apply Z.mul_le_mono_nonneg_r; lia).
  assert (H4 : 1 * sz <= sx * sy * sz) by (apply Z.mul_le_mono_nonneg_r; lia).
  lia.
Qed.

(** A grid of the right length has a cell at every coordinate inside its
    size. *)
Lemma voxel_in_size (d : VoxDenseModel.t) (x y z : Z) :
  let size := VoxDenseModel.size_ d in
  Z.of_nat (length (VoxDenseModel.voxels_ d)) = cells size ->
  Vec3i.x size * Vec3i.y size * Vec3i.z size < 2 ^ 32 ->
  0 <= x < Vec3i.x size -> 0 <= y < Vec3i.y size -> 0 <= z < Vec3i.z size ->
  exists b : bool, nonzero (VoxDenseModel.voxel d x y z) = Some b.
Proof.
  intros size Hlen Hsmall Hx Hy Hz.
  destruct (index_in_size size x y z Hx Hy Hz Hsmall) as [_ Hlt].
  unfold VoxDenseModel.voxel. fold size.
  destruct (Z.ltb_spec (VoxDenseModel.index size x y z)
              (Z.of_nat (length (VoxDenseModel.voxels_ d)))) as [H | H]; [| lia].
  destruct (VoxDenseModel.voxels_ d !! Z.to_nat (VoxDenseModel.index size x y z))
    as [b|] eqn:Hb.
  - eexists. reflexivity.
  - apply lookup_ge_None in Hb.
    pose proof (index_nonneg size x y z). lia.
Qed.

(** On such a grid the culler's condition never throws at a record inside
    the size. *)
Lemma hidden_in_size (d : VoxDenseModel.t) (v : Voxel.t) :
  let size := VoxDenseModel.size_ d in
  Z.of_nat (length (VoxDenseModel.voxels_ d)) = cells size ->
  Vec3i.x size * Vec3i.y size * Vec3i.z size < 2 ^ 32 ->
  in_size size v ->
  exists b : bool, hidden d v = Some b.
Proof.
  intros size Hlen Hsmall (Hx & Hy & Hz).
  pose proof (u8_range (Voxel.x v)) as Rx. pose proof (u8_range (Voxel.y v)) as Ry.
  pose proof (u8_range (Voxel.z v)) as Rz.
  destruct (size_bounds size) as (Hsx & Hsy & Hsz); [lia | lia | lia | exact Hsmall |].
  unfold hidden. fold size.
  rewrite !(u32_small (_ - 1)) by lia.
  repeat
    match goal with
    | |- exists b, Some ?c = Some b => exists c; reflexivity
    | |- context [Some (?a <? ?b)] =>
        destruct (Z.ltb_spec a b); cbn [and_then]
    | |- context [nonzero (VoxDenseModel.voxel d ?x ?y ?z)] =>
        let c := fresh "c" in
        let Hc := fresh "Hc" in
        destruct (voxel_in_size d x y z Hlen Hsmall) as [c Hc];
        [fold size; lia | fold size; lia | fold size; lia |];
        rewrite Hc; destruct c; cbn [and_then]
    end.
Qed.

Lemma RemoveHiddenVoxels_returns (dense : VoxDenseModel.t)
    (sparse : VoxSparseModel.t) (voxels : list Voxel.t) :
  let size := VoxDenseModel.size_ dense in
  Z.of_nat (length (VoxDenseModel.voxels_ dense)) = cells size ->
  Vec3i.x size * Vec3i.y size * Vec3i.z size < 2 ^ 32 ->
  Forall (in_size size) voxels ->
  exists r, RemoveHiddenVoxels dense sparse voxels = Some r.
Proof.
  intros size Hlen Hsmall Hall. subst size.
  revert dense sparse Hlen Hsmall Hall.
  induction voxels as [|v voxels IH]; intros dense sparse Hlen Hsmall Hall.
  - eexists. reflexivity.
  - inversion Hall as [|? ? Hv Hvs]; subst. cbn [RemoveHiddenVoxels].
    destruct (hidden_in_size dense v Hlen Hsmall Hv) as [[|] ->].
    + destruct (VoxDenseModel.set_voxel dense (u8 (Voxel.x v)) (u8 (Voxel.y v))
                  (u8 (Voxel.z v)) x00) as [dense'|] eqn:Hset.
      * apply set_voxel_Some in Hset. destruct Hset as [_ ->].
        apply IH; cbn [VoxDenseModel.size_ VoxDenseModel.voxels_].
        -- rewrite length_insert. exact Hlen.
        -- exact Hsmall.
        -- exact Hvs.
      * apply set_voxel_None in Hset.
        pose proof (in_size_cell _ v Hsmall Hv) as Hc. unfold cell in Hc. lia.
    + apply IH; assumption.
Qed.

Section Totality.

Variable stale : nat -> byte.

(** X1.  An XYZI chunk whose records all lie inside the pending size, the
    size product fitting 32 bits, is decoded without error, with or without
    hidden-voxel removal. *)
Theorem ReadXyziChunk_returns (w : world) :
  let size := VoxFile.cur_size_ (this w) in
  Vec3i.x size * Vec3i.y size * Vec3i.z size < 2 ^ 32 ->
  Forall (in_size size) (records stale (file w)) ->
  exists w' : world, ReadXyziChunk stale w = Ret w'.
Proof.
  intros size Hsmall Hall.
  assert (Hcells : Forall (fun v => cell size v < cells size) (records stale (file w))).
  { eapply List.Forall_impl; [| exact Hall]. intros v Hv. apply in_size_cell; assumption. }
  destruct (ReadXyziChunk_good stale w Hcells) as [s ->]. fold size.
  destruct (VoxFile.remove_hidden_voxels_ (this w)).
  - destruct (RemoveHiddenVoxels_returns (decoded size (records stale (file w)))
                (VoxSparseModel.new size) (records stale (file w))) as [[d sp] ->].
    + cbn [decoded VoxDenseModel.voxels_ VoxDenseModel.size_]. apply replay_length.
    + exact Hsmall.
    + exact Hall.
    + eexists. reflexivity.
  - eexists. reflexivity.
Qed.

End Totality.

Lemma u8_inj (b c : byte) : u8 b = u8 c -> b = c.
Proof.
  unfold u8. intros H. apply N2Z.inj in H.
  pose proof (Byte.of_to_N b) as Hb. pose proof (Byte.of_to_N c) as Hc.
  rewrite H in Hb. congruence.
Qed.

(** Inside the size, the flat index is injective when the size product fits
    32 bits. *)
Lemma in_size_cell_inj (size : Size) (v u : Voxel.t) :
  Vec3i.x size * Vec3i.y size * Vec3i.z size < 2 ^ 32 ->
  in_size size v -> in_size size u ->
  same_cell size v u = true -> same_coord v u = true.
Proof.
  intros Hsmall (Hvx & Hvy & Hvz) (Hux & Huy & Huz) Hcell.
  unfold same_cell in Hcell. apply Z.eqb_eq in Hcell. unfold cell in Hcell.
  pose proof (u8_range (Voxel.x v)). pose proof (u8_range (Voxel.y v)).
  pose proof (u8_range (Voxel.z v)). pose proof (u8_range (Voxel.x u)).
  pose proof (u8_range (Voxel.y u)). pose proof (u8_range (Voxel.z u)).
  destruct (index_in_size size (u8 (Voxel.x v)) (u8 (Voxel.y v)) (u8 (Voxel.z v)))
    as [Ev _]; try lia.
  destruct (index_in_size size (u8 (Voxel.x u)) (u8 (Voxel.y u)) (u8 (Voxel.z u)))
    as [Eu _]; try lia.
  rewrite Ev, Eu in Hcell. clear Ev Eu.
  destruct size as [sx sy sz]. cbn [Vec3i.x Vec3i.y Vec3i.z] in *.
  destruct (Z.div_mod_unique sx
              (u8 (Voxel.y v) + sy * u8 (Voxel.z v))
              (u8 (Voxel.y u) + sy * u8 (Voxel.z u))
              (u8 (Voxel.x v)) (u8 (Voxel.x u))) as [Hq Hx]; [lia | lia | lia |].
  destruct (Z.div_mod_unique sy (u8 (Voxel.z v)) (u8 (Voxel.z u))
              (u8 (Voxel.y v)) (u8 (Voxel.y u))) as [Hz Hy]; [lia | lia | lia |].
  apply u8_inj in Hx, Hy, Hz. unfold same_coord.
  rewrite Hx, Hy, Hz, !byte_eqb_refl. reflexivity.
Qed.

(** X4.  Inside the declared size, the size product fitting 32 bits, two
    records address the same flat cell only when they have the same
    coordinates. *)
Theorem in_size_same_cell (size : Size) (v u : Voxel.t) :
  Vec3i.x size * Vec3i.y size * Vec3i.z size < 2 ^ 32 ->
  in_size size v -> in_size size u ->
  same_cell size v u = true -> same_coord v u = true.
Proof. apply in_size_cell_inj. Qed.

Section Fuel.

Variable stale : nat -> byte.

(** More fuel never changes an outcome that was reached. *)
Lemma ReadChunk_fuel_mono (fuel : nat) :
  (forall w r, ReadChunk stale fuel w = r -> r <> OutOfFuel ->
     forall fuel', (fuel <= fuel')%nat -> ReadChunk stale fuel' w = r) /\
  (forall end_pos w r, ReadMainLoop stale fuel end_pos w = r -> r <> OutOfFuel ->
     forall fuel', (fuel <= fuel')%nat -> ReadMainLoop stale fuel' end_pos w = r).
Proof.
  induction fuel as [|fuel [IHc IHl]].
  - split; intros; subst; contradiction.
  - split.
    + intros w r Hr Hne [|fuel'] Hle; [lia |].
      rewrite ReadChunk_S in *.
      destruct (read_header stale (file w)) as [[[id cs] ch] s3].
      assert (Hh : handle_chunk stale fuel id cs ch (with_file w s3) <> OutOfFuel).
      { intros E. rewrite E in Hr. subst r. contradiction. }
      assert (Eh : handle_chunk stale fuel' id cs ch (with_file w s3) =
                   handle_chunk stale fuel id cs ch (with_file w s3)).
      { unfold handle_chunk in *. cbv zeta in *.
        destruct (String.eqb _ "MAIN"%string); [| reflexivity].
        apply (IHl _ _ _ eq_refl Hh). lia. }
      rewrite Eh. exact Hr.
    + intros end_pos w r Hr Hne [|fuel'] Hle; [lia |].
      rewrite ReadMainLoop_S in *.
      destruct (tellg (file w) <? end_pos); [| exact Hr].
      assert (Hc : ReadChunk stale fuel w <> OutOfFuel).
      { intros E. rewrite E in Hr. subst r. contradiction. }
      rewrite (IHc w _ eq_refl Hc fuel') by lia.
      destruct (ReadChunk stale fuel w) as [w1 | e w1 |]; cbn [bind] in *.
      * apply (IHl _ _ _ Hr Hne). lia.
      * exact Hr.
      * contradiction.
Qed.

(** The outcome of a load does not depend on the fuel, once there is enough
    of it. *)
Lemma Load_fuel_mono (fuel fuel' : nat) (v : VoxFile.t)
    (path : option (list byte)) (r : result VoxFile.t) :
  Load stale fuel v path = r -> r <> OutOfFuel -> (fuel <= fuel')%nat ->
  Load stale fuel' v path = r.
Proof.
  unfold Load. intros Hr Hne Hle.
  destruct (ReadId stale "VOX "%string _) as [w1 | e w1 |]; cbn [bind] in *;
    [| exact Hr | exact Hr].
  destruct (le_i32read stale (file w1)) as [version s].
  assert (Hc : ReadChunk stale fuel (with_file w1 s) <> OutOfFuel).
  { intros E. rewrite E in Hr. subst r. contradiction. }
  rewrite (proj1 (ReadChunk_fuel_mono fuel) _ _ eq_refl Hc fuel' Hle). exact Hr.
Qed.

End Fuel.

Section Palette.

Variable stale : nat -> byte.

(** X2.  After a successful load every dense model carries the palette the
    loader ends with. *)
Theorem Load_stamps_dense_models (fuel : nat) (v v' : VoxFile.t)
    (path : option (list byte)) :
  Load stale fuel v path = Ret v' ->
  Forall (fun d => VoxDenseModel.palette_ d = Some (VoxFile.palette_ v'))
    (VoxFile.dense_models_ v').
Proof.
  intros H. apply Load_Ret in H. destruct H as (w & _ & ->).
  cbn [VoxFile.dense_models_ VoxFile.palette_ VoxFile.set_dense_models].
  apply List.Forall_forall. intros d Hd. apply List.in_map_iff in Hd.
  destruct Hd as (d0 & <- & _). reflexivity.
Qed.

(** X3.  A read that needs more bytes than the data still holds raises
    nothing: it hands back a full buffer, sets the fail bit, and from then
    on the position reads -1 and a seek changes nothing. *)
Theorem short_read_fails_silently (n : nat) (s : ifstream) :
  (length (available n s) < n)%nat ->
  length (fst (read stale n s)) = n /\
  failbit (snd (read stale n s)) = true /\
  tellg (snd (read stale n s)) = -1 /\
  forall pos : Z, seekg pos (snd (read stale n s)) = snd (read stale n s).
Proof.
  intros H. pose proof (read_short stale n s H) as Hf.
  split.
  { unfold read. cbn [fst]. rewrite length_app, length_map, length_seq. lia. }
  split; [exact Hf |]. split; [apply tellg_failed; exact Hf |].
  intros pos. unfold seekg. rewrite Hf. reflexivity.
Qed.

End Palette.

Section Unopened.

Variable stale : nat -> byte.

(** X5.  A path that cannot be opened is reported by the signature check:
    unless the four stale bytes of its buffer happen to spell the signature,
    [Load] fails with the chunk-id mismatch, having cleared the dense
    collection. *)
Theorem Load_unopened (fuel : nat) (v : VoxFile.t) :
  map stale (seq 0 4) <> String.list_byte_of_string "VOX "%string ->
  Load stale fuel v None =
    Throws (VoxException (chunk_id_mismatch "VOX "%string (map stale (seq 0 4))))
      (VoxFile.set_dense_models [] v).
Proof.
  intros Hne. unfold Load, ReadId.
  cbn [String.length Nat.eqb negb open file].
  rewrite read_failed by reflexivity. cbn [nstale].
  cbn [seq map nth String.list_byte_of_string] in *.
  change (String.list_byte_of_string "VOX "%string) with [x56; x4f; x58; x20] in *.
  cbn [nth].
  destruct (byte_eqb_spec (stale 0%nat) x56) as [E0 | N0]; [| reflexivity].
  destruct (byte_eqb_spec (stale 1%nat) x4f) as [E1 | N1]; [| reflexivity].
  destruct (byte_eqb_spec (stale 2%nat) x58) as [E2 | N2]; [| reflexivity].
  destruct (byte_eqb_spec (stale 3%nat) x20) as [E3 | N3]; [| reflexivity].
  exfalso. apply Hne. rewrite E0, E1, E2, E3. reflexivity.
Qed.

End Unopened.
Section Duplicates.

Variable stale : nat -> byte.

(** ** C10: duplicate records *)


(** X27.  On a loader whose sparse collection is empty, a fresh loader in
    particular, a successful load with both outputs requested and no culling
    leaves the dense and the sparse models paired by equal index: each dense
    grid is the replay of the voxel list of the sparse model at the same
    index, which has the same size. *)
Theorem Load_roundtrip_same_index (fuel : nat) (v v' : VoxFile.t)
    (path : option (list byte)) :
  VoxFile.load_dense_ v = true ->
  VoxFile.load_sparse_ v = true ->
  VoxFile.remove_hidden_voxels_ v = false ->
  VoxFile.sparse_models_ v = [] ->
  Load stale fuel v path = Ret v' ->
  Forall2 (fun d s =>
             VoxDenseModel.size_ d = VoxSparseModel.size_ s /\
             VoxDenseModel.voxels_ d =
               replay (VoxSparseModel.size_ s) (VoxSparseModel.voxels_ s))
          (VoxFile.dense_models_ v') (VoxFile.sparse_models_ v').
Proof.
  intros Hd Hs Hc Hfresh Hload. apply Load_Ret in Hload.
  destruct Hload as (w & Hext & ->).
  destruct Hext as (_ & _ & _ & ds & ss & Eds & Ess & _ & Hpair).
  cbn in Eds, Ess, Hpair. specialize (Hpair Hd Hs). rewrite Hc in Hpair.
  rewrite Hfresh in Ess. cbn [app] in Ess.
  cbn [VoxFile.dense_models_ VoxFile.sparse_models_ VoxFile.set_dense_models].
  rewrite Eds, Ess.
  clear -Hpair. induction Hpair as [|d s ds ss [Hsz Hv] _ IH]; cbn [map]; constructor.
  - split; [exact Hsz | apply Hv; reflexivity].
  - exact IH.
Qed.

End Duplicates.

(** * The claims on concrete files *)

(** ** Counterexamples to the claims as stated *)

(** C2, as stated, fails on a 2 x 2 x 2 model whose only record is
    (2,0,0,5): x = 2 is not below size.x = 2, yet the load returns, and the
    colour was written into flat cell 2, the cell of (0,1,0). *)
Lemma x_outside_is_written :
  exists v : VoxFile.t,
    Load zeros 4 (VoxFile.new true true false) (Some file_x_outside) = Ret v /\
    map VoxDenseModel.size_ (VoxFile.dense_models_ v) = [Vec3i.mk 2 2 2] /\
    map VoxSparseModel.voxels_ (VoxFile.sparse_models_ v) =
      [[voxel_of (2, 0, 0, 5)]] /\
    map VoxDenseModel.voxels_ (VoxFile.dense_models_ v) =
      [[x00; x00; x05; x00; x00; x00; x00; x00]] /\
    map (fun d => VoxDenseModel.voxel d 0 1 0) (VoxFile.dense_models_ v) =
      [Some x05].
Proof.
  exists_loader (Load zeros 4 (VoxFile.new true true false) (Some file_x_outside)).
  repeat split; by_computation.
Qed.

(** C3, as stated, fails on a SIZE chunk cut short.  The chunk starts at
    offset 8, its header ends at [contents_start] = 20 and declares 12 bytes
    of contents and no children, but the file ends at offset 24.  Whatever
    the stale buffers hold, the chunk is processed without error, and the
    cursor afterwards reads -1, not 20 + 12 + 0: the second integer of the
    handler ran past the end, the stream failed, and the final seek did
    nothing. *)
Lemma cursor_after_cut_chunk :
  let s := seekg 8 (open (Some file_cut_size)) in
  (gpos s = 8 /\ length (contents s) = 24%nat) /\
  forall stale : nat -> byte,
    exists (w' : world) (s3 : ifstream),
      read_header stale s =
        (String.list_byte_of_string "SIZE"%string, 12, 0, s3) /\
      tellg s3 = 20 /\
      ReadChunk stale 1 (mk_world (VoxFile.new true true true) s) = Ret w' /\
      tellg (file w') = -1.
Proof.
  cbv zeta. split; [split; reflexivity |]. intros stale.
  let f := eval vm_compute in file_cut_size in change file_cut_size with f.
  eexists. eexists. split; [by_computation |]. split; [by_computation |].
  split.
  - run_folded. reflexivity.
  - reflexivity.
Qed.


(** C9, as stated, fails on the 24-byte file whose SIZE chunk is cut after
    the first of its three integers: the second and third integer need bytes
    24 to 31, beyond the end of the data, and, whatever the stale buffers
    hold, the load returns normally, its pending size read from what was
    there and from those buffers. *)
Lemma cut_file_loads :
  length file_cut_size = 24%nat /\
  forall stale : nat -> byte,
    exists v : VoxFile.t,
      Load stale 1 (VoxFile.new true true true) (Some file_cut_size) = Ret v /\
      Vec3i.x (VoxFile.cur_size_ v) = 3.
Proof.
  split; [reflexivity |]. intros stale.
  let f := eval vm_compute in file_cut_size in change file_cut_size with f.
  eexists. split.
  - run_folded. reflexivity.
  - by_computation.
Qed.


(** ** The code against the claims it breaks *)

(** C1.  A full 4 x 3 x 3 box of colour 7 is loaded.  In the decoded grid
    (the grid a load without culling returns) the voxel (2,1,1) is strictly
    interior with its six neighbours non-empty, yet the load with culling
    keeps it: the sparse list is the whole box minus (1,1,1) only, because
    the cell of (1,1,1) was cleared before (2,1,1) was examined. *)
Theorem culling_keeps_enclosed_voxel :
  let grid := decoded (Vec3i.mk 4 3 3) (map voxel_of (box 4 3 3 7)) in
  exists unculled culled : VoxFile.t,
    Load zeros 4 (VoxFile.new true true false) (Some file_box_4x3x3) =
      Ret unculled /\
    map VoxDenseModel.voxels_ (VoxFile.dense_models_ unculled) =
      [VoxDenseModel.voxels_ grid] /\
    enclosed grid (voxel_of (2, 1, 1, 7)) /\
    Load zeros 4 (VoxFile.new true true true) (Some file_box_4x3x3) =
      Ret culled /\
    map VoxSparseModel.voxels_ (VoxFile.sparse_models_ culled) =
      [map voxel_of
         (List.filter
            (fun t => let '(x, y, z, _) := t in
                      negb ((x =? 1) && (y =? 1) && (z =? 1)))
            (box 4 3 3 7))].
Proof.
  cbv zeta.
  exists_loader (Load zeros 4 (VoxFile.new true true false) (Some file_box_4x3x3)).
  exists_loader (Load zeros 4 (VoxFile.new true true true) (Some file_box_4x3x3)).
  split; [by_computation |]. split; [by_computation |].
  split; [apply hidden_true; by_computation |].
  split; by_computation.
Qed.

(** C4.  A loader with both outputs and no culling loads the one-voxel file
    and then, successfully, the file with a shared cell.  The second load
    cleared the dense collection but not the sparse one: the dense model at
    index 0 is the 2 x 2 x 2 grid of the second file, while the sparse model
    at index 0 is still the 1 x 1 x 1 model of the first file, whose replay
    is the single cell 5.  The replay of the sparse model at index 1 is the
    grid of the dense model at index 0. *)
Theorem second_load_breaks_pairing :
  exists v1 v2 : VoxFile.t,
    Load zeros 4 (VoxFile.new true true false) (Some file_one_voxel) = Ret v1 /\
    Load zeros 4 v1 (Some file_shared_cell) = Ret v2 /\
    map VoxDenseModel.voxels_ (VoxFile.dense_models_ v2) =
      [[x00; x00; x09; x00; x00; x00; x00; x00]] /\
    map (fun s => replay (VoxSparseModel.size_ s) (VoxSparseModel.voxels_ s))
        (VoxFile.sparse_models_ v2) =
      [[x05]; [x00; x00; x09; x00; x00; x00; x00; x00]].
Proof.
  exists_loader (Load zeros 4 (VoxFile.new true true false) (Some file_one_voxel)).
  exists_loader
    (Load zeros 4
       (default (VoxFile.new true true false)
          (returned (Load zeros 4 (VoxFile.new true true false)
                       (Some file_one_voxel))))
       (Some file_shared_cell)).
  repeat split; by_computation.
Qed.

(** C5.  A fresh loader loads a file with one model and an RGBA chunk of
    grey levels.  The dense model carries the loaded palette, whose entry 1
    is (0,0,0,255); the sparse model still carries the default palette its
    constructor copied, whose entry 1 is (0xcc,0xff,0xff,0xff). *)
Theorem sparse_palette_not_stamped :
  exists v : VoxFile.t,
    Load zeros 5 (VoxFile.new true true false) (Some file_with_palette) = Ret v /\
    VoxFile.palette_ v !! 1%nat = Some (Color.mk x00 x00 x00 xff) /\
    map VoxDenseModel.palette_ (VoxFile.dense_models_ v) =
      [Some (VoxFile.palette_ v)] /\
    map VoxSparseModel.palette_ (VoxFile.sparse_models_ v) = [kDefaultPalette] /\
    kDefaultPalette !! 1%nat = Some (Color.mk xcc xff xff xff).
Proof.
  exists_loader (Load zeros 5 (VoxFile.new true true false) (Some file_with_palette)).
  repeat split; by_computation.
Qed.

(** C6.  The same one-model file is loaded twice into one loader.  After the
    second load the dense collection holds one model and the sparse
    collection two: the sparse model of the first load was not cleared. *)
Theorem second_load_keeps_sparse_models :
  exists v1 v2 : VoxFile.t,
    Load zeros 4 (VoxFile.new true true true) (Some file_one_voxel) = Ret v1 /\
    length (VoxFile.dense_models_ v1) = 1%nat /\
    length (VoxFile.sparse_models_ v1) = 1%nat /\
    Load zeros 4 v1 (Some file_one_voxel) = Ret v2 /\
    length (VoxFile.dense_models_ v2) = 1%nat /\
    length (VoxFile.sparse_models_ v2) = 2%nat.
Proof.
  exists_loader (Load zeros 4 (VoxFile.new true true true) (Some file_one_voxel)).
  exists_loader
    (Load zeros 4
       (default (VoxFile.new true true true)
          (returned (Load zeros 4 (VoxFile.new true true true)
                       (Some file_one_voxel))))
       (Some file_one_voxel)).
  repeat split; by_computation.
Qed.

(** C8.  A file whose only record has colour index 0 is loaded, with or
    without culling: the sparse list holds that record. *)
Theorem sparse_list_has_empty_voxel (cull : bool) :
  exists v : VoxFile.t,
    Load zeros 4 (VoxFile.new true true cull) (Some file_empty_voxel) = Ret v /\
    map VoxSparseModel.voxels_ (VoxFile.sparse_models_ v) =
      [[Voxel.mk x00 x00 x00 x00]].
Proof.
  destruct cull.
  - exists_loader (Load zeros 4 (VoxFile.new true true true) (Some file_empty_voxel)).
    split; by_computation.
  - exists_loader (Load zeros 4 (VoxFile.new true true false) (Some file_empty_voxel)).
    split; by_computation.
Qed.

(** ** Instances of the theorems *)

(** X6 on a full 3 x 3 x 3 box: the chunk is decoded, and there is a flag
    for each of its 27 records. *)
Lemma ReadXyziChunk_culls_witness :
  exists omitted : list bool, length omitted = 27%nat.
Proof.
  pose (w := at_xyzi (VoxFile.new true true true) (Vec3i.mk 3 3 3) (box 3 3 3 7)).
  let r := eval vm_compute in (ReadXyziChunk zeros w) in
  lazymatch r with
  | Ret ?w' =>
      destruct (ReadXyziChunk_culls zeros w w' eq_refl ltac:(by_computation))
        as (dense & sparse & omitted & _ & Hlen & _)
  end.
  exists omitted. exact Hlen.
Defined.

(** C2 on a 2 x 2 x 2 model with the record (0,0,2,5), whose flat cell is
    8: the chunk throws. *)
Lemma ReadXyziChunk_out_of_range_witness :
  exists s : ifstream,
    ReadXyziChunk zeros
      (at_xyzi (VoxFile.new true true false) (Vec3i.mk 2 2 2) [(0, 0, 2, 5)]) =
    Throws out_of_range
      (with_file (at_xyzi (VoxFile.new true true false) (Vec3i.mk 2 2 2)
                    [(0, 0, 2, 5)]) s).
Proof.
  apply (ReadXyziChunk_out_of_range zeros _ (voxel_of (0, 0, 2, 5))).
  - vm_compute. left. reflexivity.
  - vm_compute. discriminate.
Defined.

(** C3 on the MAIN chunk of the one-voxel file: the cursor ends at the end
    of the file. *)
Lemma ReadChunk_next_chunk_pos_witness :
  exists w' : world,
    ReadChunk zeros 4
      (mk_world (VoxFile.new true true true)
         (seekg 8 (open (Some file_one_voxel)))) = Ret w' /\
    tellg (file w') = Z.of_nat (length file_one_voxel).
Proof.
  pose (w := mk_world (VoxFile.new true true true)
               (seekg 8 (open (Some file_one_voxel)))).
  let r := eval vm_compute in (ReadChunk zeros 4 w) in
  lazymatch r with
  | Ret ?w' =>
      exists w'; split; [by_computation |];
      pose proof (ReadChunk_next_chunk_pos zeros 4 w w' ltac:(by_computation) eq_refl)
        as H
  end.
  vm_compute in H. destruct H as [_ H]. vm_compute. exact H.
Defined.

(** X26 on the file with a shared cell. *)
Lemma Load_roundtrip_witness :
  exists (v' : VoxFile.t) (loaded : list VoxSparseModel.t),
    Load zeros 4 (VoxFile.new true true false) (Some file_shared_cell) = Ret v' /\
    VoxFile.sparse_models_ v' = loaded /\
    Forall2 (fun d s =>
               VoxDenseModel.size_ d = VoxSparseModel.size_ s /\
               VoxDenseModel.voxels_ d =
                 replay (VoxSparseModel.size_ s) (VoxSparseModel.voxels_ s))
            (VoxFile.dense_models_ v') loaded.
Proof.
  let r := eval vm_compute in
    (Load zeros 4 (VoxFile.new true true false) (Some file_shared_cell)) in
  lazymatch r with
  | Ret ?v' =>
      exists v';
      destruct (Load_roundtrip zeros 4 (VoxFile.new true true false) v'
                  (Some file_shared_cell) eq_refl eq_refl eq_refl
                  ltac:(by_computation)) as (loaded & Hs & Hpairs)
  end.
  exists loaded. split; [by_computation |]. split; [exact Hs | exact Hpairs].
Defined.


(** C9 on a path that cannot be opened: the load fails at the signature
    check. *)
Lemma Load_raises_no_io_error_witness :
  exists v' : VoxFile.t,
    Load zeros 1 (VoxFile.new true true true) None =
    Throws (VoxException
              (chunk_id_mismatch "VOX "%string
                 (fst (read zeros 4 (open None))))) v'.
Proof.
  let r := eval vm_compute in (Load zeros 1 (VoxFile.new true true true) None) in
  lazymatch r with
  | Throws ?e ?v' =>
      exists v';
      destruct (proj1 (Load_raises_no_io_error zeros 1 (VoxFile.new true true true)
                         None) e v' ltac:(by_computation)) as [H | H]
  end.
  - discriminate H.
  - by_computation.
Defined.


(** X1 on a full 3 x 3 x 3 box, decoded with culling. *)
Lemma ReadXyziChunk_returns_witness :
  exists w' : world,
    ReadXyziChunk zeros
      (at_xyzi (VoxFile.new true true true) (Vec3i.mk 3 3 3) (box 3 3 3 7)) =
    Ret w'.
Proof.
  apply ReadXyziChunk_returns.
  - vm_compute. reflexivity.
  - vm_compute. repeat constructor.
Defined.

(** X2 on the file with a palette. *)
Lemma Load_stamps_dense_models_witness :
  exists v' : VoxFile.t,
    Load zeros 5 (VoxFile.new true true false) (Some file_with_palette) = Ret v' /\
    Forall (fun d => VoxDenseModel.palette_ d = Some (VoxFile.palette_ v'))
      (VoxFile.dense_models_ v').
Proof.
  let r := eval vm_compute in
    (Load zeros 5 (VoxFile.new true true false) (Some file_with_palette)) in
  lazymatch r with
  | Ret ?v' =>
      exists v'; split;
      [ by_computation
      | apply (Load_stamps_dense_models zeros 5 (VoxFile.new true true false) v'
                 (Some file_with_palette)); by_computation ]
  end.
Defined.

(** X3 on a read of four bytes from a stream of two. *)
Lemma short_read_fails_silently_witness :
  tellg (snd (read zeros 4 (open (Some [x01; x02])))) = -1.
Proof.
  apply (short_read_fails_silently zeros 4 (open (Some [x01; x02]))).
  vm_compute. repeat constructor.
Defined.

(** X4 on two records at (0,1,0) of a 2 x 2 x 2 model. *)
Lemma in_size_same_cell_witness :
  same_coord (voxel_of (0, 1, 0, 5)) (voxel_of (0, 1, 0, 6)) = true.
Proof.
  apply (in_size_same_cell (Vec3i.mk 2 2 2)).
  - vm_compute. reflexivity.
  - vm_compute. repeat constructor.
  - vm_compute. repeat constructor.
  - vm_compute. reflexivity.
Defined.

(** X5 with a buffer of zeros. *)
Lemma Load_unopened_witness :
  thrown (Load zeros 3 (VoxFile.new true true true) None) =
  Some (VoxException (chunk_id_mismatch "VOX "%string [x00; x00; x00; x00]),
        VoxFile.new true true true).
Proof.
  rewrite (Load_unopened zeros 3 (VoxFile.new true true true)).
  - reflexivity.
  - vm_compute. discriminate.
Defined.
(** ** Decoding integers and colours *)

(** Bytes packed least significant first. *)
Lemma lor_shiftl_add (a b k : Z) :
  0 <= k -> 0 <= a < 2 ^ k -> Z.lor a (Z.shiftl b k) = a + 2 ^ k * b.
Proof.
  intros Hk Ha. rewrite Z.shiftl_mul_pow2 by exact Hk.
  rewrite <- Z.lxor_lor, <- Z.add_nocarry_lxor; [lia | |];
    (apply Z.bits_inj'; intros i Hi; rewrite Z.land_spec, Z.bits_0;
     destruct (Z.lt_ge_cases i k) as [Hlt | Hge];
     [ rewrite Z.mul_pow2_bits_low by lia; apply andb_false_r
     | replace a with (a mod 2 ^ k) by (apply Z.mod_small; exact Ha);
       rewrite Z.mod_pow2_bits_high by lia; reflexivity ]).
Qed.

Lemma le_bytes_value (b0 b1 b2 b3 : byte) :
  u32 (Z.lor (Z.lor (Z.lor (u8 b0) (Z.shiftl (u8 b1) 8)) (Z.shiftl (u8 b2) 16))
         (Z.shiftl (u8 b3) 24)) =
  u8 b0 + 2 ^ 8 * u8 b1 + 2 ^ 16 * u8 b2 + 2 ^ 24 * u8 b3.
Proof.
  pose proof (u8_range b0). pose proof (u8_range b1).
  pose proof (u8_range b2). pose proof (u8_range b3).
  rewrite (lor_shiftl_add (u8 b0) (u8 b1) 8) by lia.
  rewrite (lor_shiftl_add _ (u8 b2) 16) by lia.
  rewrite (lor_shiftl_add _ (u8 b3) 24) by lia.
  apply u32_small. lia.
Qed.

Lemma to_u8_u8 (b : byte) : to_u8 (u8 b) = b.
Proof.
  unfold to_u8, u8. pose proof (Byte.to_N_bounded b).
  rewrite Z.mod_small by lia. rewrite N2Z.id, Byte.of_to_N. reflexivity.
Qed.

Lemma land_0xff (n : Z) : Z.land n 0xff = n mod 256.
Proof. change 0xff with (Z.ones 8). rewrite Z.land_ones by lia. reflexivity. Qed.

Section Reads.

Variable stale : nat -> byte.

(** A read of [n] bytes that the data still holds extracts them, advances
    the cursor by [n] and leaves the stream good. *)
Lemma read_full (n : nat) (s : ifstream) :
  failbit s = false -> 0 <= gpos s ->
  gpos s + Z.of_nat n <= Z.of_nat (length (contents s)) ->
  read stale n s =
    (take n (drop (Z.to_nat (gpos s)) (contents s)),
     mk_ifstream (contents s) (gpos s + Z.of_nat n) false (nstale s)).
Proof.
  intros Hf Hp Hn.
  assert (Ha : available n s = take n (drop (Z.to_nat (gpos s)) (contents s))).
  { unfold available. rewrite Hf.
    destruct (Z.leb_spec (Z.of_nat (length (contents s))) (gpos s)) as [Hle | Hlt];
      [| reflexivity].
    assert (n = 0%nat) as -> by lia. reflexivity. }
  assert (Hl : length (available n s) = n).
  { rewrite Ha, length_take, length_drop. lia. }
  unfold read. rewrite Hl, Hf, Nat.sub_diag, Ha. cbn [seq map negb orb Nat.eqb].
  rewrite app_nil_r, Nat.add_0_r. reflexivity.
Qed.

Lemma read_uint8_full (s : ifstream) (b : byte) :
  failbit s = false -> 0 <= gpos s ->
  contents s !! Z.to_nat (gpos s) = Some b ->
  read_uint8 stale s =
    (b, mk_ifstream (contents s) (gpos s + 1) false (nstale s)).
Proof.
  intros Hf Hp Hb. unfold read_uint8.
  pose proof (lookup_lt_Some _ _ _ Hb) as Hlt.
  rewrite read_full by (try assumption; lia).
  rewrite (drop_S _ b _ Hb). reflexivity.
Qed.

End Reads.

Section Decoding.

Variable stale : nat -> byte.

(** X7.  [le_u32read] on a good stream that still holds four bytes returns
    them as a little-endian number, advances the cursor by four and leaves
    the stream good. *)
Theorem le_u32read_little_endian (s : ifstream) (b0 b1 b2 b3 : byte) :
  failbit s = false -> 0 <= gpos s ->
  take 4 (drop (Z.to_nat (gpos s)) (contents s)) = [b0; b1; b2; b3] ->
  le_u32read stale s =
    (u8 b0 + 2 ^ 8 * u8 b1 + 2 ^ 16 * u8 b2 + 2 ^ 24 * u8 b3,
     mk_ifstream (contents s) (gpos s + 4) false (nstale s)) /\
  0 <= fst (le_u32read stale s) < 2 ^ 32.
Proof.
  intros Hf Hp Hb.
  assert (Hlen : gpos s + 4 <= Z.of_nat (length (contents s))).
  { apply (f_equal length) in Hb. rewrite length_take, length_drop in Hb.
    cbn [length] in Hb. lia. }
  unfold le_u32read.
  rewrite (read_full stale 4 s Hf Hp) by exact Hlen. rewrite Hb. cbn [nth].
  rewrite le_bytes_value. split; [reflexivity |]. cbn [fst].
  pose proof (u8_range b0). pose proof (u8_range b1).
  pose proof (u8_range b2). pose proof (u8_range b3). lia.
Qed.

End Decoding.

(** X8.  [Color(uint32_t)] takes the red channel from the least significant
    byte, then green, blue and alpha: it unpacks what packing the four
    channels in that order produces. *)
Theorem Color_of_u32_unpacks (r g b a : byte) :
  Color.of_u32 (u8 r + 2 ^ 8 * u8 g + 2 ^ 16 * u8 b + 2 ^ 24 * u8 a) =
  Color.mk r g b a.
Proof.
  pose proof (u8_range r). pose proof (u8_range g).
  pose proof (u8_range b). pose proof (u8_range a).
  unfold Color.of_u32. rewrite !land_0xff, !Z.shiftr_div_pow2 by lia.
  replace ((u8 r + 2 ^ 8 * u8 g + 2 ^ 16 * u8 b + 2 ^ 24 * u8 a) mod 256)
    with (u8 r) by (apply Z.mod_unique with (q := u8 g + 2 ^ 8 * u8 b + 2 ^ 16 * u8 a); lia).
  replace ((u8 r + 2 ^ 8 * u8 g + 2 ^ 16 * u8 b + 2 ^ 24 * u8 a) / 2 ^ 8)
    with (u8 g + 2 ^ 8 * u8 b + 2 ^ 16 * u8 a)
    by (apply Z.div_unique with (r := u8 r); lia).
  replace ((u8 r + 2 ^ 8 * u8 g + 2 ^ 16 * u8 b + 2 ^ 24 * u8 a) / 2 ^ 16)
    with (u8 b + 2 ^ 8 * u8 a)
    by (apply Z.div_unique with (r := u8 r + 2 ^ 8 * u8 g); lia).
  replace ((u8 r + 2 ^ 8 * u8 g + 2 ^ 16 * u8 b + 2 ^ 24 * u8 a) / 2 ^ 24)
    with (u8 a)
    by (apply Z.div_unique with (r := u8 r + 2 ^ 8 * u8 g + 2 ^ 16 * u8 b); lia).
  replace ((u8 g + 2 ^ 8 * u8 b + 2 ^ 16 * u8 a) mod 256)
    with (u8 g) by (apply Z.mod_unique with (q := u8 b + 2 ^ 8 * u8 a); lia).
  replace ((u8 b + 2 ^ 8 * u8 a) mod 256)
    with (u8 b) by (apply Z.mod_unique with (q := u8 a); lia).
  rewrite (Z.mod_small (u8 a)) by lia.
  rewrite !to_u8_u8. reflexivity.
Qed.
(** ** The chunk reader, handler by handler *)

(** An invariant of the three handlers, of the reads and of the seeks is an
    invariant of the chunk reader. *)
Section HandlerInvariant.

Variable stale : nat -> byte.
Variable R : world -> world -> Prop.

Hypothesis R_refl : forall w, R w w.
Hypothesis R_trans : forall a b c, R a b -> R b c -> R a c.
Hypothesis R_read : forall w n, R w (with_file w (snd (read stale n (file w)))).
Hypothesis R_seekg : forall w pos, R w (with_file w (seekg pos (file w))).
Hypothesis R_seekg_cur : forall w off, R w (with_file w (seekg_cur off (file w))).
Hypothesis R_size : forall w, outcome_rel R w (ReadSizeChunk stale w).
Hypothesis R_rgba : forall w, outcome_rel R w (ReadRgbaChunk stale w).
Hypothesis R_xyzi : forall w, outcome_rel R w (ReadXyziChunk stale w).

Lemma handle_chunk_handlers (fuel : nat) (id : list byte) (cs ch : Z) :
  (forall end_pos w, outcome_rel R w (ReadMainLoop stale fuel end_pos w)) ->
  forall w, outcome_rel R w (handle_chunk stale fuel id cs ch w).
Proof.
  intros IHl w. unfold handle_chunk. cbv zeta.
  destruct (String.eqb _ "MAIN"%string).
  { apply (outcome_rel_after R R_trans _ (with_file w (seekg_cur cs (file w)))).
    - apply R_seekg_cur.
    - apply IHl. }
  destruct (String.eqb _ "SIZE"%string); [apply R_size |].
  destruct (String.eqb _ "XYZI"%string); [apply R_xyzi |].
  destruct (String.eqb _ "RGBA"%string); [apply R_rgba |].
  apply R_refl.
Qed.

Lemma ReadChunk_handlers_both (fuel : nat) :
  (forall w, outcome_rel R w (ReadChunk stale fuel w)) /\
  (forall end_pos w, outcome_rel R w (ReadMainLoop stale fuel end_pos w)).
Proof.
  induction fuel as [|fuel [IHc IHl]].
  - split; intros; exact I.
  - split.
    + intros w. rewrite ReadChunk_S.
      pose proof (R_header stale R R_refl R_trans R_read w) as Hh.
      destruct (read_header stale (file w)) as [[[id cs] ch] s3]. cbn [snd] in Hh.
      apply (outcome_rel_bind R R_trans).
      * apply (outcome_rel_after R R_trans w (with_file w s3) _ Hh).
        apply handle_chunk_handlers. exact IHl.
      * intros w'. apply (R_seekg w').
    + intros end_pos w. rewrite ReadMainLoop_S.
      destruct (tellg (file w) <? end_pos).
      * apply (outcome_rel_bind R R_trans); [apply IHc | intros w'; apply IHl].
      * apply R_refl.
Qed.

Lemma ReadChunk_handlers (fuel : nat) (w : world) :
  outcome_rel R w (ReadChunk stale fuel w).
Proof. apply ReadChunk_handlers_both. Qed.

End HandlerInvariant.

(** ** What a load leaves in the loader *)

Lemma advances_refl (v : VoxFile.t) : advances v v.
Proof.
  do 5 (split; [reflexivity |]). exists [], []. rewrite !app_nil_r.
  repeat split; constructor.
Qed.

Lemma advances_trans (a b c : VoxFile.t) :
  advances a b -> advances b c -> advances a c.
Proof.
  intros (Hd1 & Hs1 & Hc1 & Hl1 & Hz1 & ds1 & ss1 & Ed1 & Es1 & Nd1 & Ns1 & Wd1 & Ps1)
         (Hd2 & Hs2 & Hc2 & Hl2 & Hz2 & ds2 & ss2 & Ed2 & Es2 & Nd2 & Ns2 & Wd2 & Ps2).
  do 5 (split; [congruence |]).
  exists (ds1 ++ ds2), (ss1 ++ ss2).
  split; [rewrite Ed2, Ed1, app_assoc; reflexivity |].
  split; [rewrite Es2, Es1, app_assoc; reflexivity |].
  split; [intros H; rewrite Nd1, Nd2 by congruence; reflexivity |].
  split; [intros H; rewrite Ns1, Ns2 by congruence; reflexivity |].
  split; apply Forall_app; split; assumption.
Qed.

Lemma advances_set_cur_size (v : VoxFile.t) (size : Size) :
  advances v (VoxFile.set_cur_size size v).
Proof.
  do 5 (split; [reflexivity |]). exists [], []. cbn. rewrite !app_nil_r.
  repeat split; constructor.
Qed.

Lemma advances_set_palette (v : VoxFile.t) (p : Palette) :
  length p = length (VoxFile.palette_ v) ->
  p !! 0%nat = VoxFile.palette_ v !! 0%nat ->
  advances v (VoxFile.set_palette p v).
Proof.
  intros Hl Hz. do 3 (split; [reflexivity |]).
  split; [exact Hl |]. split; [exact Hz |].
  exists [], []. cbn. rewrite !app_nil_r. repeat split; constructor.
Qed.

Lemma advances_push_models (v : VoxFile.t) (d : VoxDenseModel.t)
    (s : VoxSparseModel.t) :
  well_sized d -> VoxSparseModel.palette_ s = kDefaultPalette ->
  advances v (push_models d s v).
Proof.
  intros Hw Hp. unfold push_models.
  destruct v as [ld ls cull size ds ss pal]. cbn.
  destruct ld, ls; cbn; do 5 (split; [reflexivity |]).
  - exists [d], [s]. repeat split; try discriminate;
      constructor; (assumption || constructor).
  - exists [d], []. rewrite app_nil_r. repeat split; try discriminate;
      constructor; (assumption || constructor).
  - exists [], [s]. rewrite app_nil_r. repeat split; try discriminate;
      constructor; (assumption || constructor).
  - exists [], []. rewrite !app_nil_r. repeat split; constructor.
Qed.

Lemma RemoveHiddenVoxels_cons (dense : VoxDenseModel.t)
    (sparse : VoxSparseModel.t) (voxel : Voxel.t) (rest : list Voxel.t) :
  RemoveHiddenVoxels dense sparse (voxel :: rest) =
  match hidden dense voxel with
  | None => None
  | Some true =>
      match VoxDenseModel.set_voxel dense (u8 (Voxel.x voxel))
              (u8 (Voxel.y voxel)) (u8 (Voxel.z voxel)) x00 with
      | None => None
      | Some dense' => RemoveHiddenVoxels dense' sparse rest
      end
  | Some false =>
      RemoveHiddenVoxels dense (VoxSparseModel.push_back voxel sparse) rest
  end.
Proof. reflexivity. Qed.

(** The culler keeps the shape of the grid and the palette of the sparse
    model. *)
Lemma RemoveHiddenVoxels_frame (dense dense' : VoxDenseModel.t)
    (sparse sparse' : VoxSparseModel.t) (voxels : list Voxel.t) :
  RemoveHiddenVoxels dense sparse voxels = Some (dense', sparse') ->
  VoxDenseModel.size_ dense' = VoxDenseModel.size_ dense /\
  length (VoxDenseModel.voxels_ dense') = length (VoxDenseModel.voxels_ dense) /\
  VoxDenseModel.palette_ dense' = VoxDenseModel.palette_ dense /\
  VoxSparseModel.size_ sparse' = VoxSparseModel.size_ sparse /\
  VoxSparseModel.palette_ sparse' = VoxSparseModel.palette_ sparse.
Proof.
  revert dense sparse. induction voxels as [|v voxels IH]; intros dense sparse H.
  - cbn [RemoveHiddenVoxels] in H. injection H as <- <-. repeat split.
  - rewrite RemoveHiddenVoxels_cons in H.
    destruct (hidden dense v) as [[|]|]; [| | discriminate].
    + destruct (VoxDenseModel.set_voxel dense _ _ _ x00) as [dense1|] eqn:Hset;
        [| discriminate].
      destruct (IH _ _ H) as (H1 & H2 & H3 & H4 & H5).
      apply set_voxel_Some in Hset. destruct Hset as [_ E].
      assert (E1 : VoxDenseModel.size_ dense1 = VoxDenseModel.size_ dense)
        by (rewrite E; reflexivity).
      assert (E2 : length (VoxDenseModel.voxels_ dense1) =
                   length (VoxDenseModel.voxels_ dense))
        by (rewrite E; cbn [VoxDenseModel.voxels_]; apply length_insert).
      assert (E3 : VoxDenseModel.palette_ dense1 = VoxDenseModel.palette_ dense)
        by (rewrite E; reflexivity).
      split; [congruence |]. split; [congruence |]. split; [congruence |].
      split; assumption.
    + destruct (IH _ _ H) as (H1 & H2 & H3 & H4 & H5).
      split; [exact H1 |]. split; [exact H2 |]. split; [exact H3 |].
      split; assumption.
Qed.

Lemma decoded_well_sized (size : Size) (vs : list Voxel.t) :
  well_sized (decoded size vs).
Proof. unfold well_sized. cbn. apply replay_length. Qed.

(** The palette loop writes entries [i], [i + 1], ... only, so it keeps the
    length of the palette and the entries below [i]. *)
Lemma rgba_loop_frame (stale : nat -> byte) (n i : nat) (palette : Palette)
    (s : ifstream) :
  length (fst (rgba_loop stale n i palette s)) = length palette /\
  forall j : nat, (j < i)%nat ->
    fst (rgba_loop stale n i palette s) !! j = palette !! j.
Proof.
  revert i palette s. induction n as [|n IH]; intros i palette s; cbn [rgba_loop].
  - split; [reflexivity | intros; reflexivity].
  - destruct (read_uint8 stale s) as [r s1].
    destruct (read_uint8 stale s1) as [g s2].
    destruct (read_uint8 stale s2) as [b s3].
    destruct (read_uint8 stale s3) as [a s4].
    destruct (IH (S i) (<[i := Color.mk r g b a]> palette) s4) as [Hl Hj].
    split.
    + rewrite Hl. apply length_insert.
    + intros j Hlt. rewrite Hj by lia. apply list_lookup_insert_ne. lia.
Qed.

Section Shape.

Variable stale : nat -> byte.

(** What an XYZI chunk that returns has pushed. *)
Lemma ReadXyziChunk_pushes (w w' : world) :
  ReadXyziChunk stale w = Ret w' ->
  exists (dense : VoxDenseModel.t) (sparse : VoxSparseModel.t),
    this w' = push_models dense sparse (this w) /\
    VoxDenseModel.size_ dense = VoxFile.cur_size_ (this w) /\
    VoxSparseModel.size_ sparse = VoxFile.cur_size_ (this w) /\
    well_sized dense /\
    VoxDenseModel.palette_ dense = None /\
    VoxSparseModel.palette_ sparse = kDefaultPalette.
Proof.
  intros H. pose proof (ReadXyziChunk_outcome stale w) as Ho. cbv zeta in Ho.
  rewrite H in Ho. destruct Ho as (dense & sparse & E & _ & Hc).
  exists dense, sparse. split; [exact E |].
  destruct (VoxFile.remove_hidden_voxels_ (this w)).
  - apply RemoveHiddenVoxels_frame in Hc.
    destruct Hc as (H1 & H2 & H3 & H4 & H5).
    pose proof (decoded_well_sized (VoxFile.cur_size_ (this w))
                  (records stale (file w))) as Hw.
    unfold well_sized in *. rewrite H1, H2.
    repeat split; assumption.
  - injection Hc as <- <-. repeat split. apply decoded_well_sized.
Qed.

Lemma ReadXyziChunk_advances (w : world) :
  outcome_rel (fun a b => advances (this a) (this b)) w (ReadXyziChunk stale w).
Proof.
  pose proof (ReadXyziChunk_outcome stale w) as Ho. cbv zeta in Ho.
  destruct (ReadXyziChunk stale w) as [w' | e w' |] eqn:E; cbn [outcome_rel].
  - destruct (ReadXyziChunk_pushes w w' E) as (d & s & -> & _ & _ & Hw & _ & Hp).
    apply advances_push_models; assumption.
  - destruct Ho as [-> ->]. split; [apply advances_refl | reflexivity].
  - exact I.
Qed.

Lemma ReadRgbaChunk_advances (w : world) :
  outcome_rel (fun a b => advances (this a) (this b)) w (ReadRgbaChunk stale w).
Proof.
  unfold ReadRgbaChunk.
  pose proof (rgba_loop_frame stale 255 1 (VoxFile.palette_ (this w)) (file w))
    as [Hl Hj].
  destruct (rgba_loop stale 255 1 (VoxFile.palette_ (this w)) (file w)) as [p s].
  cbn [fst] in Hl, Hj. cbn [outcome_rel this].
  apply advances_set_palette; [exact Hl | apply Hj; lia].
Qed.

Lemma ReadChunk_advances (fuel : nat) (w : world) :
  outcome_rel (fun a b => advances (this a) (this b)) w (ReadChunk stale fuel w).
Proof.
  apply (ReadChunk_handlers stale (fun a b => advances (this a) (this b))).
  - intros a. apply advances_refl.
  - intros a b c. apply advances_trans.
  - intros a n. apply advances_refl.
  - intros a pos. apply advances_refl.
  - intros a off. apply advances_refl.
  - intros a. apply (R_ReadSizeChunk stale (fun a b => advances (this a) (this b))).
    + intros b. apply advances_refl.
    + intros b c d. apply advances_trans.
    + intros b n. apply advances_refl.
    + intros b size. apply advances_set_cur_size.
  - apply ReadRgbaChunk_advances.
  - apply ReadXyziChunk_advances.
Qed.

(** [Load] in terms of the loader its chunk reader leaves. *)
Lemma Load_advances (fuel : nat) (v : VoxFile.t) (path : option (list byte)) :
  match Load stale fuel v path with
  | Ret v' =>
      exists v1 : VoxFile.t,
        advances (VoxFile.set_dense_models [] v) v1 /\
        v' = VoxFile.set_dense_models
               (map (VoxDenseModel.set_palette (VoxFile.palette_ v1))
                    (VoxFile.dense_models_ v1)) v1
  | Throws e v' => advances (VoxFile.set_dense_models [] v) v'
  | OutOfFuel => True
  end.
Proof.
  unfold Load.
  pose proof (ReadId_VOX stale (mk_world (VoxFile.set_dense_models [] v) (open path)))
    as Hid.
  destruct (read stale 4 _) as [fid s1].
  destruct Hid as [Hid | Hid]; rewrite Hid; cbn [bind]; [| apply advances_refl].
  destruct (le_i32read stale _) as [version s2].
  pose proof (ReadChunk_advances fuel
    (with_file (with_file (mk_world (VoxFile.set_dense_models [] v) (open path)) s1) s2))
    as Hc.
  destruct (ReadChunk stale fuel _) as [w | e w |]; cbn [outcome_rel] in Hc.
  - exists (this w). split; [exact Hc | reflexivity].
  - apply Hc.
  - exact I.
Qed.

End Shape.
Section LoadShape.

Variable stale : nat -> byte.

Lemma left_by_advances (fuel : nat) (v v' : VoxFile.t)
    (path : option (list byte)) :
  left_by (Load stale fuel v path) = Some v' ->
  exists v1 : VoxFile.t,
    advances (VoxFile.set_dense_models [] v) v1 /\
    (v' = v1 \/
     v' = VoxFile.set_dense_models
            (map (VoxDenseModel.set_palette (VoxFile.palette_ v1))
                 (VoxFile.dense_models_ v1)) v1).
Proof.
  intros H. pose proof (Load_advances stale fuel v path) as Ha.
  destruct (Load stale fuel v path) as [v2 | e v2 |]; cbn [left_by] in H;
    [| | discriminate]; injection H as ->.
  - destruct Ha as (v1 & Ha & E). exists v1. split; [exact Ha | right; exact E].
  - exists v'. split; [exact Ha | left; reflexivity].
Qed.

(** X9.  Whatever a file holds and however the load ends, the loader's
    palette keeps its number of entries and its entry 0: a palette chunk
    writes the entries 1 to 255 only. *)
Theorem Load_keeps_palette_entry_0 (fuel : nat) (v v' : VoxFile.t)
    (path : option (list byte)) :
  left_by (Load stale fuel v path) = Some v' ->
  length (VoxFile.palette_ v') = length (VoxFile.palette_ v) /\
  VoxFile.palette_ v' !! 0%nat = VoxFile.palette_ v !! 0%nat.
Proof.
  intros H. destruct (left_by_advances fuel v v' path H) as (v1 & Ha & [-> | ->]);
    destruct Ha as (_ & _ & _ & Hl & Hz & _); split; assumption.
Qed.

(** X10.  A load never changes the three options of the loader, pushes no
    dense model when dense models are not requested and no sparse model when
    sparse models are not requested. *)
Theorem Load_respects_flags (fuel : nat) (v v' : VoxFile.t)
    (path : option (list byte)) :
  left_by (Load stale fuel v path) = Some v' ->
  VoxFile.load_dense_ v' = VoxFile.load_dense_ v /\
  VoxFile.load_sparse_ v' = VoxFile.load_sparse_ v /\
  VoxFile.remove_hidden_voxels_ v' = VoxFile.remove_hidden_voxels_ v /\
  (VoxFile.load_dense_ v = false -> VoxFile.dense_models_ v' = []) /\
  (VoxFile.load_sparse_ v = false ->
   VoxFile.sparse_models_ v' = VoxFile.sparse_models_ v).
Proof.
  intros H. destruct (left_by_advances fuel v v' path H) as (v1 & Ha & Hv).
  destruct Ha as (Hd & Hs & Hc & _ & _ & ds & ss & Ed & Es & Nd & Ns & _ & _).
  cbn in Hd, Hs, Hc, Ed, Es, Nd, Ns.
  assert (Hflags : VoxFile.load_dense_ v' = VoxFile.load_dense_ v1 /\
                   VoxFile.load_sparse_ v' = VoxFile.load_sparse_ v1 /\
                   VoxFile.remove_hidden_voxels_ v' = VoxFile.remove_hidden_voxels_ v1 /\
                   VoxFile.sparse_models_ v' = VoxFile.sparse_models_ v1 /\
                   (VoxFile.dense_models_ v1 = [] -> VoxFile.dense_models_ v' = [])).
  { destruct Hv as [-> | ->]; cbn; repeat split; try (intros E; exact E).
    intros ->. reflexivity. }
  destruct Hflags as (F1 & F2 & F3 & F4 & F5).
  split; [congruence |]. split; [congruence |]. split; [congruence |]. split.
  - intros Hf. apply F5. rewrite Ed, (Nd Hf). reflexivity.
  - intros Hf. rewrite F4, Es, (Ns Hf). apply app_nil_r.
Qed.

(** X11.  Every dense model a load leaves in the collection has exactly one
    cell per position of its size, so that reading a cell at coordinates
    inside the size never throws (the size product fitting 32 bits). *)
Theorem Load_dense_models_well_sized (fuel : nat) (v v' : VoxFile.t)
    (path : option (list byte)) :
  left_by (Load stale fuel v path) = Some v' ->
  Forall (fun d =>
    well_sized d /\
    forall x y z : Z,
      Vec3i.x (VoxDenseModel.size_ d) * Vec3i.y (VoxDenseModel.size_ d) *
        Vec3i.z (VoxDenseModel.size_ d) < 2 ^ 32 ->
      0 <= x < Vec3i.x (VoxDenseModel.size_ d) ->
      0 <= y < Vec3i.y (VoxDenseModel.size_ d) ->
      0 <= z < Vec3i.z (VoxDenseModel.size_ d) ->
      exists c : byte, VoxDenseModel.voxel d x y z = Some c)
    (VoxFile.dense_models_ v').
Proof.
  intros H. destruct (left_by_advances fuel v v' path H) as (v1 & Ha & Hv).
  destruct Ha as (_ & _ & _ & _ & _ & ds & ss & Ed & _ & _ & _ & Wd & _).
  cbn in Ed.
  assert (Hw : Forall well_sized (VoxFile.dense_models_ v')).
  { destruct Hv as [-> | ->]; cbn [VoxFile.dense_models_ VoxFile.set_dense_models].
    - rewrite Ed. exact Wd.
    - rewrite Ed. apply List.Forall_forall. intros d Hd.
      apply List.in_map_iff in Hd. destruct Hd as (d0 & <- & Hd0).
      rewrite List.Forall_forall in Wd. apply (Wd d0 Hd0). }
  apply List.Forall_forall. intros d Hd. rewrite List.Forall_forall in Hw.
  specialize (Hw d Hd). split; [exact Hw |].
  intros x y z Hsmall Hx Hy Hz.
  destruct (voxel_in_size d x y z Hw Hsmall Hx Hy Hz) as [b Hb].
  destruct (VoxDenseModel.voxel d x y z) as [c|]; [| discriminate].
  exists c. reflexivity.
Qed.

(** X12.  The sparse models a load appends all carry the default palette,
    whatever palette the file defines: behind the sparse models the
    collection held before, there are only models whose palette is
    [kDefaultPalette]. *)
Theorem Load_sparse_default_palette (fuel : nat) (v v' : VoxFile.t)
    (path : option (list byte)) :
  left_by (Load stale fuel v path) = Some v' ->
  exists ss : list VoxSparseModel.t,
    VoxFile.sparse_models_ v' = VoxFile.sparse_models_ v ++ ss /\
    Forall (fun s => VoxSparseModel.palette_ s = kDefaultPalette) ss.
Proof.
  intros H. destruct (left_by_advances fuel v v' path H) as (v1 & Ha & Hv).
  destruct Ha as (_ & _ & _ & _ & _ & ds & ss & _ & Es & _ & _ & _ & Ps).
  cbn in Es. exists ss. split; [| exact Ps].
  destruct Hv as [-> | ->]; exact Es.
Qed.

(** X13.  An XYZI chunk that returns pushes one model per requested
    collection, of the pending size, and leaves the pending size and the
    palette as they are: a further XYZI chunk without a SIZE chunk of its
    own gets the same size. *)
Theorem ReadXyziChunk_uses_pending_size (w w' : world) :
  ReadXyziChunk stale w = Ret w' ->
  VoxFile.cur_size_ (this w') = VoxFile.cur_size_ (this w) /\
  VoxFile.palette_ (this w') = VoxFile.palette_ (this w) /\
  (VoxFile.load_dense_ (this w) = true ->
   exists d : VoxDenseModel.t,
     VoxFile.dense_models_ (this w') = VoxFile.dense_models_ (this w) ++ [d] /\
     VoxDenseModel.size_ d = VoxFile.cur_size_ (this w)) /\
  (VoxFile.load_sparse_ (this w) = true ->
   exists s : VoxSparseModel.t,
     VoxFile.sparse_models_ (this w') = VoxFile.sparse_models_ (this w) ++ [s] /\
     VoxSparseModel.size_ s = VoxFile.cur_size_ (this w)).
Proof.
  intros H. destruct (ReadXyziChunk_pushes stale w w' H)
    as (d & s & -> & Hd & Hs & _ & _ & _).
  unfold push_models. destruct (this w) as [ld ls cull size ds ss pal].
  cbn in Hd, Hs |- *.
  destruct ld, ls; cbn; repeat split; try discriminate; intros _;
    (exists d + exists s); split; (reflexivity || assumption).
Qed.

End LoadShape.
(** ** Decoding a palette and a size *)

Section Chunks.

Variable stale : nat -> byte.

Lemma read_uint8_nth (s : ifstream) :
  failbit s = false -> 0 <= gpos s ->
  gpos s + 1 <= Z.of_nat (length (contents s)) ->
  read_uint8 stale s =
    (nth (Z.to_nat (gpos s)) (contents s) x00,
     mk_ifstream (contents s) (gpos s + 1) false (nstale s)).
Proof.
  intros Hf Hp Hl.
  destruct (lookup_lt_is_Some_2 (contents s) (Z.to_nat (gpos s))) as [b Hb]; [lia |].
  rewrite (read_uint8_full stale s b Hf Hp Hb).
  rewrite (nth_lookup_Some _ _ x00 _ Hb). reflexivity.
Qed.

(** Four channel reads on a stream that still holds four bytes. *)
Lemma read_color_full (s : ifstream) :
  failbit s = false -> 0 <= gpos s ->
  gpos s + 4 <= Z.of_nat (length (contents s)) ->
  (let '(r, s1) := read_uint8 stale s in
   let '(g, s2) := read_uint8 stale s1 in
   let '(b, s3) := read_uint8 stale s2 in
   let '(a, s4) := read_uint8 stale s3 in
   (Color.mk r g b a, s4)) =
  (color_at (contents s) (Z.to_nat (gpos s)),
   mk_ifstream (contents s) (gpos s + 4) false (nstale s)).
Proof.
  intros Hf Hp Hl.
  rewrite read_uint8_nth by (try assumption; lia).
  rewrite read_uint8_nth by (cbn [failbit gpos contents]; try reflexivity; lia).
  cbn [failbit gpos contents nstale].
  rewrite read_uint8_nth by (cbn [failbit gpos contents]; try reflexivity; lia).
  cbn [failbit gpos contents nstale].
  rewrite read_uint8_nth by (cbn [failbit gpos contents]; try reflexivity; lia).
  cbn [failbit gpos contents nstale]. unfold color_at.
  replace (Z.to_nat (gpos s + 1)) with (Z.to_nat (gpos s) + 1)%nat by lia.
  replace (Z.to_nat (gpos s + 1 + 1)) with (Z.to_nat (gpos s) + 2)%nat by lia.
  replace (Z.to_nat (gpos s + 1 + 1 + 1)) with (Z.to_nat (gpos s) + 3)%nat by lia.
  replace (gpos s + 1 + 1 + 1 + 1) with (gpos s + 4) by lia. reflexivity.
Qed.

Lemma rgba_loop_S (n i : nat) (palette : Palette) (s : ifstream) :
  rgba_loop stale (S n) i palette s =
  let '(c, s4) :=
    (let '(r, s1) := read_uint8 stale s in
     let '(g, s2) := read_uint8 stale s1 in
     let '(b, s3) := read_uint8 stale s2 in
     let '(a, s4) := read_uint8 stale s3 in
     (Color.mk r g b a, s4)) in
  rgba_loop stale n (S i) (<[i := c]> palette) s4.
Proof.
  cbn [rgba_loop].
  destruct (read_uint8 stale s) as [r s1].
  destruct (read_uint8 stale s1) as [g s2].
  destruct (read_uint8 stale s2) as [b s3].
  destruct (read_uint8 stale s3) as [a s4]. reflexivity.
Qed.

(** On a stream that still holds [4 * n] bytes the palette loop stores the
    [n] records it finds there at the entries [i], [i + 1], ... *)
Lemma rgba_loop_full (n i : nat) (palette : Palette) (s : ifstream) :
  failbit s = false -> 0 <= gpos s ->
  gpos s + 4 * Z.of_nat n <= Z.of_nat (length (contents s)) ->
  snd (rgba_loop stale n i palette s) =
    mk_ifstream (contents s) (gpos s + 4 * Z.of_nat n) false (nstale s) /\
  forall j : nat, (i <= j < i + n)%nat -> (j < length palette)%nat ->
    fst (rgba_loop stale n i palette s) !! j =
    Some (color_at (contents s) (Z.to_nat (gpos s) + 4 * (j - i))).
Proof.
  revert i palette s. induction n as [|n IH]; intros i palette s Hf Hp Hl.
  - cbn [rgba_loop snd fst]. split; [| intros j Hj; lia].
    destruct s as [c p f k]. cbn in *. subst f. f_equal. lia.
  - rewrite rgba_loop_S, read_color_full by (try assumption; lia).
    destruct (IH (S i) (<[i := color_at (contents s) (Z.to_nat (gpos s))]> palette)
                (mk_ifstream (contents s) (gpos s + 4) false (nstale s)))
      as [Hs Hj]; cbn [failbit gpos contents nstale] in *; try reflexivity; try lia.
    split.
    + rewrite Hs. f_equal. lia.
    + intros j Hij Hlt. destruct (Nat.eq_dec j i) as [-> | Hne].
      * destruct (rgba_loop_frame stale n (S i)
                    (<[i := color_at (contents s) (Z.to_nat (gpos s))]> palette)
                    (mk_ifstream (contents s) (gpos s + 4) false (nstale s)))
          as [_ Hlow].
        rewrite Hlow by lia.
        replace (Z.to_nat (gpos s) + 4 * (i - i))%nat with (Z.to_nat (gpos s)) by lia.
        apply list_lookup_insert_eq. exact Hlt.
      * assert (Hlen : length (<[i := color_at (contents s) (Z.to_nat (gpos s))]> palette)
                       = length palette) by apply length_insert.
        rewrite Hj by lia. do 2 f_equal. lia.
Qed.

Lemma le_u32read_full (s : ifstream) :
  failbit s = false -> 0 <= gpos s ->
  gpos s + 4 <= Z.of_nat (length (contents s)) ->
  le_u32read stale s =
    (let p := Z.to_nat (gpos s) in
     u8 (nth p (contents s) x00) + 2 ^ 8 * u8 (nth (p + 1) (contents s) x00) +
     2 ^ 16 * u8 (nth (p + 2) (contents s) x00) +
     2 ^ 24 * u8 (nth (p + 3) (contents s) x00),
     mk_ifstream (contents s) (gpos s + 4) false (nstale s)).
Proof.
  intros Hf Hp Hl. unfold le_u32read.
  rewrite (read_full stale 4 s Hf Hp) by exact Hl.
  rewrite le_bytes_value. cbv zeta.
  assert (Hn : forall k : nat, (k < 4)%nat ->
            nth k (take 4 (drop (Z.to_nat (gpos s)) (contents s))) x00 =
            nth (Z.to_nat (gpos s) + k) (contents s) x00).
  { intros k Hk. rewrite !nth_lookup, lookup_take_lt by exact Hk.
    rewrite lookup_drop. reflexivity. }
  rewrite !Hn by lia. rewrite Nat.add_0_r. reflexivity.
Qed.

(** X14.  On a good stream that still holds 1020 bytes a palette chunk
    returns with the 255 four-byte records found at the cursor stored, as
    (r, g, b, a), at the entries 1 to 255: record [i - 1] of the chunk is
    entry [i].  Entry 0 and the length of the palette are as before, the
    cursor has advanced by 1020 bytes, and nothing else of the loader has
    changed. *)
Theorem ReadRgbaChunk_decodes (w : world) :
  failbit (file w) = false -> 0 <= gpos (file w) ->
  gpos (file w) + 1020 <= Z.of_nat (length (contents (file w))) ->
  exists p : Palette,
    ReadRgbaChunk stale w =
      Ret (mk_world (VoxFile.set_palette p (this w))
             (mk_ifstream (contents (file w)) (gpos (file w) + 1020) false
                (nstale (file w)))) /\
    length p = length (VoxFile.palette_ (this w)) /\
    p !! 0%nat = VoxFile.palette_ (this w) !! 0%nat /\
    forall i : nat, (1 <= i <= 255)%nat ->
      (i < length (VoxFile.palette_ (this w)))%nat ->
      p !! i = Some (color_at (contents (file w))
                       (Z.to_nat (gpos (file w)) + 4 * (i - 1))).
Proof.
  intros Hf Hp Hl. unfold ReadRgbaChunk.
  destruct (rgba_loop_full 255 1 (VoxFile.palette_ (this w)) (file w) Hf Hp)
    as [Hs Hj]; [lia |].
  destruct (rgba_loop_frame stale 255 1 (VoxFile.palette_ (this w)) (file w))
    as [Hlen Hlow].
  destruct (rgba_loop stale 255 1 (VoxFile.palette_ (this w)) (file w)) as [p s].
  cbn [fst snd] in *. exists p. subst s.
  split; [reflexivity |]. split; [exact Hlen |].
  split; [apply Hlow; lia |].
  intros i Hi Hlt. apply Hj; [lia | exact Hlt].
Qed.

(** X15.  On a good stream that still holds twelve bytes a SIZE chunk sets
    the pending size to the three little-endian numbers found at the cursor
    (x, then y, then z), advances the cursor by twelve and changes nothing
    else of the loader. *)
Theorem ReadSizeChunk_decodes (w : world) :
  failbit (file w) = false -> 0 <= gpos (file w) ->
  gpos (file w) + 12 <= Z.of_nat (length (contents (file w))) ->
  let le (k : nat) :=
    u8 (nth k (contents (file w)) x00) +
    2 ^ 8 * u8 (nth (k + 1) (contents (file w)) x00) +
    2 ^ 16 * u8 (nth (k + 2) (contents (file w)) x00) +
    2 ^ 24 * u8 (nth (k + 3) (contents (file w)) x00) in
  let p := Z.to_nat (gpos (file w)) in
  ReadSizeChunk stale w =
    Ret (mk_world
           (VoxFile.set_cur_size (Vec3i.mk (le p) (le (p + 4)%nat) (le (p + 8)%nat))
              (this w))
           (mk_ifstream (contents (file w)) (gpos (file w) + 12) false
              (nstale (file w)))).
Proof.
  intros Hf Hp Hl le p. unfold ReadSizeChunk.
  rewrite le_u32read_full by (try assumption; lia).
  rewrite le_u32read_full by (cbn [failbit gpos contents]; try reflexivity; lia).
  cbn [failbit gpos contents nstale].
  rewrite le_u32read_full by (cbn [failbit gpos contents]; try reflexivity; lia).
  cbn [failbit gpos contents nstale]. cbv zeta.
  replace (Z.to_nat (gpos (file w) + 4)) with (p + 4)%nat by (subst p; lia).
  replace (Z.to_nat (gpos (file w) + 4 + 4)) with (p + 8)%nat by (subst p; lia).
  replace (gpos (file w) + 4 + 4 + 4) with (gpos (file w) + 12) by lia.
  subst le p. cbv beta.
  rewrite <- !Nat.add_assoc. reflexivity.
Qed.

End Chunks.
(** ** The loop of [ReadMainChunk] *)

Section MainLoop.

Variable stale : nat -> byte.

(** X16.  The loop over the children of MAIN returns only on a good stream:
    when it returns, no read has run past the end of the data, before or
    inside the loop, and the cursor stands at or beyond the end position.
    On a failed stream [tellg] answers -1, the test [tellg() < end_pos]
    stays true and the loop never returns. *)
Theorem ReadMainLoop_returns_good (fuel : nat) (end_pos : Z) (w w' : world) :
  0 <= end_pos ->
  ReadMainLoop stale fuel end_pos w = Ret w' ->
  failbit (file w) = false /\ failbit (file w') = false /\
  end_pos <= gpos (file w').
Proof.
  intros Hpos H.
  assert (Hgood : failbit (file w') = false /\ end_pos <= gpos (file w')).
  { revert w H. induction fuel as [|fuel IH]; intros w H; [discriminate |].
    rewrite ReadMainLoop_S in H.
    destruct (Z.ltb_spec (tellg (file w)) end_pos) as [Hlt | Hge].
    - destruct (ReadChunk stale fuel w) as [w1 | e w1 |]; cbn [bind] in H;
        [| discriminate | discriminate].
      apply (IH w1 H).
    - injection H as <-. unfold tellg in Hge.
      destruct (failbit (file w)); [lia |]. split; [reflexivity | exact Hge]. }
  split; [| exact Hgood].
  destruct (ReadChunk_sticky stale fuel) as [_ Hs].
  specialize (Hs end_pos w). rewrite H in Hs. cbn [outcome_rel] in Hs.
  unfold sticky in Hs. destruct (failbit (file w)); [| reflexivity].
  rewrite Hs in Hgood by reflexivity. destruct Hgood as [Hg _]. discriminate.
Qed.

Lemma u32_add_l (a b c : Z) : u32 (u32 a + b + c) = u32 (a + b + c).
Proof.
  unfold u32. rewrite <- !Z.add_assoc. apply Z.add_mod_idemp_l. lia.
Qed.

(** The header of a chunk on a stream that still holds twelve bytes. *)
Lemma read_header_full (s : ifstream) :
  failbit s = false -> 0 <= gpos s ->
  gpos s + 12 <= Z.of_nat (length (contents s)) ->
  snd (read_header stale s) =
    mk_ifstream (contents s) (gpos s + 12) false (nstale s).
Proof.
  intros Hf Hp Hl. unfold read_header.
  rewrite (read_full stale 4 s Hf Hp) by lia.
  rewrite le_u32read_full by (cbn [failbit gpos contents]; try reflexivity; lia).
  cbn [failbit gpos contents nstale].
  rewrite le_u32read_full by (cbn [failbit gpos contents]; try reflexivity; lia).
  cbn [failbit gpos contents nstale snd]. f_equal. lia.
Qed.

(** A chunk with an unhandled id, on a stream that holds its header, is
    skipped: the loader is unchanged and the cursor is moved to the next
    chunk position. *)
Lemma ReadChunk_skips (fuel : nat) (w : world) (id : list byte) (cs ch : Z)
    (s3 : ifstream) :
  failbit (file w) = false -> 0 <= gpos (file w) ->
  gpos (file w) + 12 <= Z.of_nat (length (contents (file w))) ->
  read_header stale (file w) = (id, cs, ch, s3) ->
  unhandled id ->
  ReadChunk stale (S fuel) w =
    Ret (mk_world (this w)
           (mk_ifstream (contents (file w)) (u32 (gpos (file w) + 12 + cs + ch))
              false (nstale (file w)))).
Proof.
  intros Hf Hp Hl Hh (N1 & N2 & N3 & N4).
  pose proof (read_header_full (file w) Hf Hp Hl) as Hs. rewrite Hh in Hs.
  cbn [snd] in Hs. subst s3.
  rewrite ReadChunk_S, Hh. unfold handle_chunk. cbv zeta.
  rewrite N1, N2, N3, N4. cbn [bind with_file this file].
  unfold seekg, tellg. cbn [failbit contents nstale gpos].
  rewrite u32_add_l. reflexivity.
Qed.

(** X17.  A chunk inside MAIN with an unhandled id whose two sizes and the
    twelve bytes of its header add up to a multiple of 2^32 sends the cursor
    back to its own first byte: the loop reads the same chunk again and
    again and never returns, whatever the fuel. *)
Theorem ReadMainLoop_stuck (fuel : nat) (end_pos : Z) (w : world)
    (id : list byte) (cs ch : Z) (s3 : ifstream) :
  failbit (file w) = false -> 0 <= gpos (file w) < end_pos ->
  gpos (file w) + 12 <= Z.of_nat (length (contents (file w))) ->
  read_header stale (file w) = (id, cs, ch, s3) ->
  unhandled id ->
  u32 (gpos (file w) + 12 + cs + ch) = gpos (file w) ->
  ReadMainLoop stale fuel end_pos w = OutOfFuel.
Proof.
  intros Hf Hp Hl Hh Hid Hback.
  assert (Hc : forall n, ReadChunk stale (S n) w = Ret w).
  { intros n. rewrite (ReadChunk_skips n w id cs ch s3) by (try assumption; lia).
    rewrite Hback. destruct w as [v [c p f k]]. cbn in *. subst f. reflexivity. }
  induction fuel as [|fuel IH]; [reflexivity |].
  rewrite ReadMainLoop_S. unfold tellg. rewrite Hf.
  destruct (Z.ltb_spec (gpos (file w)) end_pos) as [_ | Hge]; [| lia].
  destruct fuel as [|fuel]; [reflexivity |].
  rewrite Hc. cbn [bind]. exact IH.
Qed.

End MainLoop.
(** ** Voxels the culler cannot remove *)

Lemma pick_In (b : bool) (flags : list bool) (vs : list Voxel.t) (i : nat)
    (v : Voxel.t) :
  vs !! i = Some v -> flags !! i = Some b -> In v (pick b flags vs).
Proof.
  revert flags vs. induction i as [|i IH]; intros [|f flags] [|u vs] Hv Hf;
    try discriminate; cbn in Hv, Hf.
  - injection Hv as ->. injection Hf as ->. cbn [pick].
    rewrite Bool.eqb_reflx. left. reflexivity.
  - cbn [pick]. destruct (Bool.eqb f b); [right |]; apply (IH flags vs Hv Hf).
Qed.

Section Boundary.

Variable stale : nat -> byte.

(** X18.  Hidden-voxel removal never removes a voxel that is not strictly
    inside the grid on the three axes: with [cull_hidden = true], every
    record of an XYZI chunk with a coordinate equal to 0 or at least
    [size - 1] on some axis is in the sparse list of the model pushed.  In
    particular a model less than three cells thick on some axis keeps all
    its voxels. *)
Theorem ReadXyziChunk_keeps_boundary (w w' : world) :
  let size := VoxFile.cur_size_ (this w) in
  let vs := records stale (file w) in
  VoxFile.remove_hidden_voxels_ (this w) = true ->
  ReadXyziChunk stale w = Ret w' ->
  exists (dense : VoxDenseModel.t) (sparse : VoxSparseModel.t),
    this w' = push_models dense sparse (this w) /\
    forall v : Voxel.t, In v vs -> ~ interior size v ->
      In v (VoxSparseModel.voxels_ sparse).
Proof.
  intros size vs Hcull H.
  pose proof (ReadXyziChunk_outcome stale w) as Ho. cbv zeta in Ho.
  rewrite H, Hcull in Ho. fold size vs in Ho.
  destruct Ho as (dense & sparse & E & _ & Hc).
  exists dense, sparse. split; [exact E |].
  apply RemoveHiddenVoxels_spec in Hc.
  destruct Hc as (om & Hlen & _ & Hdec & Hsp & _).
  intros v Hin Hni. rewrite Hsp. cbn [VoxSparseModel.new VoxSparseModel.voxels_ app].
  apply list_elem_of_In, list_elem_of_lookup in Hin. destruct Hin as [i Hi].
  destruct (lookup_lt_is_Some_2 om i) as [b Hb].
  { rewrite Hlen. apply (lookup_lt_Some _ _ _ Hi). }
  destruct b.
  - exfalso. apply Hni. destruct (Hdec i v Hi Hb) as [Hint _]. exact Hint.
  - apply (pick_In false om vs i v Hi Hb).
Qed.

End Boundary.

(** ** The cell accessors *)

(** X19.  Writing a cell through the mutable accessor and reading it back:
    a write that does not throw leaves the size and the number of cells as
    they are, the cell then reads as the colour written, and every cell with
    another flat index reads as before.  The write throws exactly when the
    read at the same coordinates does. *)
Theorem set_voxel_then_voxel (d : VoxDenseModel.t) (x y z : Z) (c : byte) :
  (VoxDenseModel.set_voxel d x y z c = None <->
   VoxDenseModel.voxel d x y z = None) /\
  forall d' : VoxDenseModel.t,
    VoxDenseModel.set_voxel d x y z c = Some d' ->
    VoxDenseModel.size_ d' = VoxDenseModel.size_ d /\
    length (VoxDenseModel.voxels_ d') = length (VoxDenseModel.voxels_ d) /\
    VoxDenseModel.voxel d' x y z = Some c /\
    forall x' y' z' : Z,
      VoxDenseModel.index (VoxDenseModel.size_ d) x' y' z' <>
        VoxDenseModel.index (VoxDenseModel.size_ d) x y z ->
      VoxDenseModel.voxel d' x' y' z' = VoxDenseModel.voxel d x' y' z'.
Proof.
  split.
  - rewrite set_voxel_None. unfold VoxDenseModel.voxel.
    destruct (Z.ltb_spec (VoxDenseModel.index (VoxDenseModel.size_ d) x y z)
                (Z.of_nat (length (VoxDenseModel.voxels_ d)))) as [Hlt | Hge].
    + split; [lia |]. intros Hn. apply lookup_ge_None in Hn.
      pose proof (index_nonneg (VoxDenseModel.size_ d) x y z). lia.
    + split; [reflexivity | intros _; exact Hge].
  - intros d' H. apply set_voxel_Some in H. destruct H as [Hlt ->].
    pose proof (index_nonneg (VoxDenseModel.size_ d) x y z) as H0.
    cbn [VoxDenseModel.size_ VoxDenseModel.voxels_].
    split; [reflexivity |]. split; [apply length_insert |]. split.
    + apply voxel_Some. cbn [VoxDenseModel.size_ VoxDenseModel.voxels_].
      apply list_lookup_insert_eq. lia.
    + intros x' y' z' Hne. unfold VoxDenseModel.voxel.
      cbn [VoxDenseModel.size_ VoxDenseModel.voxels_].
      rewrite length_insert.
      pose proof (index_nonneg (VoxDenseModel.size_ d) x' y' z') as H1.
      rewrite list_lookup_insert_ne by lia. reflexivity.
Qed.
(** ** The signature check *)

Lemma length_list_byte_of_string (s : String.string) :
  length (String.list_byte_of_string s) = String.length s.
Proof.
  unfold String.list_byte_of_string. rewrite length_map.
  induction s as [|c s IH]; [reflexivity |]. cbn. rewrite IH. reflexivity.
Qed.

(** Two buffers of four bytes are equal when their bytes are, one by one. *)
Lemma four_bytes_eq (l k : list byte) :
  length l = 4%nat -> length k = 4%nat ->
  (negb (Byte.eqb (nth 0 l x00) (nth 0 k x00)) ||
   negb (Byte.eqb (nth 1 l x00) (nth 1 k x00)) ||
   negb (Byte.eqb (nth 2 l x00) (nth 2 k x00)) ||
   negb (Byte.eqb (nth 3 l x00) (nth 3 k x00)) = false) <-> l = k.
Proof.
  intros Hl Hk.
  destruct l as [|l0 [|l1 [|l2 [|l3 [|]]]]]; try discriminate.
  destruct k as [|k0 [|k1 [|k2 [|k3 [|]]]]]; try discriminate.
  cbn [nth]. split.
  - intros H.
    destruct (byte_eqb_spec l0 k0) as [-> |]; [| discriminate].
    destruct (byte_eqb_spec l1 k1) as [-> |]; [| discriminate].
    destruct (byte_eqb_spec l2 k2) as [-> |]; [| discriminate].
    destruct (byte_eqb_spec l3 k3) as [-> |]; [| discriminate].
    reflexivity.
  - intros [= -> -> -> ->]. rewrite !byte_eqb_refl. reflexivity.
Qed.

Section Signature.

Variable stale : nat -> byte.

Lemma read_length (n : nat) (s : ifstream) :
  length (fst (read stale n s)) = n.
Proof.
  unfold read. cbn [fst]. rewrite length_app, length_map, length_seq.
  pose proof (available_length n s). lia.
Qed.

(** X20.  [ReadId] with an id of four characters reads four bytes and
    returns exactly when the four bytes in its buffer are the four
    characters of the id; otherwise it throws the [VoxException] that names
    both.  In either case the loader is unchanged and the stream is the one
    the read left. *)
Theorem ReadId_accepts_exactly (id : String.string) (w : world) :
  String.length id = 4%nat ->
  let fid := fst (read stale 4 (file w)) in
  let w' := with_file w (snd (read stale 4 (file w))) in
  (fid = String.list_byte_of_string id -> ReadId stale id w = Ret w') /\
  (fid <> String.list_byte_of_string id ->
   ReadId stale id w = Throws (VoxException (chunk_id_mismatch id fid)) w').
Proof.
  intros Hid fid w'. subst fid w'. unfold ReadId. rewrite Hid. cbn [Nat.eqb negb].
  pose proof (read_length 4 (file w)) as Hl.
  destruct (read stale 4 (file w)) as [fid s']. cbn [fst snd] in *.
  pose proof (four_bytes_eq fid (String.list_byte_of_string id) Hl) as Heq.
  rewrite length_list_byte_of_string in Heq. specialize (Heq Hid).
  destruct (_ || _) eqn:E.
  - split; [| reflexivity]. intros Hfid. apply Heq in Hfid. discriminate.
  - split; [reflexivity |]. intros Hne. exfalso. apply Hne, Heq. reflexivity.
Qed.

End Signature.

(** ** The console demo *)

(** X21.  [rgbaToChar] of the README's demo maps a colour to one of the
    three darker shades of its table of four, by luminance; the lightest
    shade, entry 0, is never returned, and for pure white (r = g = b = 255)
    the table index is 4 and [intensity_char.at] throws
    [std::out_of_range].  The alpha channel plays no part. *)
Theorem rgbaToChar_range (color : Color.t) :
  (rgbaToChar color = None <->
   Color.r color = xff /\ Color.g color = xff /\ Color.b color = xff) /\
  rgbaToChar color <> Some xb0 /\
  (rgbaToChar color = Some xb1 <->
   77 * u8 (Color.r color) + 151 * u8 (Color.g color) +
     28 * u8 (Color.b color) < 21760).
Proof.
  unfold rgbaToChar.
  change (256 * 255 / (n_intensity_levels - 1)) with 21760.
  pose proof (u8_range (Color.r color)) as Hr.
  pose proof (u8_range (Color.g color)) as Hg.
  pose proof (u8_range (Color.b color)) as Hb.
  set (sum := 77 * u8 (Color.r color) + 151 * u8 (Color.g color) +
              28 * u8 (Color.b color)).
  assert (Hsum : 0 <= sum <= 65280) by (subst sum; lia).
  pose proof (Z.div_mod sum 21760 ltac:(lia)) as Hdm.
  pose proof (Z.mod_pos_bound sum 21760 ltac:(lia)) as Hm.
  assert (Hq : sum / 21760 = 0 \/ sum / 21760 = 1 \/ sum / 21760 = 2 \/
               sum / 21760 = 3) by lia.
  assert (Hwhite : sum = 65280 <->
            Color.r color = xff /\ Color.g color = xff /\ Color.b color = xff).
  { split.
    - intros Hs. subst sum.
      assert (u8 (Color.r color) = u8 xff /\ u8 (Color.g color) = u8 xff /\
              u8 (Color.b color) = u8 xff) as (E1 & E2 & E3)
        by (change (u8 xff) with 255; lia).
      apply u8_inj in E1, E2, E3. auto.
    - intros (E1 & E2 & E3). subst sum. rewrite E1, E2, E3. reflexivity. }
  destruct Hq as [Hq | [Hq | [Hq | Hq]]]; rewrite Hq; cbn.
  - split; [| split].
    + split; [discriminate |]. intros Hw. apply Hwhite in Hw. lia.
    + discriminate.
    + split; [intros _; lia | reflexivity].
  - split; [| split].
    + split; [discriminate |]. intros Hw. apply Hwhite in Hw. lia.
    + discriminate.
    + split; [discriminate | lia].
  - split; [| split].
    + split; [discriminate |]. intros Hw. apply Hwhite in Hw. lia.
    + discriminate.
    + split; [discriminate | lia].
  - split; [| split].
    + split; [intros _; apply Hwhite; lia | reflexivity].
    + discriminate.
    + split; [discriminate | lia].
Qed.
(** ** The records of an XYZI chunk *)

Lemma zero_cells_lookup_zero (us : list Voxel.t) (d : VoxDenseModel.t) (i : nat) :
  VoxDenseModel.voxels_ d !! i = Some x00 ->
  VoxDenseModel.voxels_ (zero_cells us d) !! i = Some x00.
Proof.
  revert d. induction us as [|u us IH]; intros d H; [exact H |].
  unfold zero_cells in *. cbn [fold_left]. apply IH.
  unfold zero_cell. cbn [VoxDenseModel.voxels_].
  destruct (Nat.eq_dec (Z.to_nat (cell (VoxDenseModel.size_ d) u)) i) as [-> | Hne].
  - apply list_lookup_insert_eq. apply (lookup_lt_Some _ _ _ H).
  - rewrite list_lookup_insert_ne by exact Hne. exact H.
Qed.

Lemma filter_none (p : Voxel.t -> bool) (vs : list Voxel.t) :
  Forall (fun v => p v = false) vs -> List.filter p vs = [].
Proof.
  induction 1 as [|v vs Hv _ IH]; [reflexivity |].
  cbn [List.filter]. rewrite Hv. exact IH.
Qed.

Section Xyzi.

Variable stale : nat -> byte.

Lemma read_voxel_full (s : ifstream) :
  failbit s = false -> 0 <= gpos s ->
  gpos s + 4 <= Z.of_nat (length (contents s)) ->
  read_voxel stale s =
    (record_at (contents s) (Z.to_nat (gpos s)),
     mk_ifstream (contents s) (gpos s + 4) false (nstale s)).
Proof.
  intros Hf Hp Hl. unfold read_voxel.
  rewrite read_uint8_nth by (try assumption; lia).
  rewrite read_uint8_nth by (cbn [failbit gpos contents]; try reflexivity; lia).
  cbn [failbit gpos contents nstale].
  rewrite read_uint8_nth by (cbn [failbit gpos contents]; try reflexivity; lia).
  cbn [failbit gpos contents nstale].
  rewrite read_uint8_nth by (cbn [failbit gpos contents]; try reflexivity; lia).
  cbn [failbit gpos contents nstale]. unfold record_at.
  replace (Z.to_nat (gpos s + 1)) with (Z.to_nat (gpos s) + 1)%nat by lia.
  replace (Z.to_nat (gpos s + 1 + 1)) with (Z.to_nat (gpos s) + 2)%nat by lia.
  replace (Z.to_nat (gpos s + 1 + 1 + 1)) with (Z.to_nat (gpos s) + 3)%nat by lia.
  replace (gpos s + 1 + 1 + 1 + 1) with (gpos s + 4) by lia. reflexivity.
Qed.

Lemma read_voxels_S (n : nat) (s : ifstream) :
  read_voxels stale (S n) s =
  let '(v, s1) := read_voxel stale s in
  let '(vs, s2) := read_voxels stale n s1 in
  (v :: vs, s2).
Proof. reflexivity. Qed.

Lemma read_voxels_full (n : nat) (s : ifstream) :
  failbit s = false -> 0 <= gpos s ->
  gpos s + 4 * Z.of_nat n <= Z.of_nat (length (contents s)) ->
  read_voxels stale n s =
    (map (fun k => record_at (contents s) (Z.to_nat (gpos s) + 4 * k)) (seq 0 n),
     mk_ifstream (contents s) (gpos s + 4 * Z.of_nat n) false (nstale s)).
Proof.
  revert s. induction n as [|n IH]; intros s Hf Hp Hl.
  - cbn [read_voxels seq map]. destruct s as [c p f k]. cbn in *. subst f.
    do 2 f_equal. lia.
  - rewrite read_voxels_S, read_voxel_full by (try assumption; lia).
    rewrite IH by (cbn [failbit gpos contents]; try reflexivity; lia).
    cbn [failbit gpos contents nstale]. f_equal.
    + cbn [seq map]. f_equal; [f_equal; lia |].
      rewrite <- seq_shift, map_map. apply map_ext. intros k. f_equal. lia.
    + f_equal. lia.
Qed.

Lemma read_voxels_length (n : nat) (s : ifstream) :
  length (fst (read_voxels stale n s)) = n.
Proof.
  revert s. induction n as [|n IH]; intros s; [reflexivity |].
  rewrite read_voxels_S. destruct (read_voxel stale s) as [v s1].
  specialize (IH s1). destruct (read_voxels stale n s1) as [vs s2].
  cbn [fst length] in *. rewrite IH. reflexivity.
Qed.

Lemma records_full (s : ifstream) :
  let p := Z.to_nat (gpos s) in
  let n :=
    u8 (nth p (contents s) x00) + 2 ^ 8 * u8 (nth (p + 1) (contents s) x00) +
    2 ^ 16 * u8 (nth (p + 2) (contents s) x00) +
    2 ^ 24 * u8 (nth (p + 3) (contents s) x00) in
  failbit s = false -> 0 <= gpos s ->
  gpos s + 4 + 4 * n <= Z.of_nat (length (contents s)) ->
  le_u32read stale s =
    (n, mk_ifstream (contents s) (gpos s + 4) false (nstale s)) /\
  read_voxels stale (Z.to_nat n)
    (mk_ifstream (contents s) (gpos s + 4) false (nstale s)) =
    (map (fun k => record_at (contents s) (p + 4 + 4 * k)) (seq 0 (Z.to_nat n)),
     mk_ifstream (contents s) (gpos s + 4 + 4 * n) false (nstale s)).
Proof.
  intros p n Hf Hp Hl.
  assert (Hn : 0 <= n).
  { subst n. pose proof (u8_range (nth p (contents s) x00)).
    pose proof (u8_range (nth (p + 1) (contents s) x00)).
    pose proof (u8_range (nth (p + 2) (contents s) x00)).
    pose proof (u8_range (nth (p + 3) (contents s) x00)). lia. }
  split.
  - rewrite le_u32read_full by (try assumption; lia). reflexivity.
  - rewrite read_voxels_full by (cbn [failbit gpos contents]; try reflexivity; lia).
    cbn [gpos contents nstale]. f_equal.
    + apply map_ext. intros k. f_equal. lia.
    + f_equal. lia.
Qed.

(** The stream an XYZI chunk that returns leaves: the one after its count
    and its records. *)
Lemma ReadXyziChunk_stream (w w' : world) :
  ReadXyziChunk stale w = Ret w' ->
  file w' =
    snd (read_voxels stale (Z.to_nat (fst (le_u32read stale (file w))))
           (snd (le_u32read stale (file w)))).
Proof.
  unfold ReadXyziChunk. destruct (le_u32read stale (file w)) as [n s1].
  cbn [fst snd].
  pose proof (xyzi_loop_spec stale (Z.to_nat n) s1
                (VoxDenseModel.new (VoxFile.cur_size_ (this w))) []) as Hloop.
  destruct (write_voxels _ _) as [dense'|].
  - rewrite Hloop.
    destruct (if VoxFile.remove_hidden_voxels_ (this w) then _ else _)
      as [[d2 sp2]|]; [| discriminate].
    intros [= <-]. reflexivity.
  - destruct (xyzi_loop stale (Z.to_nat n) s1 _ []) as [[r|] s2];
      cbn [fst] in Hloop; [discriminate |]. discriminate.
Qed.

(** X22.  On a good stream that still holds the chunk, an XYZI chunk is
    the count, a little-endian number, followed by that many groups of four
    bytes, each (x, y, z, colour index): record [k] of the chunk is made of
    the four bytes at offset [4 + 4 * k] from the cursor.  A chunk that
    returns leaves the cursor behind the last record, and without
    hidden-voxel removal the sparse model it pushes lists these records. *)
Theorem ReadXyziChunk_decodes (w w' : world) :
  let s := file w in
  let p := Z.to_nat (gpos s) in
  let n :=
    u8 (nth p (contents s) x00) + 2 ^ 8 * u8 (nth (p + 1) (contents s) x00) +
    2 ^ 16 * u8 (nth (p + 2) (contents s) x00) +
    2 ^ 24 * u8 (nth (p + 3) (contents s) x00) in
  let found :=
    map (fun k => record_at (contents s) (p + 4 + 4 * k)) (seq 0 (Z.to_nat n)) in
  failbit s = false -> 0 <= gpos s ->
  gpos s + 4 + 4 * n <= Z.of_nat (length (contents s)) ->
  ReadXyziChunk stale w = Ret w' ->
  records stale s = found /\
  file w' = mk_ifstream (contents s) (gpos s + 4 + 4 * n) false (nstale s) /\
  (VoxFile.remove_hidden_voxels_ (this w) = false ->
   VoxFile.load_sparse_ (this w) = true ->
   exists sparse : VoxSparseModel.t,
     VoxFile.sparse_models_ (this w') =
       VoxFile.sparse_models_ (this w) ++ [sparse] /\
     VoxSparseModel.voxels_ sparse = found).
Proof.
  intros s p n found Hf Hp Hl H.
  destruct (records_full s Hf Hp Hl) as [Hn Hvs]. fold p n in Hn, Hvs.
  assert (Hrec : records stale s = found).
  { unfold records. rewrite Hn, Hvs. reflexivity. }
  split; [exact Hrec |]. split.
  { rewrite (ReadXyziChunk_stream w w' H). fold s. rewrite Hn. cbn [fst snd].
    rewrite Hvs. reflexivity. }
  intros Hcull Hs.
  pose proof (ReadXyziChunk_outcome stale w) as Ho. cbv zeta in Ho.
  rewrite H, Hcull in Ho. destruct Ho as (dense & sparse & E & _ & Hc).
  injection Hc as _ <-.
  exists (VoxSparseModel.assign (records stale (file w))
            (VoxSparseModel.new (VoxFile.cur_size_ (this w)))).
  split.
  - rewrite E. unfold push_models.
    destruct (this w) as [ld ls cull size ds ss pal]. cbn in Hs |- *. subst ls.
    destruct ld; reflexivity.
  - cbn [VoxSparseModel.assign VoxSparseModel.voxels_]. exact Hrec.
Qed.

(** X23.  Without hidden-voxel removal the sparse model an XYZI chunk
    pushes has exactly as many entries as the chunk's count field declares,
    whether or not the data holds that many records: the records the data
    does not hold are made of indeterminate bytes.  With removal it has at
    most as many. *)
Theorem ReadXyziChunk_record_count (w w' : world) :
  VoxFile.load_sparse_ (this w) = true ->
  ReadXyziChunk stale w = Ret w' ->
  exists sparse : VoxSparseModel.t,
    VoxFile.sparse_models_ (this w') = VoxFile.sparse_models_ (this w) ++ [sparse] /\
    Z.of_nat (length (VoxSparseModel.voxels_ sparse)) <=
      fst (le_u32read stale (file w)) /\
    (VoxFile.remove_hidden_voxels_ (this w) = false ->
     Z.of_nat (length (VoxSparseModel.voxels_ sparse)) =
       fst (le_u32read stale (file w))).
Proof.
  intros Hs H.
  pose proof (ReadXyziChunk_outcome stale w) as Ho. cbv zeta in Ho.
  rewrite H in Ho. destruct Ho as (dense & sparse & E & _ & Hc).
  assert (Hlen : Z.of_nat (length (records stale (file w))) =
                 fst (le_u32read stale (file w))).
  { unfold records. destruct (le_u32read stale (file w)) as [n s1] eqn:En.
    cbn [fst]. rewrite read_voxels_length.
    assert (0 <= n); [| lia].
    unfold le_u32read in En. destruct (read stale 4 (file w)).
    injection En as <- _. apply u32_range. }
  exists sparse. split.
  { rewrite E. unfold push_models.
    destruct (this w) as [ld ls cull size ds ss pal]. cbn in Hs |- *. subst ls.
    destruct ld; reflexivity. }
  destruct (VoxFile.remove_hidden_voxels_ (this w)).
  - split; [| discriminate].
    apply RemoveHiddenVoxels_spec in Hc.
    destruct Hc as (om & _ & _ & _ & Hsp & _).
    rewrite Hsp. cbn [VoxSparseModel.new VoxSparseModel.voxels_ app].
    pose proof (pick_length false om (records stale (file w))). lia.
  - injection Hc as _ <-. cbn [VoxSparseModel.assign VoxSparseModel.voxels_].
    split; [lia | intros _; exact Hlen].
Qed.

(** X24.  In the dense model an XYZI chunk pushes, with or without
    hidden-voxel removal, a cell of the grid that no record of the chunk
    addresses reads 0. *)
Theorem ReadXyziChunk_untouched_cells_empty (w w' : world) (x y z : Z) :
  let size := VoxFile.cur_size_ (this w) in
  VoxFile.load_dense_ (this w) = true ->
  ReadXyziChunk stale w = Ret w' ->
  VoxDenseModel.index size x y z < cells size ->
  Forall (fun v => cell size v <> VoxDenseModel.index size x y z)
    (records stale (file w)) ->
  exists dense : VoxDenseModel.t,
    VoxFile.dense_models_ (this w') = VoxFile.dense_models_ (this w) ++ [dense] /\
    VoxDenseModel.voxel dense x y z = Some x00.
Proof.
  intros size Hd H Hlt Hnone.
  pose proof (ReadXyziChunk_outcome stale w) as Ho. cbv zeta in Ho.
  rewrite H in Ho. fold size in Ho. destruct Ho as (dense & sparse & E & _ & Hc).
  exists dense. split.
  { rewrite E. unfold push_models.
    destruct (this w) as [ld ls cull sz ds ss pal]. cbn in Hd |- *. subst ld.
    destruct ls; reflexivity. }
  pose proof (index_nonneg size x y z) as H0.
  assert (Hdec : VoxDenseModel.voxels_ (decoded size (records stale (file w)))
                   !! Z.to_nat (VoxDenseModel.index size x y z) = Some x00).
  { cbn [decoded VoxDenseModel.voxels_]. unfold replay.
    rewrite paint_all_lookup by (rewrite length_replicate; lia).
    rewrite filter_none.
    - cbn [last]. apply lookup_replicate_2. lia.
    - eapply Forall_impl; [exact Hnone |]. cbv beta. intros v Hv.
      apply Z.eqb_neq. intros Heq. apply Hv. symmetry. exact Heq. }
  destruct (VoxFile.remove_hidden_voxels_ (this w)).
  - apply RemoveHiddenVoxels_spec in Hc.
    destruct Hc as (om & _ & _ & _ & _ & _ & -> & _).
    apply voxel_Some. rewrite zero_cells_size.
    apply zero_cells_lookup_zero. exact Hdec.
  - injection Hc as <- _. apply voxel_Some. exact Hdec.
Qed.

End Xyzi.
(** ** Loading a file with one model *)

Lemma u8_to_u8 (n : Z) : u8 (to_u8 n) = n mod 256.
Proof.
  unfold to_u8, u8.
  pose proof (Z.mod_pos_bound n 256 ltac:(lia)) as H.
  destruct (Byte.of_N (Z.to_N (n mod 256))) as [b|] eqn:E.
  - apply Byte.to_of_N in E. rewrite E. lia.
  - apply Byte.of_N_None_iff in E. lia.
Qed.

Lemma le32_value (n : Z) :
  0 <= n < 2 ^ 32 ->
  u8 (to_u8 n) + 2 ^ 8 * u8 (to_u8 (n / 2 ^ 8)) +
  2 ^ 16 * u8 (to_u8 (n / 2 ^ 16)) + 2 ^ 24 * u8 (to_u8 (n / 2 ^ 24)) = n.
Proof.
  intros H. rewrite !u8_to_u8.
  pose proof (Z.div_mod n 256 ltac:(lia)).
  pose proof (Z.div_mod (n / 2 ^ 8) 256 ltac:(lia)).
  pose proof (Z.div_mod (n / 2 ^ 16) 256 ltac:(lia)).
  assert (n / 2 ^ 8 / 256 = n / 2 ^ 16) by (rewrite Z.div_div by lia; reflexivity).
  assert (n / 2 ^ 16 / 256 = n / 2 ^ 24) by (rewrite Z.div_div by lia; reflexivity).
  assert (0 <= n / 2 ^ 24 < 256).
  { split; [apply Z.div_pos; lia | apply Z.div_lt_upper_bound; lia]. }
  rewrite (Z.mod_small (n / 2 ^ 24)) by lia.
  change (2 ^ 8) with 256 in *. lia.
Qed.

Lemma encode_voxels_length (vs : list Voxel.t) :
  length (encode_voxels vs) = (4 * length vs)%nat.
Proof.
  induction vs as [|v vs IH]; [reflexivity |].
  cbn [encode_voxels flat_map length app] in *. fold (encode_voxels vs).
  rewrite IH. lia.
Qed.

Section Standing.

Variable stale : nat -> byte.

Lemma standing_advance (p k : Z) (data rest : list byte) (s : ifstream) :
  standing p (data ++ rest) s -> k = Z.of_nat (length data) ->
  standing (p + k) rest (advance k s).
Proof.
  intros (Hf & Hg & Hp & Hd) ->. unfold standing, advance. cbn [failbit gpos contents].
  assert (Hl : length (data ++ rest) = (length (contents s) - Z.to_nat p)%nat)
    by (rewrite <- Hd; apply length_drop).
  rewrite length_app in Hl.
  split; [reflexivity |]. split; [lia |]. split; [lia |].
  replace (Z.to_nat (p + Z.of_nat (length data)))
    with (Z.to_nat p + length data)%nat by lia.
  rewrite <- drop_drop, Hd. apply drop_app_length.
Qed.

Lemma read_standing (p : Z) (data rest : list byte) (s : ifstream) :
  standing p (data ++ rest) s ->
  read stale (length data) s = (data, advance (Z.of_nat (length data)) s).
Proof.
  intros (Hf & Hg & Hp & Hd).
  assert (Hl : length (data ++ rest) = (length (contents s) - Z.to_nat p)%nat)
    by (rewrite <- Hd; apply length_drop).
  rewrite length_app in Hl.
  rewrite read_full by (try assumption; lia).
  unfold advance. rewrite Hg, Hd, take_app_length. reflexivity.
Qed.

Lemma le_u32read_standing (p n : Z) (rest : list byte) (s : ifstream) :
  standing p (le32 n ++ rest) s -> 0 <= n < 2 ^ 32 ->
  le_u32read stale s = (n, advance 4 s).
Proof.
  intros Hs Hn. unfold le_u32read.
  change 4%nat with (length (le32 n)).
  rewrite (read_standing p (le32 n) rest s Hs).
  unfold le32 at 1 2 3 4. cbn [nth].
  rewrite le_bytes_value, le32_value by exact Hn. reflexivity.
Qed.

Lemma read_uint8_standing (p : Z) (b : byte) (rest : list byte) (s : ifstream) :
  standing p (b :: rest) s -> read_uint8 stale s = (b, advance 1 s).
Proof.
  intros Hs. unfold read_uint8.
  change 1%nat with (length [b]).
  rewrite (read_standing p [b] rest s Hs). reflexivity.
Qed.

Lemma read_voxel_standing (p : Z) (v : Voxel.t) (rest : list byte) (s : ifstream) :
  standing p ([Voxel.x v; Voxel.y v; Voxel.z v; Voxel.color v] ++ rest) s ->
  read_voxel stale s = (v, advance 4 s).
Proof.
  intros Hs. unfold read_voxel.
  pose proof (standing_advance p 1 [Voxel.x v] _ s Hs eq_refl) as H1.
  rewrite (read_uint8_standing p _ _ s Hs).
  pose proof (standing_advance _ 1 [Voxel.y v] _ _ H1 eq_refl) as H2.
  rewrite (read_uint8_standing _ _ _ _ H1).
  pose proof (standing_advance _ 1 [Voxel.z v] _ _ H2 eq_refl) as H3.
  rewrite (read_uint8_standing _ _ _ _ H2).
  rewrite (read_uint8_standing _ _ _ _ H3).
  destruct v. unfold advance. cbn [contents gpos nstale]. do 2 f_equal. lia.
Qed.

Lemma read_voxels_standing (p : Z) (vs : list Voxel.t) (rest : list byte)
    (s : ifstream) :
  standing p (encode_voxels vs ++ rest) s ->
  read_voxels stale (length vs) s = (vs, advance (4 * Z.of_nat (length vs)) s).
Proof.
  revert p s. induction vs as [|v vs IH]; intros p s Hs.
  - cbn [length read_voxels]. unfold advance. destruct Hs as (Hf & _).
    destruct s as [c g f k]. cbn in *. subst f. do 2 f_equal. lia.
  - cbn [length]. rewrite read_voxels_S.
    cbn [encode_voxels flat_map] in Hs. fold (encode_voxels vs) in Hs.
    rewrite <- app_assoc in Hs.
    rewrite (read_voxel_standing p v _ s Hs).
    pose proof (standing_advance p 4 _ _ s Hs eq_refl) as H1.
    rewrite (IH _ _ H1). unfold advance. cbn [contents gpos nstale].
    do 2 f_equal. lia.
Qed.

End Standing.

Section EndToEnd.

Variable stale : nat -> byte.

Lemma standing_good (p : Z) (rest : list byte) (s : ifstream) :
  standing p rest s -> failbit s = false /\ tellg s = p.
Proof.
  intros (Hf & Hg & _). unfold tellg. rewrite Hf. split; [reflexivity | exact Hg].
Qed.

(** A seek to the position the cursor already has changes nothing. *)
Lemma seekg_standing (p : Z) (rest : list byte) (s : ifstream) :
  standing p rest s -> seekg p s = s.
Proof.
  intros (Hf & Hg & _). unfold seekg. rewrite Hf.
  destruct s as [c g f k]. cbn in *. subst. reflexivity.
Qed.

Lemma seekg_cur_standing (p : Z) (rest : list byte) (s : ifstream) :
  standing p rest s -> seekg_cur 0 s = s.
Proof.
  intros (Hf & Hg & _). unfold seekg_cur. rewrite Hf.
  destruct s as [c g f k]. cbn in *. subst. f_equal. lia.
Qed.

(** The header of a chunk built by [chunk]. *)
Lemma read_header_standing (p cs ch : Z) (id : String.string)
    (rest : list byte) (s : ifstream) :
  String.length id = 4%nat -> 0 <= cs < 2 ^ 32 -> 0 <= ch < 2 ^ 32 ->
  standing p (String.list_byte_of_string id ++ le32 cs ++ le32 ch ++ rest) s ->
  read_header stale s =
    (String.list_byte_of_string id, cs, ch, advance 12 s) /\
  standing (p + 12) rest (advance 12 s).
Proof.
  intros Hid Hcs Hch Hs. unfold read_header.
  assert (Hl : length (String.list_byte_of_string id) = 4%nat)
    by (rewrite length_list_byte_of_string; exact Hid).
  pose proof (read_standing stale p _ _ s Hs) as Hr. rewrite Hl in Hr.
  change (Z.of_nat 4) with 4 in Hr.
  pose proof (standing_advance p 4 _ _ s Hs ltac:(rewrite Hl; reflexivity)) as H1.
  rewrite Hr, (le_u32read_standing stale _ cs _ _ H1 Hcs).
  pose proof (standing_advance _ 4 _ _ _ H1 eq_refl) as H2.
  rewrite (le_u32read_standing stale _ ch _ _ H2 Hch).
  pose proof (standing_advance _ 4 _ _ _ H2 eq_refl) as H3.
  assert (E : advance 4 (advance 4 (advance 4 s)) = advance 12 s).
  { unfold advance. cbn [contents gpos nstale]. f_equal. lia. }
  rewrite E in *. split; [reflexivity |].
  replace (p + 12) with (p + 4 + 4 + 4) by lia. exact H3.
Qed.

Lemma ReadSizeChunk_standing (p x y z : Z) (rest : list byte) (w : world) :
  0 <= x < 2 ^ 32 -> 0 <= y < 2 ^ 32 -> 0 <= z < 2 ^ 32 ->
  standing p (le32 x ++ le32 y ++ le32 z ++ rest) (file w) ->
  ReadSizeChunk stale w =
    Ret (mk_world (VoxFile.set_cur_size (Vec3i.mk x y z) (this w))
           (advance 12 (file w))) /\
  standing (p + 12) rest (advance 12 (file w)).
Proof.
  intros Hx Hy Hz Hs. unfold ReadSizeChunk.
  rewrite (le_u32read_standing stale _ x _ _ Hs Hx).
  pose proof (standing_advance _ 4 _ _ _ Hs eq_refl) as H1.
  rewrite (le_u32read_standing stale _ y _ _ H1 Hy).
  pose proof (standing_advance _ 4 _ _ _ H1 eq_refl) as H2.
  rewrite (le_u32read_standing stale _ z _ _ H2 Hz).
  pose proof (standing_advance _ 4 _ _ _ H2 eq_refl) as H3.
  assert (E : advance 4 (advance 4 (advance 4 (file w))) = advance 12 (file w)).
  { unfold advance. cbn [contents gpos nstale]. f_equal. lia. }
  rewrite E in *. split; [reflexivity |].
  replace (p + 12) with (p + 4 + 4 + 4) by lia. exact H3.
Qed.

Lemma ReadXyziChunk_standing (p : Z) (vs : list Voxel.t) (rest : list byte)
    (w : world) :
  let size := VoxFile.cur_size_ (this w) in
  let n := Z.of_nat (length vs) in
  n < 2 ^ 32 ->
  VoxFile.remove_hidden_voxels_ (this w) = false ->
  Forall (fun v => cell size v < cells size) vs ->
  standing p (le32 n ++ encode_voxels vs ++ rest) (file w) ->
  ReadXyziChunk stale w =
    Ret (mk_world
           (push_models (decoded size vs)
              (VoxSparseModel.assign vs (VoxSparseModel.new size)) (this w))
           (advance (4 + 4 * n) (file w))) /\
  standing (p + (4 + 4 * n)) rest (advance (4 + 4 * n) (file w)).
Proof.
  intros size n Hn Hcull Hall Hs.
  pose proof (standing_advance _ 4 _ _ _ Hs eq_refl) as H1.
  pose proof (standing_advance _ (4 * n) _ _ _ H1
                ltac:(rewrite encode_voxels_length; subst n; lia)) as H2.
  assert (E : advance (4 * n) (advance 4 (file w)) = advance (4 + 4 * n) (file w)).
  { unfold advance. cbn [contents gpos nstale]. f_equal. lia. }
  rewrite E in H2. split.
  - unfold ReadXyziChunk.
    rewrite (le_u32read_standing stale _ n _ _ Hs ltac:(subst n; lia)).
    pose proof (xyzi_loop_spec stale (Z.to_nat n) (advance 4 (file w))
                  (VoxDenseModel.new size) []) as Hloop.
    assert (Hr : read_voxels stale (Z.to_nat n) (advance 4 (file w)) =
                 (vs, advance (4 + 4 * n) (file w))).
    { subst n. rewrite Nat2Z.id, (read_voxels_standing stale _ vs _ _ H1), E.
      reflexivity. }
    rewrite Hr in Hloop. cbn [fst snd] in Hloop.
    rewrite (write_voxels_new_Some size vs Hall) in Hloop.
    fold size. rewrite Hloop, Hcull. reflexivity.
  - replace (p + (4 + 4 * n)) with (p + 4 + 4 * n) by lia. exact H2.
Qed.


Lemma handle_chunk_SIZE (fuel : nat) (cs ch : Z) (w : world) :
  handle_chunk stale fuel (String.list_byte_of_string "SIZE"%string) cs ch w =
  ReadSizeChunk stale w.
Proof. reflexivity. Qed.

Lemma handle_chunk_XYZI (fuel : nat) (cs ch : Z) (w : world) :
  handle_chunk stale fuel (String.list_byte_of_string "XYZI"%string) cs ch w =
  ReadXyziChunk stale w.
Proof. reflexivity. Qed.

Lemma handle_chunk_MAIN (fuel : nat) (cs ch : Z) (w : world) :
  handle_chunk stale fuel (String.list_byte_of_string "MAIN"%string) cs ch w =
  ReadMainLoop stale fuel
    (u32 (u32 (tellg (seekg_cur cs (file w))) + ch))
    (with_file w (seekg_cur cs (file w))).
Proof. reflexivity. Qed.

Lemma ReadId_standing (p : Z) (id : String.string) (rest : list byte) (w : world) :
  String.length id = 4%nat ->
  standing p (String.list_byte_of_string id ++ rest) (file w) ->
  ReadId stale id w = Ret (with_file w (advance 4 (file w))).
Proof.
  intros Hid Hs. unfold ReadId. rewrite Hid. cbn [Nat.eqb negb].
  assert (Hl : length (String.list_byte_of_string id) = 4%nat)
    by (rewrite length_list_byte_of_string; exact Hid).
  pose proof (read_standing stale p _ _ _ Hs) as Hr. rewrite Hl in Hr.
  change (Z.of_nat 4) with 4 in Hr. rewrite Hr.
  rewrite !byte_eqb_refl. reflexivity.
Qed.

(** A SIZE chunk and an XYZI chunk at the cursor. *)
Lemma ReadChunk_SIZE_standing (fuel : nat) (p x y z : Z) (rest : list byte)
    (w : world) :
  0 <= x < 2 ^ 32 -> 0 <= y < 2 ^ 32 -> 0 <= z < 2 ^ 32 ->
  p + 24 < 2 ^ 32 ->
  standing p (size_chunk x y z ++ rest) (file w) ->
  ReadChunk stale (S fuel) w =
    Ret (mk_world (VoxFile.set_cur_size (Vec3i.mk x y z) (this w))
           (advance 24 (file w))) /\
  standing (p + 24) rest (advance 24 (file w)).
Proof.
  intros Hx Hy Hz Hp Hs.
  assert (Hshape : size_chunk x y z ++ rest =
            String.list_byte_of_string "SIZE"%string ++ le32 12 ++ le32 0 ++
            le32 x ++ le32 y ++ le32 z ++ rest).
  { unfold size_chunk, chunk. rewrite <- !app_assoc. reflexivity. }
  rewrite Hshape in Hs.
  destruct (read_header_standing p 12 0 "SIZE"%string _ _ eq_refl
              ltac:(lia) ltac:(lia) Hs) as [Hh H3].
  rewrite ReadChunk_S, Hh, handle_chunk_SIZE.
  destruct (ReadSizeChunk_standing (p + 12) x y z rest
              (with_file w (advance 12 (file w))) Hx Hy Hz H3) as [Hr H4].
  rewrite Hr. cbn [bind with_file this file] in *.
  assert (E : advance 12 (advance 12 (file w)) = advance 24 (file w)).
  { unfold advance. cbn [contents gpos nstale]. f_equal. lia. }
  rewrite E in *. replace (p + 12 + 12) with (p + 24) in H4 by lia.
  destruct (standing_good _ _ _ H3) as [_ Ht]. rewrite Ht.
  destruct (standing_good _ _ _ Hs) as [_ Hp0].
  assert (0 <= p) by (destruct Hs as (_ & _ & ? & _); lia).
  rewrite u32_add_l, u32_small by lia.
  replace (p + 12 + 12 + 0) with (p + 24) by lia.
  rewrite (seekg_standing _ _ _ H4). split; [reflexivity | exact H4].
Qed.

Lemma ReadChunk_XYZI_standing (fuel : nat) (p : Z) (vs : list Voxel.t)
    (rest : list byte) (w : world) :
  let size := VoxFile.cur_size_ (this w) in
  let n := Z.of_nat (length vs) in
  let body := le32 n ++ encode_voxels vs in
  p + 16 + 4 * n < 2 ^ 32 ->
  VoxFile.remove_hidden_voxels_ (this w) = false ->
  Forall (fun v => cell size v < cells size) vs ->
  standing p (chunk "XYZI"%string body [] ++ rest) (file w) ->
  ReadChunk stale (S fuel) w =
    Ret (mk_world
           (push_models (decoded size vs)
              (VoxSparseModel.assign vs (VoxSparseModel.new size)) (this w))
           (advance (16 + 4 * n) (file w))) /\
  standing (p + (16 + 4 * n)) rest (advance (16 + 4 * n) (file w)).
Proof.
  intros size n body Hp Hcull Hall Hs.
  assert (0 <= p) by (destruct Hs as (_ & _ & ? & _); lia).
  assert (Hn : 0 <= n) by (subst n; lia).
  assert (Hb : Z.of_nat (length body) = 4 + 4 * n).
  { subst body. rewrite length_app, encode_voxels_length. cbn [le32 length]. lia. }
  assert (Hshape : chunk "XYZI"%string body [] ++ rest =
            String.list_byte_of_string "XYZI"%string ++ le32 (4 + 4 * n) ++ le32 0 ++
            le32 n ++ encode_voxels vs ++ rest).
  { unfold chunk. rewrite Hb. subst body. rewrite <- !app_assoc. reflexivity. }
  rewrite Hshape in Hs.
  destruct (read_header_standing p (4 + 4 * n) 0 "XYZI"%string _ _ eq_refl
              ltac:(lia) ltac:(lia) Hs) as [Hh H3].
  rewrite ReadChunk_S, Hh, handle_chunk_XYZI.
  destruct (ReadXyziChunk_standing (p + 12) vs rest
              (with_file w (advance 12 (file w))) ltac:(lia) Hcull Hall H3)
    as [Hr H4].
  rewrite Hr. cbn [bind with_file this file] in *. fold size n in H4 |- *.
  assert (E : advance (4 + 4 * n) (advance 12 (file w)) =
              advance (16 + 4 * n) (file w)).
  { unfold advance. cbn [contents gpos nstale]. f_equal. lia. }
  rewrite E in *. replace (p + 12 + (4 + 4 * n)) with (p + (16 + 4 * n)) in H4 by lia.
  destruct (standing_good _ _ _ H3) as [_ Ht]. rewrite Ht.
  rewrite u32_add_l, u32_small by lia.
  replace (p + 12 + (4 + 4 * n) + 0) with (p + (16 + 4 * n)) by lia.
  rewrite (seekg_standing _ _ _ H4). split; [reflexivity | exact H4].
Qed.

(** X25.  Loading the file that holds one model: signature, version, and a
    MAIN chunk whose children are a SIZE chunk, with x, y, z and their
    product below 2^32, and an XYZI chunk of fewer than 2^30 - 15 records,
    all inside the size (with that many records or more the sizes in the
    chunk headers or the end position of MAIN no longer fit 32 bits).
    Without hidden-voxel removal, and with fuel for the four nested steps,
    the load returns with exactly one dense model, whose grid is the replay
    of the records and whose palette is the loader's, and with one more
    sparse model, which lists the records. *)
Theorem Load_single_model (fuel : nat) (v : VoxFile.t) (x y z : Z)
    (vs : list Voxel.t) :
  let size := Vec3i.mk x y z in
  VoxFile.load_dense_ v = true ->
  VoxFile.load_sparse_ v = true ->
  VoxFile.remove_hidden_voxels_ v = false ->
  0 <= x < 2 ^ 32 -> 0 <= y < 2 ^ 32 -> 0 <= z < 2 ^ 32 ->
  x * y * z < 2 ^ 32 ->
  Forall (in_size size) vs ->
  Z.of_nat (length vs) < 2 ^ 30 - 15 ->
  exists v' : VoxFile.t,
    Load stale (4 + fuel) v (Some (vox_file x y z vs)) = Ret v' /\
    VoxFile.dense_models_ v' =
      [VoxDenseModel.mk size (replay size vs) (Some (VoxFile.palette_ v))] /\
    VoxFile.sparse_models_ v' =
      VoxFile.sparse_models_ v ++ [VoxSparseModel.mk size vs kDefaultPalette] /\
    VoxFile.palette_ v' = VoxFile.palette_ v /\
    VoxFile.cur_size_ v' = size.
Proof.
  intros size Hd Hsp Hcull Hx Hy Hz Hsmall Hin Hlen. subst size.
  set (size := Vec3i.mk x y z) in *.
  set (n := Z.of_nat (length vs)) in *.
  assert (Hn : 0 <= n) by (subst n; lia).
  set (xyzi := chunk "XYZI"%string (le32 n ++ encode_voxels vs) []).
  set (children := size_chunk x y z ++ xyzi).
  assert (Hch : Z.of_nat (length children) = 40 + 4 * n).
  { subst children xyzi. unfold size_chunk, chunk.
    rewrite !length_app, encode_voxels_length. cbn [le32 length].
    change (length (String.list_byte_of_string "SIZE")) with 4%nat.
    change (length (String.list_byte_of_string "XYZI")) with 4%nat.
    subst n. lia. }
  assert (Hall : Forall (fun u => cell size u < cells size) vs).
  { eapply Forall_impl; [exact Hin |]. intros u Hu.
    apply in_size_cell; [exact Hsmall | exact Hu]. }
  assert (Hfile : vox_file x y z vs =
            String.list_byte_of_string "VOX "%string ++ le32 150 ++
            String.list_byte_of_string "MAIN"%string ++ le32 0 ++
            le32 (40 + 4 * n) ++ size_chunk x y z ++ xyzi ++ []).
  { unfold vox_file, vox_header, main_chunk. unfold chunk at 1.
    change (size_chunk x y z ++
            chunk "XYZI"%string (le32 (Z.of_nat (length vs)) ++ encode_voxels vs) [])
      with children.
    rewrite Hch. subst children. cbn [length]. change (Z.of_nat 0) with 0.
    rewrite <- !app_assoc, app_nil_r. reflexivity. }
  set (w0 := mk_world (VoxFile.set_dense_models [] v) (open (Some (vox_file x y z vs)))).
  assert (S0 : standing 0 (vox_file x y z vs) (file w0)).
  { unfold standing. cbn. repeat split; lia. }
  rewrite Hfile in S0.
  (* signature and version *)
  pose proof (ReadId_standing 0 "VOX "%string _ w0 eq_refl S0) as Hid.
  pose proof (standing_advance 0 4 _ _ _ S0 eq_refl) as S1.
  pose proof (le_u32read_standing stale _ 150 _ _ S1 ltac:(lia)) as Hver.
  pose proof (standing_advance _ 4 _ _ _ S1 eq_refl) as S2.
  (* the header of MAIN *)
  destruct (read_header_standing _ 0 (40 + 4 * n) "MAIN"%string _ _ eq_refl
              ltac:(lia) ltac:(lia) S2) as [Hmain S3].
  pose proof (seekg_cur_standing _ _ _ S3) as Hskip.
  destruct (standing_good _ _ _ S3) as [_ T3].
  (* SIZE *)
  set (w3 := mk_world (VoxFile.set_dense_models [] v)
               (advance 12 (advance 4 (advance 4 (file w0))))).
  destruct (ReadChunk_SIZE_standing (1 + fuel) (0 + 4 + 4 + 12) x y z _ w3 Hx Hy Hz
              ltac:(lia) S3)
    as [Hsize S4].
  destruct (standing_good _ _ _ S4) as [_ T4].
  (* XYZI *)
  match type of Hsize with _ = Ret ?w => set (w4 := w) in * end.
  destruct (ReadChunk_XYZI_standing fuel (0 + 4 + 4 + 12 + 24) vs [] w4
              ltac:(fold n; lia) Hcull Hall S4)
    as [Hxyzi S5].
  fold n in Hxyzi, S5.
  destruct (standing_good _ _ _ S5) as [_ T5].
  match type of Hxyzi with _ = Ret ?w => set (w5 := w) in * end.
  (* the loop *)
  assert (Hloop : ReadMainLoop stale (3 + fuel) (60 + 4 * n) w3 = Ret w5).
  { change (3 + fuel)%nat with (S (2 + fuel)). rewrite ReadMainLoop_S.
    cbn [file w3]. fold w3. rewrite T3.
    destruct (Z.ltb_spec (0 + 4 + 4 + 12) (60 + 4 * n)) as [_ | Hge]; [| lia].
    change (2 + fuel)%nat with (S (1 + fuel)). rewrite Hsize. cbn [bind].
    rewrite ReadMainLoop_S.
    change (file w4) with (advance 24 (file w3)). rewrite T4.
    destruct (Z.ltb_spec (0 + 4 + 4 + 12 + 24) (60 + 4 * n)) as [_ | Hge]; [| lia].
    change (1 + fuel)%nat with (S fuel). rewrite Hxyzi. cbn [bind].
    rewrite ReadMainLoop_S.
    change (file w5) with (advance (16 + 4 * n) (file w4)). rewrite T5.
    destruct (Z.ltb_spec (0 + 4 + 4 + 12 + 24 + (16 + 4 * n)) (60 + 4 * n))
      as [Hlt | _]; [lia | reflexivity]. }
  (* MAIN *)
  assert (Hchunk : ReadChunk stale (4 + fuel)
                     (mk_world (VoxFile.set_dense_models [] v)
                        (advance 4 (advance 4 (file w0)))) = Ret w5).
  { change (4 + fuel)%nat with (S (3 + fuel)). rewrite ReadChunk_S.
    cbn [file]. rewrite Hmain, handle_chunk_MAIN. cbn [with_file this file].
    rewrite Hskip, T3. rewrite (u32_small (0 + 4 + 4 + 12)) by lia.
    rewrite !u32_small by lia.
    replace (0 + 4 + 4 + 12 + 0 + (40 + 4 * n)) with (60 + 4 * n) by lia.
    replace (0 + 4 + 4 + 12 + (40 + 4 * n)) with (60 + 4 * n) by lia.
    change (ReadMainLoop stale (3 + fuel) (60 + 4 * n) _)
      with (ReadMainLoop stale (3 + fuel) (60 + 4 * n) w3).
    rewrite Hloop. cbn [bind].
    replace (60 + 4 * n) with (0 + 4 + 4 + 12 + 24 + (16 + 4 * n)) by lia.
    change (file w5) with (advance (16 + 4 * n) (file w4)).
    rewrite (seekg_standing _ _ _ S5). reflexivity. }
  (* the load *)
  eexists. split.
  - unfold Load. fold w0. rewrite Hid. cbn [bind with_file this file].
    unfold le_i32read. rewrite Hver.
    change (with_file (with_file w0 (advance 4 (file w0)))
              (advance 4 (advance 4 (file w0))))
      with (mk_world (VoxFile.set_dense_models [] v)
              (advance 4 (advance 4 (file w0)))).
    rewrite Hchunk. reflexivity.
  - unfold w5, w4, w3, push_models. destruct v as [ld ls cull sz ds ss pal].
    cbn in Hd, Hsp, Hcull. subst ld ls cull. cbn. repeat split.
Qed.

End EndToEnd.
(** ** Instances of the further theorems *)

(** X7 on the bytes 01 02 03 04. *)
Lemma le_u32read_little_endian_witness :
  fst (le_u32read zeros (open (Some [x01; x02; x03; x04]))) = 0x04030201.
Proof.
  destruct (le_u32read_little_endian zeros (open (Some [x01; x02; x03; x04]))
              x01 x02 x03 x04 eq_refl ltac:(cbn; lia) eq_refl) as [H _].
  rewrite H. reflexivity.
Defined.

(** X9 on the file with a palette of grey levels: entry 0 is still the
    white of the default palette. *)
Lemma Load_keeps_palette_entry_0_witness :
  exists v' : VoxFile.t,
    left_by (Load zeros 5 (VoxFile.new true true false) (Some file_with_palette))
      = Some v' /\
    VoxFile.palette_ v' !! 0%nat = Some (Color.mk xff xff xff xff).
Proof.
  exists_loader (Load zeros 5 (VoxFile.new true true false) (Some file_with_palette)).
  split; [by_computation |].
  match goal with
  | |- VoxFile.palette_ ?v' !! _ = _ =>
      destruct (Load_keeps_palette_entry_0 zeros 5 (VoxFile.new true true false) v'
                  (Some file_with_palette) ltac:(by_computation)) as [_ H]
  end.
  rewrite H. reflexivity.
Defined.

(** X10 on a loader that asks for sparse models only. *)
Lemma Load_respects_flags_witness :
  exists v' : VoxFile.t,
    left_by (Load zeros 5 (VoxFile.new false true false) (Some file_one_voxel))
      = Some v' /\
    VoxFile.dense_models_ v' = [].
Proof.
  exists_loader (Load zeros 5 (VoxFile.new false true false) (Some file_one_voxel)).
  split; [by_computation |].
  match goal with
  | |- VoxFile.dense_models_ ?v' = _ =>
      destruct (Load_respects_flags zeros 5 (VoxFile.new false true false) v'
                  (Some file_one_voxel) ltac:(by_computation))
        as (_ & _ & _ & H & _)
  end.
  apply H. reflexivity.
Defined.

(** X11 on the full 4 x 3 x 3 box. *)
Lemma Load_dense_models_well_sized_witness :
  exists v' : VoxFile.t,
    left_by (Load zeros 5 (VoxFile.new true true true) (Some file_box_4x3x3))
      = Some v' /\
    Forall well_sized (VoxFile.dense_models_ v').
Proof.
  exists_loader (Load zeros 5 (VoxFile.new true true true) (Some file_box_4x3x3)).
  split; [by_computation |].
  match goal with
  | |- Forall _ (VoxFile.dense_models_ ?v') =>
      pose proof (Load_dense_models_well_sized zeros 5 (VoxFile.new true true true)
                    v' (Some file_box_4x3x3) ltac:(by_computation)) as H
  end.
  eapply Forall_impl; [exact H |]. intros d [Hd _]. exact Hd.
Defined.

(** X12 on the file with a palette of grey levels. *)
Lemma Load_sparse_default_palette_witness :
  exists (v' : VoxFile.t) (ss : list VoxSparseModel.t),
    left_by (Load zeros 5 (VoxFile.new true true false) (Some file_with_palette))
      = Some v' /\
    VoxFile.sparse_models_ v' = ss /\
    Forall (fun s => VoxSparseModel.palette_ s = kDefaultPalette) ss.
Proof.
  exists_loader (Load zeros 5 (VoxFile.new true true false) (Some file_with_palette)).
  match goal with
  | |- exists ss, left_by _ = Some ?v' /\ _ =>
      destruct (Load_sparse_default_palette zeros 5 (VoxFile.new true true false) v'
                  (Some file_with_palette) ltac:(by_computation)) as (ss & E & H)
  end.
  exists ss. split; [by_computation |]. split; [exact E | exact H].
Defined.

(** X13 on a chunk of one record in a 2 x 2 x 2 grid. *)
Lemma ReadXyziChunk_uses_pending_size_witness :
  exists w' : world,
    ReadXyziChunk zeros
      (at_xyzi (VoxFile.new true true false) (Vec3i.mk 2 2 2) [(0, 1, 0, 5)]) =
    Ret w' /\
    VoxFile.cur_size_ (this w') = Vec3i.mk 2 2 2.
Proof.
  pose (w := at_xyzi (VoxFile.new true true false) (Vec3i.mk 2 2 2) [(0, 1, 0, 5)]).
  let r := eval vm_compute in (ReadXyziChunk zeros w) in
  lazymatch r with
  | Ret ?w' =>
      exists w'; split; [by_computation |];
      destruct (ReadXyziChunk_uses_pending_size zeros w w' ltac:(by_computation))
        as [H _]
  end.
  rewrite H. reflexivity.
Defined.

(** X14 on a chunk whose records are all (7, 8, 9, 10). *)
Lemma ReadRgbaChunk_decodes_witness :
  exists p : Palette,
    p !! 0%nat = Some (Color.mk xff xff xff xff) /\
    p !! 255%nat = Some (Color.mk x07 x08 x09 x0a).
Proof.
  pose (w := mk_world (VoxFile.new true true false) (open (Some rgba_body))).
  destruct (ReadRgbaChunk_decodes zeros w eq_refl ltac:(cbn; lia)
              ltac:(vm_compute; discriminate)) as (p & _ & _ & H0 & Hi).
  exists p. split.
  - rewrite H0. reflexivity.
  - rewrite (Hi 255%nat) by (vm_compute; lia). reflexivity.
Defined.

(** X15 on the sizes 4, 3, 3. *)
Lemma ReadSizeChunk_decodes_witness :
  exists w' : world,
    ReadSizeChunk zeros
      (mk_world (VoxFile.new true true false)
         (open (Some (le32 4 ++ le32 3 ++ le32 3)))) = Ret w' /\
    VoxFile.cur_size_ (this w') = Vec3i.mk 4 3 3 /\ gpos (file w') = 12.
Proof.
  pose (w := mk_world (VoxFile.new true true false)
               (open (Some (le32 4 ++ le32 3 ++ le32 3)))).
  pose proof (ReadSizeChunk_decodes zeros w eq_refl ltac:(cbn; lia)
                ltac:(vm_compute; discriminate)) as H.
  cbv zeta in H. eexists. split; [exact H |]. split; by_computation.
Defined.

(** X16 on a SIZE chunk read as the only child of a MAIN chunk. *)
Lemma ReadMainLoop_returns_good_witness :
  exists w' : world,
    ReadMainLoop zeros 3 24
      (mk_world (VoxFile.new true true false) (open (Some (size_chunk 1 1 1)))) =
    Ret w' /\
    failbit (file w') = false /\ 24 <= gpos (file w').
Proof.
  pose (w := mk_world (VoxFile.new true true false) (open (Some (size_chunk 1 1 1)))).
  let r := eval vm_compute in (ReadMainLoop zeros 3 24 w) in
  lazymatch r with
  | Ret ?w' =>
      exists w'; split; [by_computation |];
      destruct (ReadMainLoop_returns_good zeros 3 24 w w' ltac:(lia)
                  ltac:(by_computation)) as (_ & H1 & H2)
  end.
  split; [exact H1 | exact H2].
Defined.

(** X17 on a PACK chunk that declares 2^32 - 12 bytes of contents. *)
Lemma ReadMainLoop_stuck_witness :
  ReadMainLoop zeros 1000 12
    (mk_world (VoxFile.new true true false) (open (Some chunk_wrapping))) =
  OutOfFuel.
Proof.
  pose (w := mk_world (VoxFile.new true true false) (open (Some chunk_wrapping))).
  let r := eval vm_compute in (read_header zeros (file w)) in
  lazymatch r with
  | (?id, ?cs, ?ch, ?s3) =>
      apply (ReadMainLoop_stuck zeros 1000 12 w id cs ch s3)
  end.
  - reflexivity.
  - cbn; lia.
  - vm_compute. discriminate.
  - by_computation.
  - vm_compute. repeat split.
  - by_computation.
Defined.

(** X18 on a full 3 x 3 x 3 box: the corner (0,0,0) is kept. *)
Lemma ReadXyziChunk_keeps_boundary_witness :
  exists sparse : VoxSparseModel.t,
    In (voxel_of (0, 0, 0, 7)) (VoxSparseModel.voxels_ sparse).
Proof.
  pose (w := at_xyzi (VoxFile.new true true true) (Vec3i.mk 3 3 3) (box 3 3 3 7)).
  let r := eval vm_compute in (ReadXyziChunk zeros w) in
  lazymatch r with
  | Ret ?w' =>
      destruct (ReadXyziChunk_keeps_boundary zeros w w' eq_refl ltac:(by_computation))
        as (dense & sparse & _ & H)
  end.
  exists sparse. apply H.
  - vm_compute. left. reflexivity.
  - vm_compute. intros [[H0 _] _]. discriminate.
Defined.

(** X20 on the signature of a file. *)
Lemma ReadId_accepts_exactly_witness :
  exists w' : world,
    ReadId zeros "VOX "%string
      (mk_world (VoxFile.new true true false) (open (Some vox_header))) = Ret w'.
Proof.
  destruct (ReadId_accepts_exactly zeros "VOX "%string
              (mk_world (VoxFile.new true true false) (open (Some vox_header)))
              eq_refl) as [H _].
  eexists. apply H. by_computation.
Defined.

(** X22 on a chunk of two records. *)
Lemma ReadXyziChunk_decodes_witness :
  records zeros (open (Some (xyzi_body [(0, 1, 0, 5); (1, 1, 0, 6)]))) =
  [voxel_of (0, 1, 0, 5); voxel_of (1, 1, 0, 6)].
Proof.
  pose (w := at_xyzi (VoxFile.new true true false) (Vec3i.mk 2 2 2)
               [(0, 1, 0, 5); (1, 1, 0, 6)]).
  let r := eval vm_compute in (ReadXyziChunk zeros w) in
  lazymatch r with
  | Ret ?w' =>
      destruct (ReadXyziChunk_decodes zeros w w' eq_refl ltac:(cbn; lia)
                  ltac:(vm_compute; discriminate) ltac:(by_computation))
        as [H _]
  end.
  etransitivity; [exact H | by_computation].
Defined.

(** X23 on a chunk that declares three records and holds one: the sparse
    list has three entries. *)
Lemma ReadXyziChunk_record_count_witness :
  exists (w' : world) (sparse : VoxSparseModel.t),
    ReadXyziChunk zeros
      (mk_world (VoxFile.set_cur_size (Vec3i.mk 2 2 2) (VoxFile.new true true false))
         (open (Some (le32 3 ++ record (0, 1, 0, 5))))) = Ret w' /\
    VoxFile.sparse_models_ (this w') = [sparse] /\
    length (VoxSparseModel.voxels_ sparse) = 3%nat.
Proof.
  pose (w := mk_world
               (VoxFile.set_cur_size (Vec3i.mk 2 2 2) (VoxFile.new true true false))
               (open (Some (le32 3 ++ record (0, 1, 0, 5))))).
  let r := eval vm_compute in (ReadXyziChunk zeros w) in
  lazymatch r with
  | Ret ?w' =>
      exists w';
      destruct (ReadXyziChunk_record_count zeros w w' eq_refl ltac:(by_computation))
        as (sparse & E & _ & H)
  end.
  exists sparse. split; [by_computation |]. split; [exact E |].
  specialize (H eq_refl).
  assert (E3 : fst (le_u32read zeros (file w)) = 3) by by_computation.
  rewrite E3 in H. lia.
Defined.

(** X24 on a 2 x 1 x 1 grid with the single record (0,0,0,5): the cell of
    (1,0,0) reads 0. *)
Lemma ReadXyziChunk_untouched_cells_empty_witness :
  exists dense : VoxDenseModel.t, VoxDenseModel.voxel dense 1 0 0 = Some x00.
Proof.
  pose (w := at_xyzi (VoxFile.new true true true) (Vec3i.mk 2 1 1) [(0, 0, 0, 5)]).
  let r := eval vm_compute in (ReadXyziChunk zeros w) in
  lazymatch r with
  | Ret ?w' =>
      destruct (ReadXyziChunk_untouched_cells_empty zeros w w' 1 0 0 eq_refl
                  ltac:(by_computation)) as (dense & _ & H)
  end.
  - by_computation.
  - set (rs := records zeros _). vm_compute in rs. subst rs.
    constructor; [vm_compute; discriminate | constructor].
  - exists dense. exact H.
Defined.

(** X25 on a 2 x 2 x 2 model with the records (0,1,0,5) and (1,1,1,6). *)
Lemma Load_single_model_witness :
  exists v' : VoxFile.t,
    Load zeros 4 (VoxFile.new true true false)
      (Some (vox_file 2 2 2 [voxel_of (0, 1, 0, 5); voxel_of (1, 1, 1, 6)])) =
    Ret v' /\
    VoxFile.sparse_models_ v' =
      [VoxSparseModel.mk (Vec3i.mk 2 2 2)
         [voxel_of (0, 1, 0, 5); voxel_of (1, 1, 1, 6)] kDefaultPalette].
Proof.
  destruct (Load_single_model zeros 0 (VoxFile.new true true false) 2 2 2
              [voxel_of (0, 1, 0, 5); voxel_of (1, 1, 1, 6)]
              eq_refl eq_refl eq_refl ltac:(lia) ltac:(lia) ltac:(lia) ltac:(lia)
              ltac:(vm_compute; repeat constructor) ltac:(cbn; lia))
    as (v' & H & _ & Hs & _).
  exists v'. split; [exact H | exact Hs].
Defined.

(** X27 on the file with a shared cell, loaded by a fresh loader. *)
Lemma Load_roundtrip_same_index_witness :
  exists v' : VoxFile.t,
    Load zeros 4 (VoxFile.new true true false) (Some file_shared_cell) = Ret v' /\
    Forall2 (fun d s =>
               VoxDenseModel.size_ d = VoxSparseModel.size_ s /\
               VoxDenseModel.voxels_ d =
                 replay (VoxSparseModel.size_ s) (VoxSparseModel.voxels_ s))
            (VoxFile.dense_models_ v') (VoxFile.sparse_models_ v').
Proof.
  exists_loader (Load zeros 4 (VoxFile.new true true false) (Some file_shared_cell)).
  split; [by_computation |].
  match goal with
  | |- Forall2 _ (VoxFile.dense_models_ ?v') _ =>
      apply (Load_roundtrip_same_index zeros 4 (VoxFile.new true true false) v'
               (Some file_shared_cell) eq_refl eq_refl eq_refl eq_refl);
      by_computation
  end.
Defined.
(** ** Further examples *)

(** With buffers that read as zero, a chunk header read from a failed stream
    has an empty id: the chunk is skipped and the stream is still failed. *)
Lemma ReadChunk_failed_zeros (fuel : nat) (w : world) :
  failbit (file w) = true ->
  exists w' : world,
    ReadChunk zeros (S fuel) w = Ret w' /\ failbit (file w') = true.
Proof.
  intros Hf. rewrite ReadChunk_S. unfold read_header, le_u32read.
  rewrite (read_failed zeros 4 (file w) Hf). cbv beta iota.
  rewrite read_failed by reflexivity. cbv beta iota. cbn [contents gpos nstale].
  rewrite read_failed by reflexivity. cbv beta iota. cbn [contents gpos nstale].
  cbn [seq map]. unfold zeros at 1 2 3 4. unfold handle_chunk.
  cbn [c_str Byte.eqb]. cbv zeta.
  change (String.eqb (String.string_of_list_byte []) "MAIN"%string) with false.
  change (String.eqb (String.string_of_list_byte []) "SIZE"%string) with false.
  change (String.eqb (String.string_of_list_byte []) "XYZI"%string) with false.
  change (String.eqb (String.string_of_list_byte []) "RGBA"%string) with false.
  cbn [bind]. eexists. split; [reflexivity |].
  cbn [file with_file]. rewrite seekg_failbit. reflexivity.
Qed.

Lemma ReadMainLoop_failed_zeros (fuel : nat) (end_pos : Z) (w : world) :
  failbit (file w) = true -> 0 <= end_pos ->
  ReadMainLoop zeros fuel end_pos w = OutOfFuel.
Proof.
  intros Hf Hpos. revert w Hf. induction fuel as [|fuel IH]; intros w Hf;
    [reflexivity |].
  rewrite ReadMainLoop_S, (tellg_failed _ Hf).
  destruct (Z.ltb_spec (-1) end_pos) as [_ | Hge]; [| lia].
  destruct fuel as [|fuel]; [reflexivity |].
  destruct (ReadChunk_failed_zeros fuel w Hf) as (w' & -> & Hf').
  cbn [bind]. apply IH. exact Hf'.
Qed.

(** The one-voxel file without its last byte: the colour of the record is
    read past the end of the data, inside MAIN.  With buffers that read as
    zero the load neither returns nor throws, whatever the fuel. *)
Lemma cut_inside_main_never_returns (fuel : nat) :
  Load zeros fuel (VoxFile.new true true true) (Some file_cut_in_main) = OutOfFuel.
Proof.
  destruct fuel as [|f1]; [by_computation |].
  unfold Load.
  let r := eval vm_compute in
    (ReadId zeros "VOX "%string
       (mk_world (VoxFile.set_dense_models [] (VoxFile.new true true true))
          (open (Some file_cut_in_main)))) in
  lazymatch r with
  | Ret ?w1 =>
      replace (ReadId zeros "VOX "%string
                 (mk_world (VoxFile.set_dense_models [] (VoxFile.new true true true))
                    (open (Some file_cut_in_main)))) with (Ret w1)
        by by_computation;
      cbn [bind];
      let p := eval vm_compute in (le_i32read zeros (file w1)) in
      replace (le_i32read zeros (file w1)) with p by by_computation
  end.
  cbv beta iota. unfold with_file at 1. cbn [this].
  match goal with
  | |- match ReadChunk zeros (S f1) ?w with _ => _ end = _ =>
      assert (Hc : ReadChunk zeros (S f1) w = OutOfFuel); [| rewrite Hc; reflexivity];
      rewrite ReadChunk_S;
      let h := eval vm_compute in (read_header zeros (file w)) in
      replace (read_header zeros (file w)) with h by by_computation
  end.
  cbv beta iota.
  change [x4d; x41; x49; x4e] with (String.list_byte_of_string "MAIN"%string).
  rewrite handle_chunk_MAIN.
  match goal with
  | |- ReadMainLoop zeros f1 ?e ?w >>= _ = _ =>
      let e' := eval vm_compute in e in
      let w' := eval vm_compute in w in
      replace e with e' by by_computation;
      replace w with w' by by_computation;
      assert (Hl : ReadMainLoop zeros f1 e' w' = OutOfFuel);
      [| rewrite Hl; reflexivity]
  end.
  (* the SIZE chunk *)
  destruct f1 as [|f2]; [reflexivity |].
  rewrite ReadMainLoop_S.
  match goal with
  | |- (if ?c then _ else _) = _ => replace c with true by by_computation
  end.
  destruct f2 as [|f3]; [reflexivity |].
  match goal with
  | |- ReadChunk zeros (S f3) ?w >>= _ = _ =>
      let r := eval vm_compute in (ReadChunk zeros 1 w) in
      rewrite (proj1 (ReadChunk_fuel_mono zeros 1) w r ltac:(by_computation)
                 ltac:(discriminate) (S f3) ltac:(lia))
  end.
  cbn [bind]. rewrite ReadMainLoop_S.
  match goal with
  | |- (if ?c then _ else _) = _ => replace c with true by by_computation
  end.
  (* the XYZI chunk, whose last byte is missing *)
  destruct f3 as [|f4]; [reflexivity |].
  match goal with
  | |- ReadChunk zeros (S f4) ?w >>= _ = _ =>
      let r := eval vm_compute in (ReadChunk zeros 1 w) in
      rewrite (proj1 (ReadChunk_fuel_mono zeros 1) w r ltac:(by_computation)
                 ltac:(discriminate) (S f4) ltac:(lia))
  end.
  cbn [bind]. apply ReadMainLoop_failed_zeros; [reflexivity | lia].
Qed.

(** When the size product does not fit 32 bits, records inside the size can
    share a flat cell: in a grid of size 2 x 2147483649 x 2, which has four
    cells, (0,1,0) and (0,0,1) both address cell 2, and after the records
    (0,1,0,5), (0,0,1,9) the cell at (0,1,0) reads 9. *)
Lemma in_size_records_share_cell :
  let size := Vec3i.mk 2 2147483649 2 in
  let records := [voxel_of (0, 1, 0, 5); voxel_of (0, 0, 1, 9)] in
  Forall (in_size size) records /\
  cells size = 4 /\
  map (cell size) records = [2; 2] /\
  voxel_at (decoded size records) (voxel_of (0, 1, 0, 5)) = Some x09 /\
  last_color (same_coord (voxel_of (0, 1, 0, 5))) records = Some x05.
Proof.
  cbv zeta. split.
  - repeat constructor; vm_compute; reflexivity.
  - repeat split; by_computation.
Qed.
